(** * PuReMath bot: a shallow embedding of [PuReMath.py]

    The development follows the source file top-down: the text normalizer
    ([preprocess_math_text]) with the fragment of Python's [re] it uses, the
    response cache ([ResponseCache]) with its MD5 keys and its persistence,
    the rate limiter ([RateLimiter]), the model client
    ([get_gemini_response]), the two renderers, the question log, the
    request pipeline ([process_math_question]), the escaping and sending
    of messages ([escape_markdown_v2], [send_message]) and the dispatch
    loop ([process_messages]).

    Conventions.
    - A Python [str] is a list of Unicode code points ([list Z]).
    - Instants are integers counting microseconds ([time.time()] and
      [datetime.now()] both have microsecond resolution).
    - What the program obtains from its collaborators (the generative
      backend, the messaging platform, the file system, the Unicode
      database) is an explicit argument of the functions below. *)

From Stdlib Require Import ZArith List Bool String Ascii Lia.
From stdpp Require Import gmap strings list fin_maps.
Import ListNotations.

Local Open Scope Z_scope.

(** ** Python strings *)

Definition str := list Z.

(** The code points of an ASCII literal. *)
Definition cps (s : string) : str :=
  List.map (fun a => Z.of_nat (nat_of_ascii a)) (list_ascii_of_string s).

Definition str_eqb (a b : str) : bool := bool_decide (a = b).

(** [str.isspace] on one code point: the whitespace set used by
    [str.strip()] without arguments. *)
Definition is_space (c : Z) : bool :=
  ((9 <=? c) && (c <=? 13)) || ((28 <=? c) && (c <=? 32))
  || (c =? 133) || (c =? 160) || (c =? 5760)
  || ((8192 <=? c) && (c <=? 8202))
  || (c =? 8232) || (c =? 8233) || (c =? 8239) || (c =? 8287) || (c =? 12288).

Fixpoint lstrip (s : str) : str :=
  match s with
  | c :: s' => if is_space c then lstrip s' else s
  | [] => []
  end.

Definition rstrip (s : str) : str := rev (lstrip (rev s)).

(** [s.strip()] *)
Definition strip (s : str) : str := rstrip (lstrip s).

(** [bool(s)] for a string: the empty string is falsy. *)
Definition truthy (s : str) : bool :=
  match s with [] => false | _ :: _ => true end.

(** [len(s)] *)
Definition len (s : str) : Z := Z.of_nat (List.length s).

(** ** The fragment of [re] used by the normalizer

    Every pattern of the source is a concatenation of literal characters,
    the word boundary, the lazy star of the dot, and the capturing group
    that holds a greedy star of a negated one-character class.  The matcher
    below is the backtracking matcher of [re] on that fragment: a lazy star tries the rest of the pattern before it
    consumes a character, a greedy star after. *)

Inductive atom : Type :=
| Lit (c : Z)
| WordBoundary
| AnyLazy
| GroupNotStar (c : Z).

Definition pattern := list atom.

Inductive titem : Type :=
| TLit (c : Z)
| TGroup (n : nat).

Definition template := list titem.

(** A successful match: the number of characters consumed and the text of
    the groups, in order. *)
Definition mresult : Type := nat * list str.

Definition consumed (n : nat) (r : option mresult) : option mresult :=
  match r with
  | Some (m, g) => Some ((n + m)%nat, g)
  | None => None
  end.

Definition with_group (acc : str) (r : option mresult) : option mresult :=
  match r with
  | Some (m, g) => Some ((List.length acc + m)%nat, acc :: g)
  | None => None
  end.

Section Regex.

(** [str.isalnum] of the Unicode database on the code points above
    ASCII. *)
Variable unicode_alnum : Z -> bool.

(** [\w] of a [str] pattern: alphanumeric or underscore. *)
Definition is_word (c : Z) : bool :=
  ((48 <=? c) && (c <=? 57)) || ((65 <=? c) && (c <=? 90))
  || ((97 <=? c) && (c <=? 122)) || (c =? 95)
  || ((128 <=? c) && unicode_alnum c).

Definition is_word_at (o : option Z) : bool :=
  match o with Some c => is_word c | None => false end.

(** The lazy star of the dot followed by the continuation [k]; the dot
    is any character except the newline. *)
Fixpoint lazy_any (k : option Z -> str -> option mresult)
    (prev : option Z) (s : str) : option mresult :=
  match k prev s with
  | Some r => Some r
  | None =>
      match s with
      | x :: s' => if x =? 10 then None
                   else consumed 1 (lazy_any k (Some x) s')
      | [] => None
      end
  end.

(** The group of characters other than [c] followed by the continuation
    [k]; [acc] is the text the group has taken so far. *)
Fixpoint greedy_not (c : Z) (k : option Z -> str -> option mresult)
    (prev : option Z) (s : str) (acc : str) : option mresult :=
  match s with
  | x :: s' =>
      if x =? c then with_group acc (k prev s)
      else match greedy_not c k (Some x) s' (acc ++ [x]) with
           | Some r => Some r
           | None => with_group acc (k prev s)
           end
  | [] => with_group acc (k prev s)
  end.

(** The pattern [p] matched at the start of [s]; [prev] is the character
    before it, if any. *)
Fixpoint match_here (p : pattern) (prev : option Z) (s : str)
    : option mresult :=
  match p with
  | [] => Some (O, [])
  | Lit c :: p' =>
      match s with
      | x :: s' => if x =? c then consumed 1 (match_here p' (Some x) s')
                   else None
      | [] => None
      end
  | WordBoundary :: p' =>
      if xorb (is_word_at prev) (is_word_at (head s))
      then match_here p' prev s else None
  | AnyLazy :: p' => lazy_any (match_here p') prev s
  | GroupNotStar c :: p' => greedy_not c (match_here p') prev s []
  end.

(** The replacement template with the groups of a match filled in. *)
Definition expand (t : template) (groups : list str) : str :=
  flat_map (fun i => match i with
                     | TLit c => [c]
                     | TGroup n => nth (n - 1) groups []
                     end) t.

(** [re.sub(p, t, s)] from a position of [s] on: the leftmost match is
    replaced and the scan resumes after it.  [skip] counts the characters
    of the current match that are still to be passed over. *)
Fixpoint sub_from (p : pattern) (t : template) (prev : option Z)
    (s : str) (skip : nat) : str :=
  match s with
  | [] =>
      match skip, match_here p prev [] with
      | O, Some (_, g) => expand t g
      | _, _ => []
      end
  | x :: s' =>
      match skip with
      | S k => sub_from p t (Some x) s' k
      | O =>
          match match_here p prev s with
          | Some (O, g) => expand t g ++ x :: sub_from p t (Some x) s' 0
          | Some (S n, g) => expand t g ++ sub_from p t (Some x) s' n
          | None => x :: sub_from p t (Some x) s' 0
          end
      end
  end.

Definition re_sub (p : pattern) (t : template) (s : str) : str :=
  sub_from p t None s 0.

(** ** [preprocess_math_text] *)

Definition lits (s : string) : pattern := List.map Lit (cps s).
Definition tlits (s : string) : template := List.map TLit (cps s).

(** A command name followed by one brace group without a closing brace
    inside, which is captured. *)
Definition braced (name : string) : pattern :=
  lits name ++ [Lit 123; GroupNotStar 125; Lit 125].

Definition replacements : list (pattern * template) :=
  [ (lits "\pmod" ++ [WordBoundary], tlits " mod ");
    (lits "\mod" ++ [WordBoundary], tlits " mod ");
    (lits "\begin{" ++ [AnyLazy; Lit 125], []);
    (lits "\end{" ++ [AnyLazy; Lit 125], []);
    (braced "\boxed", [TLit 91; TGroup 1; TLit 93]);
    (braced "\text", [TGroup 1]);
    (lits "\qquad", tlits "    ");
    (lits "\quad", tlits "  ");
    (lits "\,", tlits " ");
    (lits "\ ", tlits " ");
    (lits "\left\{", tlits "{");
    (lits "\right\}", tlits "}");
    (lits "\left(", tlits "(");
    (lits "\right)", tlits ")");
    (lits "\left[", tlits "[");
    (lits "\right]", tlits "]");
    (lits "\times", [TLit 215]);
    (lits "\div", [TLit 247]);
    (lits "\leq", [TLit 8804]);
    (lits "\geq", [TLit 8805]);
    (lits "\neq", [TLit 8800]);
    (lits "\approx", [TLit 8776]);
    (lits "\pm", [TLit 177]);
    (lits "\to", [TLit 8594]);
    (lits "\infty", [TLit 8734]);
    (lits "\sum", [TLit 931]);
    (lits "\prod", [TLit 928]);
    (lits "\int", [TLit 8747]);
    (lits "\sqrt", [TLit 8730]);
    (lits "\frac{" ++ [GroupNotStar 125; Lit 125; Lit 123;
                       GroupNotStar 125; Lit 125],
     [TGroup 1; TLit 47; TGroup 2]);
    (braced "\dot", [TGroup 1; TLit 775]);
    (braced "\ddot", [TGroup 1; TLit 776]);
    (braced "\hat", [TGroup 1; TLit 770]);
    (braced "\tilde", [TGroup 1; TLit 771]) ].

(** The two rules applied after the table: a caret, or an underscore,
    followed by a brace group. *)
Definition exponent_rule : pattern * template :=
  (braced "^", [TLit 94; TGroup 1]).
Definition subscript_rule : pattern * template :=
  (braced "_", [TLit 95; TGroup 1]).

Definition apply_rule (text : str) (rule : pattern * template) : str :=
  re_sub (fst rule) (snd rule) text.

Definition preprocess_math_text (text : str) : str :=
  let text := fold_left apply_rule replacements text in
  let text := apply_rule text exponent_rule in
  let text := apply_rule text subscript_rule in
  strip text.

End Regex.

(** The classification that knows no alphanumeric character beyond ASCII;
    it is used where a text is evaluated on concrete input. *)
Definition ascii_only : Z -> bool := fun _ => false.

(** ** [str.encode('utf-8')] and [hashlib.md5(...).hexdigest()] *)

(** The UTF-8 bytes of one code point; [None] where Python raises
    [UnicodeEncodeError] (a surrogate) or where the number is no code
    point at all. *)
Definition utf8_char (c : Z) : option (list Z) :=
  if c <? 0 then None
  else if c <? 128 then Some [c]
  else if c <? 2048 then
    Some [Z.lor 192 (Z.shiftr c 6); Z.lor 128 (Z.land c 63)]
  else if c <? 65536 then
    if (55296 <=? c) && (c <=? 57343) then None
    else Some [Z.lor 224 (Z.shiftr c 12);
               Z.lor 128 (Z.land (Z.shiftr c 6) 63);
               Z.lor 128 (Z.land c 63)]
  else if c <? 1114112 then
    Some [Z.lor 240 (Z.shiftr c 18);
          Z.lor 128 (Z.land (Z.shiftr c 12) 63);
          Z.lor 128 (Z.land (Z.shiftr c 6) 63);
          Z.lor 128 (Z.land c 63)]
  else None.

Fixpoint utf8_encode (s : str) : option (list Z) :=
  match s with
  | [] => Some []
  | c :: s' =>
      match utf8_char c, utf8_encode s' with
      | Some b, Some bs => Some (b ++ bs)
      | _, _ => None
      end
  end.

Module MD5.

Definition W32 : Z := 4294967296.

Definition add32 (a b : Z) : Z := (a + b) mod W32.
Definition not32 (a : Z) : Z := Z.lxor a (W32 - 1).
Definition rotl32 (x n : Z) : Z :=
  Z.lor (Z.shiftl x n mod W32) (Z.shiftr x (32 - n)).

Definition K : list Z :=
  [ 3614090360; 3905402710; 606105819; 3250441966; 4118548399; 1200080426;
    2821735955; 4249261313; 1770035416; 2336552879; 4294925233; 2304563134;
    1804603682; 4254626195; 2792965006; 1236535329; 4129170786; 3225465664;
    643717713; 3921069994; 3593408605; 38016083; 3634488961; 3889429448;
    568446438; 3275163606; 4107603335; 1163531501; 2850285829; 4243563512;
    1735328473; 2368359562; 4294588738; 2272392833; 1839030562; 4259657740;
    2763975236; 1272893353; 4139469664; 3200236656; 681279174; 3936430074;
    3572445317; 76029189; 3654602809; 3873151461; 530742520; 3299628645;
    4096336452; 1126891415; 2878612391; 4237533241; 1700485571; 2399980690;
    4293915773; 2240044497; 1873313359; 4264355552; 2734768916; 1309151649;
    4149444226; 3174756917; 718787259; 3951481745 ].

Definition S : list Z :=
  [ 7; 12; 17; 22; 7; 12; 17; 22; 7; 12; 17; 22; 7; 12; 17; 22;
    5; 9; 14; 20; 5; 9; 14; 20; 5; 9; 14; 20; 5; 9; 14; 20;
    4; 11; 16; 23; 4; 11; 16; 23; 4; 11; 16; 23; 4; 11; 16; 23;
    6; 10; 15; 21; 6; 10; 15; 21; 6; 10; 15; 21; 6; 10; 15; 21 ].

Definition state : Type := Z * Z * Z * Z.

Definition init : state := (1732584193, 4023233417, 2562383102, 271733878).

(** The message with the padding bit, the zero bytes and the bit length
    as 64 little-endian bits. *)
Definition le_bytes (n : nat) (x : Z) : list Z :=
  List.map (fun i => Z.land (Z.shiftr x (8 * Z.of_nat i)) 255) (seq 0 n).

Definition pad (msg : list Z) : list Z :=
  let n := Z.of_nat (List.length msg) in
  let zeros := Z.to_nat ((55 - n) mod 64) in
  msg ++ [128] ++ List.repeat 0 zeros ++ le_bytes 8 ((8 * n) mod 2 ^ 64).

Definition le_word (b : list Z) : Z :=
  fold_right (fun x acc => x + 256 * acc) 0 b.

(** The sixteen words of block [i]. *)
Definition block_words (padded : list Z) (i : nat) : list Z :=
  let block := firstn 64 (skipn (64 * i) padded) in
  List.map (fun j => le_word (firstn 4 (skipn (4 * j) block))) (seq 0 16).

Definition step (M : list Z) (st : state) (i : nat) : state :=
  let '(a, b, c, d) := st in
  let zi := Z.of_nat i in
  let '(f, g) :=
    if zi <? 16 then (Z.lor (Z.land b c) (Z.land (not32 b) d), zi)
    else if zi <? 32 then
      (Z.lor (Z.land d b) (Z.land (not32 d) c), (5 * zi + 1) mod 16)
    else if zi <? 48 then (Z.lxor b (Z.lxor c d), (3 * zi + 5) mod 16)
    else (Z.lxor c (Z.lor b (not32 d)), (7 * zi) mod 16) in
  let f := add32 (add32 (add32 f a) (nth i K 0)) (nth (Z.to_nat g) M 0) in
  (d, add32 b (rotl32 f (nth i S 0)), b, c).

Definition compress (st : state) (M : list Z) : state :=
  let '(a, b, c, d) := st in
  let '(a', b', c', d') := fold_left (step M) (seq 0 64) st in
  (add32 a a', add32 b b', add32 c c', add32 d d').

(** The sixteen bytes of the digest. *)
Definition digest (msg : list Z) : list Z :=
  let padded := pad msg in
  let blocks := List.map (block_words padded)
                         (seq 0 (List.length padded / 64)) in
  let '(a, b, c, d) := fold_left compress blocks init in
  le_bytes 4 a ++ le_bytes 4 b ++ le_bytes 4 c ++ le_bytes 4 d.

Definition hex_digit (n : Z) : Z := if n <? 10 then 48 + n else 87 + n.

Definition hexdigest (msg : list Z) : str :=
  flat_map (fun b => [hex_digit (Z.shiftr b 4); hex_digit (Z.land b 15)])
           (digest msg).

End MD5.

(** ** Exceptions and non-termination

    A call returns a value, raises, or never returns. *)

Inductive exn : Type :=
| UnicodeEncodeError
| RenderError.

Inductive outcome (A : Type) : Type :=
| Ret (a : A)
| Raise (e : exn)
| Diverge.

Arguments Ret {A} a.
Arguments Raise {A} e.
Arguments Diverge {A}.

(** What the program writes through [logger]. *)
Inductive log_line : Type :=
| LogErrorSavingCache
| LogServingFromCache
| LogGeminiRetry (attempt wait : Z)
| LogGeminiGaveUp
| LogErrorSavingQuestion
| LogErrorProcessing.

(** ** Constants *)

Definition MAX_RETRIES : Z := 3.
Definition RETRY_DELAY : Z := 2.
Definition CACHE_EXPIRY_DAYS : Z := 7.
Definition RATE_LIMIT_PER_USER : Z := 5.

Definition SECOND : Z := 1000000.
Definition DAY : Z := 86400 * SECOND.

(** [(now - then).days]: a [timedelta] is normalised so that its [days]
    is the floor of the difference. *)
Definition days_between (now then_ : Z) : Z := (now - then_) / DAY.

(** ** [ResponseCache] *)

Module ResponseCache.

(** An entry of [self.cache]; the timestamp is held as the instant that
    [isoformat] prints and [fromisoformat] reads back. *)
Record CacheEntry : Type := { response : str; timestamp : Z }.

(** What a file of the cache holds: the whole JSON text of a dictionary,
    or a proper prefix of that text. *)
Inductive file_content : Type :=
| Dump (c : gmap str CacheEntry)
| PartialDump (c : gmap str CacheEntry) (n : nat).

(** The object with the two files it owns: [self.cache_file] and the
    temporary file next to it. *)
Record t : Type := {
  cache : gmap str CacheEntry;
  lock : bool;
  cache_file : option file_content;
  temp_file : option file_content
}.

Definition with_cache (c : gmap str CacheEntry) (rc : t) : t :=
  {| cache := c; lock := lock rc;
     cache_file := cache_file rc; temp_file := temp_file rc |}.
Definition with_lock (b : bool) (rc : t) : t :=
  {| cache := cache rc; lock := b;
     cache_file := cache_file rc; temp_file := temp_file rc |}.
Definition with_temp_file (f : option file_content) (rc : t) : t :=
  {| cache := cache rc; lock := lock rc;
     cache_file := cache_file rc; temp_file := f |}.

(** [os.replace(temp_file, self.cache_file)] *)
Definition replace_file (rc : t) : t :=
  {| cache := cache rc; lock := lock rc;
     cache_file := temp_file rc; temp_file := None |}.

Definition fresh (now : Z) (e : CacheEntry) : bool :=
  days_between now (timestamp e) <? CACHE_EXPIRY_DAYS.

(** [_load_cache]: a missing file, or one that does not parse, gives the
    empty dictionary; expired entries are dropped. *)
Definition _load_cache (file : option file_content) (now : Z)
    : gmap str CacheEntry :=
  match file with
  | Some (Dump c) => filter (fun kv => fresh now (snd kv) = true) c
  | Some (PartialDump _ _) => ∅
  | None => ∅
  end.

(** [__init__] *)
Definition init (file temp : option file_content) (now : Z) : t :=
  {| cache := _load_cache file now; lock := false;
     cache_file := file; temp_file := temp |}.

(** [_hash_question] *)
Definition _hash_question (question : str) : option str :=
  match utf8_encode question with
  | Some bytes => Some (MD5.hexdigest bytes)
  | None => None
  end.

(** [get] *)
Definition get (rc : t) (question : str) (now : Z) : outcome (option str) :=
  match _hash_question question with
  | None => Raise UnicodeEncodeError
  | Some question_hash =>
      match cache rc !! question_hash with
      | Some cached =>
          if fresh now cached then Ret (Some (response cached))
          else Ret None
      | None => Ret None
      end
  end.

(** The faults the file system can answer with while [save_cache] runs:
    [open] fails, [json.dump] fails after [n] characters, or
    [os.replace] fails. *)
Inductive io_fault : Type :=
| NoFault
| OpenFails
| DumpFails (n : nat)
| ReplaceFails.

(** The states [save_cache] goes through once it holds the lock, the
    last one being the state it returns in, and what it logs.  The
    [finally] clause releases the lock on every path. *)
Definition save_cache_steps (fault : io_fault) (rc : t)
    : list t * list log_line :=
  let locked := with_lock true rc in
  let opened := with_temp_file (Some (PartialDump (cache rc) 0)) locked in
  let dumped := with_temp_file (Some (Dump (cache rc))) opened in
  match fault with
  | OpenFails =>
      ([locked; with_lock false locked], [LogErrorSavingCache])
  | DumpFails n =>
      let torn := with_temp_file (Some (PartialDump (cache rc) n)) opened in
      ([locked; opened; torn; with_lock false torn], [LogErrorSavingCache])
  | ReplaceFails =>
      ([locked; opened; dumped; with_lock false dumped],
       [LogErrorSavingCache])
  | NoFault =>
      let replaced := replace_file dumped in
      ([locked; opened; dumped; replaced; with_lock false replaced], [])
  end.

(** [save_cache]: the busy wait on [self.lock] ends only if the lock is
    free, since nothing else runs that could release it. *)
Definition save_cache (fault : io_fault) (rc : t)
    : outcome (t * list log_line) :=
  if lock rc then Diverge
  else let '(states, logs) := save_cache_steps fault rc in
       Ret (List.last states rc, logs).

(** [set] *)
Definition set (fault : io_fault) (rc : t) (question response_ : str)
    (now : Z) : outcome (t * list log_line) :=
  match _hash_question question with
  | None => Raise UnicodeEncodeError
  | Some question_hash =>
      save_cache fault
        (with_cache (<[question_hash :=
                         {| response := response_; timestamp := now |}]>
                       (cache rc)) rc)
  end.

End ResponseCache.

(** ** [RateLimiter] *)

Module RateLimiter.

(** [self.user_requests] maps an identity to the instants of its
    requests; it is empty when the process starts. *)
Definition init : gmap Z (list Z) := ∅.

(** The comprehension that drops the old requests. *)
Definition prune (now : Z) (requests : list Z) : list Z :=
  List.filter (fun t => now - t <? 60 * SECOND) requests.

(** [check_rate_limit] *)
Definition check_rate_limit (rl : gmap Z (list Z)) (user_id : Z) (now : Z)
    : gmap Z (list Z) * bool :=
  match rl !! user_id with
  | None => (<[user_id := [now]]> rl, true)
  | Some requests =>
      let kept := prune now requests in
      let rl := <[user_id := kept]> rl in
      if RATE_LIMIT_PER_USER <=? Z.of_nat (List.length kept)
      then (rl, false)
      else (<[user_id := kept ++ [now]]> rl, true)
  end.

(** A run of calls, each with the identity and the instant of the
    call, and the answer to each. *)
Fixpoint run (rl : gmap Z (list Z)) (calls : list (Z * Z))
    : gmap Z (list Z) * list bool :=
  match calls with
  | [] => (rl, [])
  | (user_id, now) :: rest =>
      let '(rl1, ok) := check_rate_limit rl user_id now in
      let '(rl2, oks) := run rl1 rest in
      (rl2, ok :: oks)
  end.

End RateLimiter.

(** ** The renderers: the text that is laid out *)

(** [s.split('\n')] *)
Fixpoint split_lines (s : str) : list str :=
  match s with
  | [] => [[]]
  | c :: s' =>
      if c =? 10 then [] :: split_lines s'
      else match split_lines s' with
           | l :: ls => (c :: l) :: ls
           | [] => [[c]]
           end
  end.

(** ['\n'.join(ls)] *)
Definition join_lines (ls : list str) : str :=
  match ls with
  | [] => []
  | l :: ls' => l ++ flat_map (fun l' => 10 :: l') ls'
  end.

(** [range(0, stop, step)] *)
Definition range_step (stop step : nat) : list nat :=
  List.map (fun k => (k * step)%nat) (seq 0 ((stop + step - 1) / step)).

(** [s[i:j]] for [0 <= i <= j] *)
Definition slice (s : str) (i j : nat) : str := firstn (j - i) (skipn i s).

Definition WRAP_WIDTH : nat := 80.

(** The body of the wrapping loop for one line. *)
Definition wrap_line (line : str) : list str :=
  if (WRAP_WIDTH <? List.length line)%nat
  then List.map (fun i => slice line i (i + WRAP_WIDTH))
                (range_step (List.length line) WRAP_WIDTH)
  else [line].

Definition wrapped_lines (text : str) : list str :=
  flat_map wrap_line (split_lines text).

(** A rendered buffer, identified by the text drawn on it. *)
Inductive artifact : Type :=
| Png (text : str)
| Pdf (text : str).

(** ** The question log *)

Record user_info : Type := {
  user_id : Z;
  username : option str;
  first_name : option str;
  last_name : option str
}.

Record log_entry : Type := {
  log_timestamp : Z;
  log_chat_id : Z;
  log_user : user_info;
  log_question : str;
  log_response : option str;
  log_response_length : Z
}.

(** The log file: the JSON list of the entries, or a text that does not
    parse as one (left behind by a write that failed). *)
Inductive log_file : Type :=
| LogEntries (l : list log_entry)
| LogTorn.

(** What can go wrong with the file during one call:
    - [LogReadFails]: reading the existing file raises although its
      text is a list of entries (the [open] for reading fails);
    - [LogOpenFails]: [open(JSON_LOG_FILE, 'w')] raises, so that the
      file is neither emptied nor written;
    - [LogWriteFails]: the file was opened for writing, which empties
      it, and [json.dump] raises before the whole text is written. *)
Inductive log_fault : Type :=
| LogNoFault
| LogReadFails
| LogOpenFails
| LogWriteFails.

(** The value stored under ["response"]: cut to 1000 characters and an
    ellipsis when longer. *)
Definition logged_response (response : option str) : option str :=
  match response with
  | Some r =>
      if truthy r && (1000 <? len r) then Some (firstn 1000 r ++ cps "...")
      else Some r
  | None => None
  end.

Definition logged_length (response : option str) : Z :=
  match response with
  | Some r => if truthy r then len r else 0
  | None => 0
  end.

(** [save_question_to_json]: the file after the call and what is logged.
    Every exception is caught.  The file is rewritten in place: nothing
    is written when reading it, parsing it or opening it for writing
    fails, and a dump that fails leaves an incomplete text. *)
Definition save_question_to_json (fault : log_fault) (file : option log_file)
    (now : Z) (chat_id : Z) (user : user_info) (question_text : str)
    (response : option str) : option log_file * list log_line :=
  let log_entry_ :=
    {| log_timestamp := now; log_chat_id := chat_id; log_user := user;
       log_question := question_text;
       log_response := logged_response response;
       log_response_length := logged_length response |} in
  let existing_data :=
    match file with
    | None => Some []
    | Some (LogEntries l) =>
        match fault with LogReadFails => None | _ => Some l end
    | Some LogTorn => None
    end in
  match existing_data with
  | None => (file, [LogErrorSavingQuestion])
  | Some l =>
      match fault with
      | LogOpenFails => (file, [LogErrorSavingQuestion])
      | LogWriteFails => (Some LogTorn, [LogErrorSavingQuestion])
      | _ => (Some (LogEntries (l ++ [log_entry_])), [])
      end
  end.

(** ** The world the bot acts on *)

Inductive event : Type :=
| EvGenerate (prompt : str)
| EvSleep (seconds : Z)
| EvLog (l : log_line)
| EvSendChatAction (chat_id : Z)
| EvSendPhoto (chat_id : Z) (a : artifact)
| EvSendDocument (chat_id : Z) (a : artifact).

(** [clock] is the time as the program itself makes it pass: it is read
    where the code reads [time.time()] or [datetime.now()] and moved on by
    [time.sleep] only.  How long the collaborators take (the backend, the
    drawing, the uploads, the file system) is not part of the state;
    where the code depends on it, in the wait of 60 seconds for the model
    client, the environment says how the wait ended
    ([answered_in_time]). *)
Record World : Type := {
  response_cache : ResponseCache.t;
  rate_limiter : gmap Z (list Z);
  question_log : option log_file;
  clock : Z;
  events : list event
}.

Definition with_response_cache (rc : ResponseCache.t) (w : World) : World :=
  {| response_cache := rc; rate_limiter := rate_limiter w;
     question_log := question_log w; clock := clock w; events := events w |}.
Definition with_rate_limiter (rl : gmap Z (list Z)) (w : World) : World :=
  {| response_cache := response_cache w; rate_limiter := rl;
     question_log := question_log w; clock := clock w; events := events w |}.
Definition with_question_log (f : option log_file) (w : World) : World :=
  {| response_cache := response_cache w; rate_limiter := rate_limiter w;
     question_log := f; clock := clock w; events := events w |}.

(** One more event at the end of the trace. *)
Definition emit (e : event) (w : World) : World :=
  {| response_cache := response_cache w; rate_limiter := rate_limiter w;
     question_log := question_log w; clock := clock w;
     events := events w ++ [e] |}.

Definition emit_logs (ls : list log_line) (w : World) : World :=
  fold_left (fun w l => emit (EvLog l) w) ls w.

(** [time.sleep(seconds)] *)
Definition sleep (seconds : Z) (w : World) : World :=
  {| response_cache := response_cache w; rate_limiter := rate_limiter w;
     question_log := question_log w; clock := clock w + seconds * SECOND;
     events := events w ++ [EvSleep seconds] |}.

(** What the backend answers to one call of [generate_content]: an
    exception, or a response with its text (possibly empty).  These are
    the calls that return: [generate_content] is called without a
    timeout, and a call that never returns has no value here, so every
    statement about a request is about a run in which each call of the
    backend returns. *)
Inductive backend_reply : Type :=
| BackendRaises
| BackendText (text : str).

(** The answers of the collaborators during one request. *)
Record Env : Type := {
  backend : Z -> backend_reply;
  cache_fault : ResponseCache.io_fault;
  answered_in_time : bool;
  draw_image_ok : bool;
  draw_pdf_ok : bool;
  send_photo_ok : bool;
  send_document_ok : bool;
  question_log_fault : log_fault
}.

(** The status line returned to the dispatch loop. *)
Inductive status_msg : Type :=
| TooManyRequests
| CouldNotGenerate
| Generated (elapsed : Z)
| SomeOutputsMayNotHaveSent
| ErrorOccurred.

(** The text of the status lines that are fixed strings. *)
Definition fixed_text (m : status_msg) : option str :=
  match m with
  | TooManyRequests =>
      Some ([9888; 65039] ++ cps " Too many requests. Please wait a minute before sending more questions.")
  | CouldNotGenerate =>
      Some ([129300] ++ cps " I couldn't generate a solution. Please try rephrasing your question.")
  | Generated _ => None
  | SomeOutputsMayNotHaveSent =>
      Some ([9888; 65039] ++ cps " Some outputs may not have sent")
  | ErrorOccurred =>
      Some ([9888; 65039] ++ cps " An error occurred while processing your question. Please try again.")
  end.

Definition nl : str := [10].

(** The prompt of [get_gemini_response]. *)
Definition prompt_of (user_question : str) : str :=
  cps "You are an expert math tutor specializing in clear, step-by-step explanations. "
  ++ cps "Follow these guidelines strictly:" ++ nl
  ++ cps "1. Use proper mathematical notation with Unicode symbols" ++ nl
  ++ cps "2. Format clearly with spacing between steps" ++ nl
  ++ cps "3. Highlight key transformations with " ++ [8594] ++ cps " symbol" ++ nl
  ++ cps "4. Box final answers: [answer]" ++ nl
  ++ cps "5. For non-math questions, politely explain you specialize in mathematics" ++ nl
  ++ cps "6. Include brief explanations for each step" ++ nl
  ++ cps "7. Use standard mathematical terminology" ++ nl ++ nl
  ++ cps "Example format:" ++ nl
  ++ cps "Problem: Solve 2x + 5 = 15" ++ nl
  ++ cps "Step 1: Subtract 5 from both sides" ++ nl
  ++ cps "2x + 5 - 5 = 15 - 5 " ++ [8594] ++ cps " 2x = 10" ++ nl
  ++ cps "Step 2: Divide both sides by 2" ++ nl
  ++ cps "2x/2 = 10/2 " ++ [8594] ++ cps " x = 5" ++ nl
  ++ cps "Solution: [x = 5]" ++ nl ++ nl
  ++ cps "Now solve this problem:" ++ nl ++ user_question ++ nl ++ nl
  ++ cps "Provide your solution following the exact format above:".

Section Bot.

Variable unicode_alnum : Z -> bool.

(** The text [render_math_to_image] hands to the canvas. *)
Definition image_text (math_text : str) : str :=
  join_lines (wrapped_lines (preprocess_math_text unicode_alnum math_text)).

(** The text [render_math_to_pdf] hands to the page. *)
Definition pdf_text (math_text : str) : str :=
  preprocess_math_text unicode_alnum math_text.

(** The renderers re-raise what the drawing raises. *)
Definition render_math_to_image (draw_ok : bool) (math_text : str)
    : outcome artifact :=
  if draw_ok then Ret (Png (image_text math_text)) else Raise RenderError.

Definition render_math_to_pdf (draw_ok : bool) (math_text : str)
    : outcome artifact :=
  if draw_ok then Ret (Pdf (pdf_text math_text)) else Raise RenderError.

(** [response_cache.set] on the world. *)
Definition cache_set (env : Env) (w : World) (question response : str)
    : outcome World :=
  match ResponseCache.set (cache_fault env) (response_cache w)
                          question response (clock w) with
  | Ret (rc, logs) => Ret (emit_logs logs (with_response_cache rc w))
  | Raise e => Raise e
  | Diverge => Diverge
  end.

(** The [except] clause of the retry loop: [None] stands for
    [continue], after the wait. *)
Definition on_backend_error (attempt : Z) (w : World)
    : World * option (outcome (option str)) :=
  if attempt <? MAX_RETRIES - 1 then
    let wait_time := RETRY_DELAY * (attempt + 1) in
    (sleep wait_time (emit (EvLog (LogGeminiRetry (attempt + 1) wait_time)) w),
     None)
  else (emit (EvLog LogGeminiGaveUp) w, Some (Ret None)).

(** The loop [for attempt in range(MAX_RETRIES)] over the attempts that
    are left; falling out of the loop returns [None]. *)
Fixpoint attempt_loop (env : Env) (user_question : str)
    (attempts : list Z) (w : World) : World * outcome (option str) :=
  match attempts with
  | [] => (w, Ret None)
  | attempt :: rest =>
      let w := emit (EvGenerate (prompt_of user_question)) w in
      let handled (w : World) :=
        match on_backend_error attempt w with
        | (w, None) => attempt_loop env user_question rest w
        | (w, Some r) => (w, r)
        end in
      match backend env attempt with
      | BackendRaises => handled w
      | BackendText text =>
          if truthy text then
            let processed_response := preprocess_math_text unicode_alnum text in
            match cache_set env w user_question processed_response with
            | Ret w' => (w', Ret (Some (strip processed_response)))
            | Raise _ => handled w
            | Diverge => (w, Diverge)
            end
          else attempt_loop env user_question rest w
      end
  end.

Definition attempts : list Z :=
  List.map Z.of_nat (seq 0 (Z.to_nat MAX_RETRIES)).

(** [get_gemini_response] *)
Definition get_gemini_response (env : Env) (w : World) (user_question : str)
    : World * outcome (option str) :=
  match ResponseCache.get (response_cache w) user_question (clock w) with
  | Raise e => (w, Raise e)
  | Diverge => (w, Diverge)
  | Ret cached_response =>
      match cached_response with
      | Some r =>
          if truthy r then (emit (EvLog LogServingFromCache) w, Ret (Some r))
          else attempt_loop env user_question attempts w
      | None => attempt_loop env user_question attempts w
      end
  end.

(** [not response or len(response.strip()) < 10] *)
Definition unusable (response : option str) : bool :=
  match response with
  | None => true
  | Some r => negb (truthy r) || (len (strip r) <? 10)
  end.

(** The part of [process_math_question] after a usable response: both
    renderings, both deliveries, the status line and the log. *)
Definition deliver (env : Env) (w : World) (start_time : Z) (chat_id : Z)
    (user : user_info) (question_text response : str)
    : World * outcome (bool * status_msg) :=
  match render_math_to_image (draw_image_ok env) response,
        render_math_to_pdf (draw_pdf_ok env) response with
  | Ret img_buffer, Ret pdf_buffer =>
      let w := emit (EvSendPhoto chat_id img_buffer) w in
      let success := send_photo_ok env in
      let w := emit (EvSendDocument chat_id pdf_buffer) w in
      let success := success && send_document_ok env in
      let elapsed := clock w - start_time in
      let status := if success then Generated elapsed
                    else SomeOutputsMayNotHaveSent in
      let '(file, logs) :=
        save_question_to_json (question_log_fault env) (question_log w)
          (clock w) chat_id user question_text (Some response) in
      (emit_logs logs (with_question_log file w), Ret (success, status))
  | Raise e, _ => (w, Raise e)
  | _, Raise e => (w, Raise e)
  | _, _ => (w, Diverge)
  end.

(** [process_math_question].  The model client runs on a worker whose
    result is awaited for 60 seconds; [answered_in_time] says whether it
    came in time, and the wait raises otherwise.  Leaving the [with]
    block waits for the worker in either case, so that what the worker
    did is in the world when the request goes on, and a worker that does
    not finish keeps the request from returning.  The outer [except]
    turns every exception into the error status. *)
Definition process_math_question (env : Env) (w : World) (chat_id : Z)
    (user : user_info) (question_text : str)
    : World * outcome (bool * status_msg) :=
  let '(rl, allowed) :=
    RateLimiter.check_rate_limit (rate_limiter w) (user_id user) (clock w) in
  let w := with_rate_limiter rl w in
  if negb allowed then (w, Ret (false, TooManyRequests))
  else
    let w := emit (EvSendChatAction chat_id) w in
    let start_time := clock w in
    let caught (w : World) :=
      (emit (EvLog LogErrorProcessing) w, Ret (false, ErrorOccurred)) in
    match get_gemini_response env w question_text with
    | (w, Diverge) => (w, Diverge)
    | (w, Raise _) => caught w
    | (w, Ret response) =>
        if negb (answered_in_time env) then caught w
        else if unusable response then (w, Ret (false, CouldNotGenerate))
        else
          match response with
          | None => (w, Ret (false, CouldNotGenerate))
          | Some r =>
              match deliver env w start_time chat_id user question_text r with
              | (w, Raise _) => caught w
              | res => res
              end
          end
    end.

End Bot.

(** ** [escape_markdown_v2] and [send_message] *)

(** [s.startswith(prefix)] *)
Fixpoint startswith (prefix s : str) : bool :=
  match prefix, s with
  | [], _ => true
  | a :: prefix', b :: s' => (a =? b) && startswith prefix' s'
  | _ :: _, [] => false
  end.

(** [s.replace(old, new)] for a non-empty [old], from a position of [s]
    on: the leftmost occurrences, which do not overlap.  [skip] counts
    the characters of the current occurrence still to be passed over. *)
Fixpoint replace_from (old new s : str) (skip : nat) : str :=
  match s with
  | [] => []
  | x :: s' =>
      match skip with
      | S k => replace_from old new s' k
      | O =>
          if startswith old s
          then new ++ replace_from old new s' (List.length old - 1)
          else x :: replace_from old new s' 0
      end
  end.

Definition str_replace (old new s : str) : str := replace_from old new s 0.

Definition escape_chars : str := cps "_*[]()~`>#+-=|{}.!<>".

(** [escape_markdown_v2]: the backslashes first, then one pass for every
    character of [escape_chars], in order. *)
Definition escape_markdown_v2 (text : str) : str :=
  fold_left (fun text char => str_replace [char] [92; char] text)
    escape_chars (str_replace [92] [92; 92] text).

Definition MAX_MESSAGE_LENGTH : nat := 4000.

(** What [make_telegram_request] returns: [None] after a request
    exception, or the decoded answer with its ["ok"] field, if any. *)
Inductive reply : Type :=
| NoReply
| Reply (ok : option bool).

(** [response.get("ok", False)] inside a [try] whose handler returns
    [False]: without an answer the attribute lookup raises. *)
Definition reply_ok (r : reply) : bool :=
  match r with
  | Reply (Some b) => b
  | Reply None => false
  | NoReply => false
  end.

(** [create_keyboard_markup] *)
Record markup : Type := {
  keyboard : list (list str);
  resize_keyboard : bool;
  one_time_keyboard : bool;
  selective : bool
}.

Definition create_keyboard_markup : markup :=
  {| keyboard :=
       [ [ [8747] ++ cps "(2x" ++ [178] ++ cps " + 3x) dx";
           cps "Solve 2x + 5 = 15" ];
         [ cps "Area of circle r=5";
           cps "lim x" ++ [8594; 8734] ++ cps " (1 + 1/x)" ++ [739] ];
         [ cps "Factor x" ++ [178] ++ cps " - 4"; cps "Derivative of ln(x)" ];
         [ cps "/help"; cps "/about"; cps "/examples" ] ];
     resize_keyboard := true;
     one_time_keyboard := false;
     selective := true |}.

(** The payload of a [sendMessage] request (the two notification flags
    are constants). *)
Record sent_message : Type := {
  sent_chat_id : Z;
  sent_text : str;
  sent_parse_mode : str;
  sent_reply_markup : option markup;
  sent_reply_to : option Z
}.

(** [if reply_to_message_id:] keeps an identifier that is not zero. *)
Definition given_id (i : option Z) : option Z :=
  match i with
  | Some n => if n =? 0 then None else Some n
  | None => None
  end.

(** [send_message]: the requests it issues (none or one) and its
    result. *)
Definition send_message (r : reply) (chat_id : Z) (text : str)
    (reply_markup : option markup) (reply_to_message_id : option Z)
    (parse_mode : str) : list sent_message * bool :=
  if negb (truthy (strip text)) then ([], false)
  else
    let text := firstn MAX_MESSAGE_LENGTH text in
    let payload :=
      {| sent_chat_id := chat_id;
         sent_text := if str_eqb parse_mode (cps "MarkdownV2")
                      then escape_markdown_v2 text else text;
         sent_parse_mode := parse_mode;
         sent_reply_markup := reply_markup;
         sent_reply_to := given_id reply_to_message_id |} in
    ([payload], reply_ok r).

(** [get_examples_message] *)
Definition examples : list str :=
  [ [128290] ++ cps " *Algebra Examples*:";
    [8226] ++ cps " `Solve 3x + 7 = 22`";
    [8226] ++ cps " `Factor x" ++ [178] ++ cps " - 9`";
    [8226] ++ cps " `Expand (x + 2)(x - 3)`";
    [];
    [8747] ++ cps " *Calculus Examples*:";
    [8226] ++ cps " `Derivative of sin(x" ++ [178] ++ cps ")`";
    [8226] ++ cps " `Integral of e^x dx`";
    [8226] ++ cps " `lim x" ++ [8594] ++ cps "0 (sin x)/x`";
    [];
    [9651] ++ cps " *Geometry Examples*:";
    [8226] ++ cps " `Area of circle r=5`";
    [8226] ++ cps " `Volume of sphere r=3`";
    [8226] ++ cps " `Pythagorean theorem a=3 b=4`" ].

Definition get_examples_message : str :=
  escape_markdown_v2 (join_lines examples).

(** ** The dispatch loop: [process_messages] *)

Definition welcome_msg : str :=
  [128075] ++ cps " *Math Genius Bot*" ++ [10; 10]
  ++ cps "I can help with:" ++ [10]
  ++ cps "- Calculus problems" ++ [10]
  ++ cps "- Algebra equations" ++ [10]
  ++ cps "- Geometry proofs" ++ [10]
  ++ cps "- Trigonometry" ++ [10; 10]
  ++ cps "Send a math problem or try an example below!".

Definition help_msg : str :=
  [129518] ++ cps " *Help Menu*" ++ [10; 10]
  ++ cps "Send math problems like:" ++ [10; 8226]
  ++ cps " `Solve 2x + 5 = 15`" ++ [10; 8226]
  ++ cps " `Find derivative of sin(x)`" ++ [10; 8226]
  ++ cps " `Calculate " ++ [8747] ++ cps "(x" ++ [178] ++ cps " + 3x)dx`"
  ++ [10; 10]
  ++ cps "I'll provide step-by-step solutions with visual formatting.".

Definition about_msg : str :=
  [129302] ++ cps " *About This Bot*" ++ [10; 10]
  ++ cps "Version: 3.0" ++ [10]
  ++ cps "Powered by Gemini 1.5 Pro" ++ [10; 8226]
  ++ cps " Clean mathematical notation" ++ [10; 8226]
  ++ cps " Image and PDF outputs" ++ [10; 8226]
  ++ cps " Step-by-step explanations" ++ [10; 8226]
  ++ cps " Rate limited to 5 requests/minute".

Definition unknown_command_msg : str :=
  [10060] ++ cps " Unknown command. Try /help".

(** What the branch on a command passes to [send_message]. *)
Definition command_answer (text : str) : str * option markup :=
  if str_eqb text (cps "/start")
  then (escape_markdown_v2 welcome_msg, Some create_keyboard_markup)
  else if str_eqb text (cps "/help") then (escape_markdown_v2 help_msg, None)
  else if str_eqb text (cps "/about") then (escape_markdown_v2 about_msg, None)
  else if str_eqb text (cps "/examples") then (get_examples_message, None)
  else (escape_markdown_v2 unknown_command_msg, None).

(** An update of the messaging platform, with the fields the loop
    reads. *)
Record message : Type := {
  msg_chat_id : Z;
  msg_text : option str;
  msg_from : option user_info
}.

Record update : Type := {
  update_id : Z;
  upd_message : option message
}.

(** [user_info.get("id")] is truthy. *)
Definition sender (m : message) : option user_info :=
  match msg_from m with
  | Some u => if user_id u =? 0 then None else Some u
  | None => None
  end.

(** The state of the loop: the world, the cursor [offset], the
    [sendMessage] requests issued so far and the [offset] parameter of
    every [getUpdates] request. *)
Record Dispatcher : Type := {
  world : World;
  offset : option Z;
  outbox : list sent_message;
  polls : list (option Z)
}.

Definition with_world (w : World) (d : Dispatcher) : Dispatcher :=
  {| world := w; offset := offset d; outbox := outbox d; polls := polls d |}.
Definition with_offset (o : option Z) (d : Dispatcher) : Dispatcher :=
  {| world := world d; offset := o; outbox := outbox d; polls := polls d |}.
Definition post (ms : list sent_message) (d : Dispatcher) : Dispatcher :=
  {| world := world d; offset := offset d; outbox := outbox d ++ ms;
     polls := polls d |}.

(** The answers of the collaborators while one update is handled. *)
Record UpdateEnv : Type := {
  request_env : Env;
  message_reply : reply
}.

Section Dispatch.

Variable unicode_alnum : Z -> bool.

(** The decimal text of the elapsed seconds, rounded to two places, as
    the f-string prints the float. *)
Variable format_elapsed : Z -> str.

(** [status_msg] as a string. *)
Definition status_text (m : status_msg) : str :=
  match m with
  | Generated elapsed =>
      [9989] ++ cps " Generated in " ++ format_elapsed elapsed
      ++ cps "s" ++ [10] ++ cps "_Ask another question!_"
  | _ => match fixed_text m with Some t => t | None => [] end
  end.

(** The body of the loop over the updates of one answer. *)
Definition process_update (ue : UpdateEnv) (d : Dispatcher) (u : update)
    : Dispatcher * outcome unit :=
  let d := with_offset (Some (update_id u + 1)) d in
  match upd_message u with
  | None => (d, Ret tt)
  | Some m =>
      let chat_id := msg_chat_id m in
      let text := strip (match msg_text m with Some t => t | None => [] end) in
      match sender m with
      | None => (d, Ret tt)
      | Some user =>
          if negb (truthy text) then (d, Ret tt)
          else if startswith (cps "/") text then
            let '(body, reply_markup) := command_answer text in
            (post (fst (send_message (message_reply ue) chat_id body
                          reply_markup None (cps "MarkdownV2"))) d,
             Ret tt)
          else
            match process_math_question unicode_alnum (request_env ue)
                    (world d) chat_id user text with
            | (w, Ret (_, status)) =>
                (post (fst (send_message (message_reply ue) chat_id
                              (escape_markdown_v2 (status_text status))
                              None None (cps "MarkdownV2")))
                   (with_world w d),
                 Ret tt)
            | (w, Raise e) => (with_world w d, Raise e)
            | (w, Diverge) => (with_world w d, Diverge)
            end
      end
  end.

(** [for update in updates.get("result", [])] *)
Fixpoint process_updates (d : Dispatcher) (batch : list (UpdateEnv * update))
    : Dispatcher * outcome unit :=
  match batch with
  | [] => (d, Ret tt)
  | (ue, u) :: rest =>
      match process_update ue d u with
      | (d, Ret _) => process_updates d rest
      | (d, r) => (d, r)
      end
  end.

(** The [offset] parameter of [get_updates]: left out when the cursor is
    [None] or zero. *)
Definition offset_param (o : option Z) : option Z := given_id o.

(** One turn of [while True]: [answer] is what [get_updates] returns,
    [None] for an answer that is not ok.  An exception raised while the
    updates are handled ends the turn with a wait of 10 seconds.  (The
    lines the loop writes through [logger] are not part of the state.) *)
Definition poll_iteration (d : Dispatcher)
    (answer : option (list (UpdateEnv * update))) : Dispatcher * outcome unit :=
  let d := {| world := world d; offset := offset d; outbox := outbox d;
              polls := polls d ++ [offset_param (offset d)] |} in
  match answer with
  | None => (with_world (sleep 5 (world d)) d, Ret tt)
  | Some batch =>
      match process_updates d batch with
      | (d, Raise _) => (with_world (sleep 10 (world d)) d, Ret tt)
      | res => res
      end
  end.

End Dispatch.

(** * The vocabulary of the statements *)

(** The source markup tokens: a backslash opens every rule of the table,
    and a caret or an underscore followed by an opening brace opens the
    two rules applied after it. *)
Fixpoint no_pair (a b : Z) (s : str) : bool :=
  match s with
  | x :: s' =>
      negb ((x =? a) && match s' with y :: _ => y =? b | [] => false end)
      && no_pair a b s'
  | [] => true
  end.

Definition no_char (c : Z) (s : str) : bool :=
  forallb (fun x => negb (x =? c)) s.

Definition markup_free (s : str) : bool :=
  no_char 92 s && no_pair 94 123 s && no_pair 95 123 s.

Definition starts_with (c : Z) (p : pattern) : Prop :=
  exists p', p = Lit c :: p'.

(** ** Runs of the rate limiter *)

Module RateWindow.

Import RateLimiter.

Definition WINDOW : Z := 60 * SECOND.

(** The instants of the admitted calls of identity [u] in a run. *)
Fixpoint admissions (u : Z) (calls : list (Z * Z)) (oks : list bool)
    : list Z :=
  match calls, oks with
  | (v, t) :: calls', ok :: oks' =>
      if (v =? u) && ok then t :: admissions u calls' oks'
      else admissions u calls' oks'
  | _, _ => []
  end.

(** The rolling window that ends at [w]: the instants [t] with
    [w - 60s < t <= w]. *)
Definition in_window (w t : Z) : bool := (w - WINDOW <? t) && (t <=? w).

Definition count_in (w : Z) (times : list Z) : Z :=
  Z.of_nat (List.length (List.filter (in_window w) times)).

(** The clock does not run backwards between the calls of a run that
    starts at [from]. *)
Fixpoint chronological (from : Z) (calls : list (Z * Z)) : Prop :=
  match calls with
  | [] => True
  | (_, t) :: rest => from <= t /\ chronological t rest
  end.

Fixpoint end_time (from : Z) (calls : list (Z * Z)) : Z :=
  match calls with
  | [] => from
  | (_, t) :: rest => end_time t rest
  end.

(** What the limiter holds for [u] after a run whose admitted calls of
    [u] were at [H], the last call being at [T]. *)
Definition inv (u : Z) (rl : gmap Z (list Z)) (H : list Z) (T : Z) : Prop :=
  Forall (fun t => t <= T) H
  /\ match rl !! u with
     | None => H = []
     | Some l => exists T0, T0 <= T /\ l = prune T0 H
     end.

Definition bounded (H : list Z) : Prop :=
  forall w, count_in w H <= RATE_LIMIT_PER_USER.

End RateWindow.

(** ** Predicates on worlds *)

(** The lookup of the question finds nothing that counts as an answer:
    no entry, a stale entry, or an entry whose response is empty. *)
Definition cache_miss (w : World) (q : str) : Prop :=
  ResponseCache.get (response_cache w) q (clock w) = Ret None
  \/ ResponseCache.get (response_cache w) q (clock w) = Ret (Some []).

(** The rate limiter admits the request of [user] in the world [w]. *)
Definition allowed (w : World) (user : user_info) : Prop :=
  snd (RateLimiter.check_rate_limit (rate_limiter w) (user_id user) (clock w))
  = true.

(** The world in which the model client is called: the request is
    recorded by the rate limiter and the typing action is sent. *)
Definition started (w : World) (chat_id : Z) (user : user_info) : World :=
  emit (EvSendChatAction chat_id)
    (with_rate_limiter
       (fst (RateLimiter.check_rate_limit (rate_limiter w) (user_id user)
               (clock w))) w).

(** The entry [save_question_to_json] writes for a response. *)
Definition entry_of (now chat_id : Z) (user : user_info) (q r : str)
    : log_entry :=
  {| log_timestamp := now; log_chat_id := chat_id; log_user := user;
     log_question := q; log_response := logged_response (Some r);
     log_response_length := logged_length (Some r) |}.

(** The calls of the backend in a trace. *)
Definition is_generate (e : event) : bool :=
  match e with EvGenerate _ => true | _ => false end.

(** ** Concrete inputs *)

(** The cache of a process started without a cache file. *)
Definition empty_cache : ResponseCache.t := ResponseCache.init None None 0.

(** The cache after an answer to [x^{2}] was stored in the empty one. *)
Definition cache_with_answer : ResponseCache.t :=
  match ResponseCache.set ResponseCache.NoFault empty_cache
          (cps "x^{2}") (cps "the answer") 0 with
  | Ret (rc', _) => rc'
  | _ => empty_cache
  end.


(** A burst of six requests of identity 42 within five seconds, with one
    request of identity 7 in between. *)
Definition burst : list (Z * Z) :=
  [ (42, 0); (42, 1 * SECOND); (7, 1 * SECOND); (42, 2 * SECOND);
    (42, 3 * SECOND); (42, 4 * SECOND); (42, 5 * SECOND) ].

(** A world at the start of the process: nothing cached, nobody seen. *)
Definition fresh_world : World :=
  {| response_cache := empty_cache; rate_limiter := RateLimiter.init;
     question_log := None; clock := 0; events := [] |}.

(** A sender. *)
Definition alice : user_info :=
  {| user_id := 42; username := Some (cps "alice");
     first_name := Some (cps "Alice"); last_name := None |}.

(** A text long enough to count as a solution. *)
Definition good_answer : str :=
  cps "Step 1: subtract 5. Step 2: divide by 2. Solution: [x = 5]".

(** Every call of the backend raises. *)
Definition always_failing : Env :=
  {| backend := fun _ => BackendRaises;
     cache_fault := ResponseCache.NoFault;
     answered_in_time := true;
     draw_image_ok := true; draw_pdf_ok := true;
     send_photo_ok := true; send_document_ok := true;
     question_log_fault := LogNoFault |}.

(** Every call of the backend returns the empty text. *)
Definition always_empty : Env :=
  {| backend := fun _ => BackendText [];
     cache_fault := ResponseCache.NoFault;
     answered_in_time := true;
     draw_image_ok := true; draw_pdf_ok := true;
     send_photo_ok := true; send_document_ok := true;
     question_log_fault := LogNoFault |}.

(** The backend answers at once; the photo cannot be delivered. *)
Definition photo_undelivered : Env :=
  {| backend := fun _ => BackendText good_answer;
     cache_fault := ResponseCache.NoFault;
     answered_in_time := true;
     draw_image_ok := true; draw_pdf_ok := true;
     send_photo_ok := false; send_document_ok := true;
     question_log_fault := LogNoFault |}.

(** The backend answers at once and everything is delivered. *)
Definition answers_well : Env :=
  {| backend := fun _ => BackendText good_answer;
     cache_fault := ResponseCache.NoFault;
     answered_in_time := true;
     draw_image_ok := true; draw_pdf_ok := true;
     send_photo_ok := true; send_document_ok := true;
     question_log_fault := LogNoFault |}.

(** The backend answers with markup that normalizes to nothing. *)
Definition markup_only : Env :=
  {| backend := fun _ => BackendText (cps "\begin{a}");
     cache_fault := ResponseCache.NoFault;
     answered_in_time := true;
     draw_image_ok := true; draw_pdf_ok := true;
     send_photo_ok := true; send_document_ok := true;
     question_log_fault := LogNoFault |}.

(** The backend answers with two characters. *)
Definition terse : Env :=
  {| backend := fun _ => BackendText (cps "ok");
     cache_fault := ResponseCache.NoFault;
     answered_in_time := true;
     draw_image_ok := true; draw_pdf_ok := true;
     send_photo_ok := true; send_document_ok := true;
     question_log_fault := LogNoFault |}.

(** The world after the model client answered in the fresh world. *)
Definition answered_world : World :=
  fst (get_gemini_response ascii_only photo_undelivered
         (started fresh_world 1 alice) (cps "Solve 2x + 5 = 15")).

(** A question submitted twice: the backend answers the first time with
    markup only, the second time well. *)
Definition first_submission : World * outcome (bool * status_msg) :=
  process_math_question ascii_only markup_only fresh_world 1 alice
    (cps "Solve 2x + 5 = 15").

Definition second_submission : World * outcome (bool * status_msg) :=
  process_math_question ascii_only answers_well (fst first_submission) 1 alice
    (cps "Solve 2x + 5 = 15").

(** The world after the terse backend was asked in the fresh world. *)
Definition terse_world : World :=
  fst (process_math_question ascii_only terse fresh_world 1 alice
         (cps "Solve 2x + 5 = 15")).

(** ** Escaping, character by character *)

(** What [escape_markdown_v2] makes of one character: the backslash is
    doubled, [>] (listed twice in [escape_chars]) gets two backslashes,
    every other listed character one, and the rest is kept. *)
Definition escape_char (x : Z) : str :=
  if x =? 92 then [92; 92]
  else if x =? 62 then [92; 92; 62]
  else if existsb (Z.eqb x) escape_chars then [92; x]
  else [x].

(** The passes of [str.replace] that [escape_markdown_v2] makes, in
    order: what is replaced and by what. *)
Definition escape_passes : list (str * str) :=
  ([92], [92; 92]) :: List.map (fun c => ([c], [92; c])) escape_chars.

(** One pass of the loop over [escape_chars], as a character-wise map. *)
Definition escape_pass (t : str) (c : Z) : str :=
  flat_map (fun x => if x =? c then [92; c] else [x]) t.

(** Reading an escaped text back. *)
Fixpoint unescape (s : str) : str :=
  match s with
  | [] => []
  | a :: s1 =>
      if a =? 92 then
        match s1 with
        | [] => [a]
        | b :: s2 =>
            if b =? 92 then
              match s2 with
              | c :: s3 => if c =? 62 then 62 :: unescape s3
                           else 92 :: unescape s2
              | [] => [92]
              end
            else b :: unescape s2
        end
      else a :: unescape s1
  end.

(** ** Runs of the rate limiter, identity by identity *)

(** The answers a run gave to the calls of identity [u]. *)
Fixpoint answers_to (u : Z) (calls : list (Z * Z)) (oks : list bool)
    : list bool :=
  match calls, oks with
  | (v, _) :: calls', ok :: oks' =>
      if v =? u then ok :: answers_to u calls' oks'
      else answers_to u calls' oks'
  | _, _ => []
  end.

(** The calls of identity [u] alone. *)
Definition calls_of (u : Z) (calls : list (Z * Z)) : list (Z * Z) :=
  List.filter (fun c => fst c =? u) calls.

(** Every window the limiter holds has between 1 and 5 instants. *)
Definition windows_bounded (rl : gmap Z (list Z)) : Prop :=
  forall u l, rl !! u = Some l ->
    (1 <= List.length l)%nat /\ Z.of_nat (List.length l) <= RATE_LIMIT_PER_USER.

(** ** Counting in a trace *)

(** The number of calls of the backend in a trace. *)
Definition generate_calls (evs : list event) : nat :=
  List.length (List.filter is_generate evs).

(** The seconds slept in a trace. *)
Definition slept (evs : list event) : Z :=
  fold_right (fun e acc => match e with EvSleep s => s + acc | _ => acc end)
             0 evs.

(** The waits the retry loop can add up to over the attempts that are
    left. *)
Definition backoff_budget (attempts_left : list Z) : Z :=
  fold_right (fun a acc =>
                (if a <? MAX_RETRIES - 1 then RETRY_DELAY * (a + 1) else 0)
                + acc) 0 attempts_left.

(** The deliveries in a trace. *)
Definition is_delivery (e : event) : bool :=
  match e with
  | EvSendPhoto _ _ => true
  | EvSendDocument _ _ => true
  | _ => false
  end.

(** The fresh world after the burst, at the instant of its last call:
    the window of identity 42 is full. *)
Definition busy_world : World :=
  {| response_cache := empty_cache;
     rate_limiter := fst (RateLimiter.run RateLimiter.init burst);
     question_log := None; clock := 5 * SECOND; events := [] |}.

(** The backend answers well but the page cannot be drawn. *)
Definition page_not_drawn : Env :=
  {| backend := fun _ => BackendText good_answer;
     cache_fault := ResponseCache.NoFault;
     answered_in_time := true;
     draw_image_ok := true; draw_pdf_ok := false;
     send_photo_ok := true; send_document_ok := true;
     question_log_fault := LogNoFault |}.

(** The world after the first, well answered submission. *)
Definition answered_once : World :=
  fst (process_math_question ascii_only answers_well fresh_world 1 alice
         (cps "Solve 2x + 5 = 15")).

(** ** Line breaks *)

(** A character other than the line break. *)
Definition not_newline (c : Z) : bool := negb (c =? 10).

(** A text without a line break. *)
Definition no_newline (l : str) : Prop := Forall (fun c => c <> 10) l.

(** ** Updates *)

(** The text of a message as the loop reads it: absent means empty, and
    it is trimmed. *)
Definition text_of (m : message) : str :=
  strip (match msg_text m with Some t => t | None => [] end).

(** A dispatcher at the start of the process. *)
Definition fresh_dispatcher : Dispatcher :=
  {| world := fresh_world; offset := None; outbox := []; polls := [] |}.

Definition quiet : UpdateEnv :=
  {| request_env := always_failing; message_reply := Reply (Some true) |}.

(** A sender asks for help, and then a question the backend fails on. *)
Definition help_update : update :=
  {| update_id := 100;
     upd_message := Some {| msg_chat_id := 1; msg_text := Some (cps " /help ");
                            msg_from := Some alice |} |}.

Definition question_update : update :=
  {| update_id := 101;
     upd_message := Some {| msg_chat_id := 1; msg_text := Some (cps "1+1");
                            msg_from := Some alice |} |}.

(** An update without a sender. *)
Definition anonymous_update : update :=
  {| update_id := 102;
     upd_message := Some {| msg_chat_id := 1; msg_text := Some (cps "1+1");
                            msg_from := None |} |}.

(** A formatting that prints every elapsed time as [0.0]; it stands for
    the float formatting where a concrete one is needed. *)
Definition plain_elapsed : Z -> str := fun _ => cps "0.0".

(** ** What the sender of a question is sent *)

(** The photos and documents sent so far. *)
Definition deliveries (w : World) : list event :=
  List.filter is_delivery (events w).

(** The [sendMessage] request by which the loop passes a status line
    on. *)
Definition status_request (chat_id : Z) (text : str) : sent_message :=
  {| sent_chat_id := chat_id; sent_text := text;
     sent_parse_mode := cps "MarkdownV2";
     sent_reply_markup := None; sent_reply_to := None |}.

(** The status lines "I couldn't generate a solution" and "An error
    occurred" as they leave the process: escaped twice, each full stop
    stands behind three backslashes. *)
Definition could_not_generate_sent : str :=
  [129300] ++ cps " I couldn't generate a solution\\\. Please try rephrasing your question\\\.".

Definition error_occurred_sent : str :=
  [9888; 65039] ++ cps " An error occurred while processing your question\\\. Please try again\\\.".

(** Every call of the backend raises, and so late that the wait of 60
    seconds for the model client has run out before the third failure. *)
Definition slow_and_failing : Env :=
  {| backend := fun _ => BackendRaises;
     cache_fault := ResponseCache.NoFault;
     answered_in_time := false;
     draw_image_ok := true; draw_pdf_ok := true;
     send_photo_ok := true; send_document_ok := true;
     question_log_fault := LogNoFault |}.

Definition too_late : UpdateEnv :=
  {| request_env := slow_and_failing; message_reply := Reply (Some true) |}.

(** The backend answers every call with an empty text. *)
Definition no_text : UpdateEnv :=
  {| request_env := always_empty; message_reply := Reply (Some true) |}.

(** The fresh world while the lock of the cache is held. *)
Definition locked_world : World :=
  {| response_cache := ResponseCache.with_lock true empty_cache;
     rate_limiter := RateLimiter.init;
     question_log := None; clock := 0; events := [] |}.

(** * Properties *)

(** ** The text normalizer *)

Section NormalizerFacts.

Variable unicode_alnum : Z -> bool.

Lemma sub_from_absent_char c p t s prev :
  no_char c s = true ->
  sub_from unicode_alnum (Lit c :: p) t prev s 0 = s.
Proof.
  revert prev. induction s as [|x s IH]; intros prev H; [reflexivity|].
  simpl in H. apply andb_prop in H as [Hx Hs].
  apply negb_true_iff in Hx. cbn [sub_from match_here]. rewrite Hx.
  f_equal. now apply IH.
Qed.

Lemma sub_from_absent_pair a b p t s prev :
  no_pair a b s = true ->
  sub_from unicode_alnum (Lit a :: Lit b :: p) t prev s 0 = s.
Proof.
  revert prev. induction s as [|x s IH]; intros prev H; [reflexivity|].
  cbn [no_pair] in H. apply andb_prop in H as [Hx Hs].
  apply negb_true_iff in Hx.
  assert (Hm : match_here unicode_alnum (Lit a :: Lit b :: p) prev (x :: s)
               = None).
  { cbn [match_here]. destruct (x =? a); [|reflexivity].
    destruct s as [|y s']; [reflexivity|].
    simpl in Hx. rewrite Hx. reflexivity. }
  cbn [sub_from]. rewrite Hm. f_equal. now apply IH.
Qed.

Lemma apply_rule_absent_char c rule s :
  starts_with c (fst rule) -> no_char c s = true ->
  apply_rule unicode_alnum s rule = s.
Proof.
  intros [p' Hp] H. unfold apply_rule, re_sub. rewrite Hp.
  now apply sub_from_absent_char.
Qed.

Lemma fold_rules_absent_char c rules s :
  Forall (fun rule => starts_with c (fst rule)) rules ->
  no_char c s = true ->
  fold_left (apply_rule unicode_alnum) rules s = s.
Proof.
  induction 1 as [|rule rules Hr _ IH]; intros H; [reflexivity|].
  cbn [fold_left]. rewrite (apply_rule_absent_char c) by assumption.
  now apply IH.
Qed.

Lemma replacements_start_with_backslash :
  Forall (fun rule => starts_with 92 (fst rule)) replacements.
Proof.
  unfold replacements.
  repeat (constructor; [eexists; reflexivity|]). constructor.
Qed.

(** On a text without markup tokens the normalizer only trims. *)
Lemma preprocess_markup_free s :
  markup_free s = true -> preprocess_math_text unicode_alnum s = strip s.
Proof.
  unfold markup_free. intros H.
  apply andb_prop in H as [H Hsub]. apply andb_prop in H as [Hbs Hexp].
  unfold preprocess_math_text.
  rewrite (fold_rules_absent_char 92)
    by auto using replacements_start_with_backslash.
  unfold apply_rule, re_sub, exponent_rule, subscript_rule. cbn [fst snd].
  change (braced "^") with
    (Lit 94 :: Lit 123 :: [GroupNotStar 125; Lit 125]).
  change (braced "_") with
    (Lit 95 :: Lit 123 :: [GroupNotStar 125; Lit 125]).
  rewrite (sub_from_absent_pair 94 123) by assumption.
  rewrite (sub_from_absent_pair 95 123) by assumption.
  reflexivity.
Qed.

End NormalizerFacts.

Lemma lstrip_head s :
  match s with x :: _ => is_space x = false | [] => True end -> lstrip s = s.
Proof. destruct s as [|x s]; simpl; [reflexivity|]. now intros ->. Qed.

Lemma lstrip_spec s :
  match lstrip s with x :: _ => is_space x = false | [] => True end.
Proof.
  induction s as [|x s IH]; simpl; [exact I|].
  destruct (is_space x) eqn:E; [exact IH | exact E].
Qed.

Lemma lstrip_idem s : lstrip (lstrip s) = lstrip s.
Proof. apply lstrip_head, lstrip_spec. Qed.

Lemma lstrip_snoc s x :
  is_space x = false -> lstrip (s ++ [x]) = lstrip s ++ [x].
Proof.
  intros Hx. induction s as [|y s IH]; simpl.
  - now rewrite Hx.
  - destruct (is_space y); [exact IH | reflexivity].
Qed.

Lemma rstrip_keeps_head s :
  match s with x :: _ => is_space x = false | [] => True end ->
  match rstrip s with x :: _ => is_space x = false | [] => True end.
Proof.
  destruct s as [|x s]; [intros _; exact I|]. intros Hx.
  unfold rstrip. cbn [rev]. rewrite lstrip_snoc by assumption.
  rewrite rev_app_distr. simpl. exact Hx.
Qed.

Lemma strip_idem s : strip (strip s) = strip s.
Proof.
  unfold strip.
  rewrite (lstrip_head (rstrip (lstrip s)))
    by apply rstrip_keeps_head, lstrip_spec.
  unfold rstrip. rewrite rev_involutive, lstrip_idem. reflexivity.
Qed.

Lemma preprocess_is_stripped alnum s :
  strip (preprocess_math_text alnum s) = preprocess_math_text alnum s.
Proof. unfold preprocess_math_text. apply strip_idem. Qed.

(** Whatever the classification of the characters beyond ASCII, a second
    pass over the normalized form of a doubly braced exponent changes
    it. *)
Lemma preprocess_twice_differs alnum :
  preprocess_math_text alnum (cps "^{{a}}") = cps "^{a}"
  /\ preprocess_math_text alnum (preprocess_math_text alnum (cps "^{{a}}"))
     = cps "^a".
Proof. split; reflexivity. Qed.

(** C1 (as stated, refuted): the normalizer is not idempotent on every
    input.  The first pass turns the text [^{{a}}] into [^{a}], which
    still holds markup; the second pass turns that into [^a]. *)
Lemma preprocess_not_idempotent :
  preprocess_math_text ascii_only
    (preprocess_math_text ascii_only (cps "^{{a}}"))
  <> preprocess_math_text ascii_only (cps "^{{a}}").
Proof.
  destruct (preprocess_twice_differs ascii_only) as [-> ->]. discriminate.
Qed.

(** C1 (amended): the normalizer is idempotent on its own output whenever
    that output no longer contains the source markup tokens (no backslash,
    and no caret or underscore directly followed by an opening brace):
    normalizing it again yields the same text. *)
Theorem preprocess_idempotent_without_markup alnum (s : str) :
  markup_free (preprocess_math_text alnum s) = true ->
  preprocess_math_text alnum (preprocess_math_text alnum s)
  = preprocess_math_text alnum s.
Proof.
  intros H. rewrite preprocess_markup_free by assumption.
  apply preprocess_is_stripped.
Qed.

Lemma preprocess_idempotent_without_markup_witness :
  markup_free
    (preprocess_math_text ascii_only (cps "\frac{a}{b} \times x^{2}")) = true
  /\ preprocess_math_text ascii_only (cps "\frac{a}{b} \times x^{2}")
     = cps "a/b " ++ [215] ++ cps " x^2"
  /\ preprocess_math_text ascii_only
       (preprocess_math_text ascii_only (cps "\frac{a}{b} \times x^{2}"))
     = preprocess_math_text ascii_only (cps "\frac{a}{b} \times x^{2}").
Proof.
  split; [reflexivity|]. split; [reflexivity|].
  apply (preprocess_idempotent_without_markup ascii_only
           (cps "\frac{a}{b} \times x^{2}")).
  reflexivity.
Defined.

(** ** The response cache *)

Section CacheFacts.

Import ResponseCache.

Lemma fresh_within now e :
  fresh now e = true <-> now - timestamp e < CACHE_EXPIRY_DAYS * DAY.
Proof.
  unfold fresh, days_between. rewrite Z.ltb_lt.
  assert (HD : 0 < DAY) by (unfold DAY, SECOND; lia).
  split; intros H.
  - destruct (Z_lt_ge_dec (now - timestamp e) (CACHE_EXPIRY_DAYS * DAY))
      as [|Hge]; [assumption|].
    assert (CACHE_EXPIRY_DAYS <= (now - timestamp e) / DAY)
      by (apply Z.div_le_lower_bound; lia).
    lia.
  - apply Z.div_lt_upper_bound; lia.
Qed.

Lemma fresh_expired now e :
  fresh now e = false <-> CACHE_EXPIRY_DAYS * DAY <= now - timestamp e.
Proof.
  rewrite <- not_true_iff_false, fresh_within. lia.
Qed.

Lemma save_cache_steps_last fault rc :
  let rc' := List.last (fst (save_cache_steps fault rc)) rc in
  cache rc' = cache rc /\ lock rc' = false
  /\ (fault = NoFault -> cache_file rc' = Some (Dump (cache rc))
                         /\ temp_file rc' = None)
  /\ (fault <> NoFault -> cache_file rc' = cache_file rc).
Proof. destruct fault; cbn; intuition congruence. Qed.

Lemma save_cache_returns fault rc :
  lock rc = false ->
  save_cache fault rc
  = Ret (List.last (fst (save_cache_steps fault rc)) rc,
         snd (save_cache_steps fault rc)).
Proof.
  intros Hl. unfold save_cache. rewrite Hl.
  destruct (save_cache_steps fault rc). reflexivity.
Qed.

(** What [set] leaves in memory, whatever the file system answers. *)
Lemma set_returns fault rc q r now h :
  lock rc = false -> _hash_question q = Some h ->
  exists rc' logs,
    set fault rc q r now = Ret (rc', logs)
    /\ cache rc' = <[h := {| response := r; timestamp := now |}]> (cache rc)
    /\ lock rc' = false.
Proof.
  intros Hl Hh. unfold set. rewrite Hh.
  rewrite save_cache_returns by exact Hl.
  eexists _, _. split; [reflexivity|].
  pose proof (save_cache_steps_last fault
    (with_cache (<[h := {| response := r; timestamp := now |}]> (cache rc))
                rc)) as (Hc & Hlk & _).
  split; [exact Hc | exact Hlk].
Qed.

Lemma set_inv fault rc q r now rc' logs :
  set fault rc q r now = Ret (rc', logs) ->
  exists h, _hash_question q = Some h
    /\ cache rc' = <[h := {| response := r; timestamp := now |}]> (cache rc).
Proof.
  unfold set, save_cache. destruct (_hash_question q) as [h|]; [|discriminate].
  cbn [lock with_cache]. destruct (lock rc); [discriminate|].
  destruct (save_cache_steps _ _) as [states logs'] eqn:E.
  intros [= <- <-]. exists h. split; [reflexivity|].
  pose proof (save_cache_steps_last fault
    (with_cache (<[h := {| response := r; timestamp := now |}]> (cache rc))
                rc)) as (Hc & _).
  rewrite E in Hc. exact Hc.
Qed.

Lemma get_entry rc q now h e :
  _hash_question q = Some h -> cache rc !! h = Some e ->
  get rc q now = Ret (if fresh now e then Some (response e) else None).
Proof.
  intros Hh He. unfold get. rewrite Hh, He. now destruct (fresh now e).
Qed.

Lemma get_absent rc q now h :
  _hash_question q = Some h -> cache rc !! h = None ->
  get rc q now = Ret None.
Proof. intros Hh He. unfold get. rewrite Hh, He. reflexivity. Qed.

Lemma load_cache_lookup c now h :
  _load_cache (Some (Dump c)) now !! h
  = match c !! h with
    | Some e => if fresh now e then Some e else None
    | None => None
    end.
Proof.
  unfold _load_cache. destruct (c !! h) as [e|] eqn:E.
  - destruct (fresh now e) eqn:F.
    + apply map_lookup_filter_Some. split; [exact E | exact F].
    + apply map_lookup_filter_None. right. intros x Hx.
      rewrite E in Hx. injection Hx as <-. cbn. congruence.
  - apply map_lookup_filter_None. left. exact E.
Qed.

End CacheFacts.

Lemma get_some_inv rc q now r :
  ResponseCache.get rc q now = Ret (Some r) ->
  exists h e,
    ResponseCache._hash_question q = Some h
    /\ ResponseCache.cache rc !! h = Some e
    /\ ResponseCache.response e = r
    /\ now - ResponseCache.timestamp e < CACHE_EXPIRY_DAYS * DAY.
Proof.
  unfold ResponseCache.get.
  destruct (ResponseCache._hash_question q) as [h|]; [|discriminate].
  destruct (ResponseCache.cache rc !! h) as [e|] eqn:He; [|discriminate].
  destruct (ResponseCache.fresh now e) eqn:F; [|discriminate].
  intros [= <-]. exists h, e. repeat split; try assumption.
  now apply fresh_within.
Qed.

(** C2: for every question [q] (one that [_hash_question] can encode) and
    response [r], [set(q, r)] returns and a [get(q)] that follows at once
    returns [r]; a later [get(q)] returns [r] as long as the age of the
    entry is below 7 days, and from 7 days on it reports not-found while
    the entry stays in the dictionary, which only a reload drops.  In any
    state of the cache, [get] returns a response only if it is the one
    stored under the key of the question and younger than 7 days. *)
Theorem cache_set_get_expiry fault rc (q r : str) (now : Z) (h : str) :
  ResponseCache.lock rc = false ->
  ResponseCache._hash_question q = Some h ->
  (exists rc' logs,
     ResponseCache.set fault rc q r now = Ret (rc', logs)
     /\ ResponseCache.get rc' q now = Ret (Some r)
     /\ (forall later, later - now < CACHE_EXPIRY_DAYS * DAY ->
           ResponseCache.get rc' q later = Ret (Some r))
     /\ (forall later, CACHE_EXPIRY_DAYS * DAY <= later - now ->
           ResponseCache.get rc' q later = Ret None
           /\ ResponseCache.cache rc' !! h
              = Some {| ResponseCache.response := r;
                        ResponseCache.timestamp := now |}
           /\ ResponseCache._load_cache
                (Some (ResponseCache.Dump (ResponseCache.cache rc'))) later
                !! h
              = None))
  /\ (forall rc0 q0 now0 r0,
        ResponseCache.get rc0 q0 now0 = Ret (Some r0) ->
        exists h0 e,
          ResponseCache._hash_question q0 = Some h0
          /\ ResponseCache.cache rc0 !! h0 = Some e
          /\ ResponseCache.response e = r0
          /\ now0 - ResponseCache.timestamp e < CACHE_EXPIRY_DAYS * DAY).
Proof.
  intros Hl Hh. split; [|exact get_some_inv].
  destruct (set_returns fault rc q r now h Hl Hh) as (rc' & logs & Hs & Hc & _).
  exists rc', logs. split; [exact Hs|].
  assert (He : ResponseCache.cache rc' !! h
               = Some {| ResponseCache.response := r;
                         ResponseCache.timestamp := now |})
    by (rewrite Hc; apply lookup_insert_eq).
  assert (Hfresh : forall later, later - now < CACHE_EXPIRY_DAYS * DAY ->
            ResponseCache.get rc' q later = Ret (Some r)).
  { intros later Hlt. rewrite (get_entry rc' q later h _ Hh He).
    destruct (ResponseCache.fresh later _) eqn:F; [reflexivity|].
    apply fresh_expired in F. cbn in F. lia. }
  split; [apply Hfresh; unfold CACHE_EXPIRY_DAYS, DAY, SECOND; lia|].
  split; [exact Hfresh|].
  intros later Hge.
  assert (F : ResponseCache.fresh later
                {| ResponseCache.response := r;
                   ResponseCache.timestamp := now |} = false)
    by (apply fresh_expired; cbn; lia).
  split; [|split].
  - rewrite (get_entry rc' q later h _ Hh He), F. reflexivity.
  - exact He.
  - rewrite load_cache_lookup, He, F. reflexivity.
Qed.

Lemma cache_set_get_expiry_witness :
  ResponseCache.lock empty_cache = false
  /\ ResponseCache._hash_question (cps "Solve 2x + 5 = 15")
     = Some (cps "cc9070d86677c15fa53c790e5b9cc634")
  /\ exists rc' logs,
       ResponseCache.set ResponseCache.NoFault empty_cache
         (cps "Solve 2x + 5 = 15") (cps "x = 5") 0 = Ret (rc', logs)
       /\ ResponseCache.get rc' (cps "Solve 2x + 5 = 15") 0
          = Ret (Some (cps "x = 5"))
       /\ ResponseCache.get rc' (cps "Solve 2x + 5 = 15")
            (CACHE_EXPIRY_DAYS * DAY) = Ret None.
Proof.
  assert (Hh : ResponseCache._hash_question (cps "Solve 2x + 5 = 15")
               = Some (cps "cc9070d86677c15fa53c790e5b9cc634"))
    by (vm_compute; reflexivity).
  split; [reflexivity|]. split; [exact Hh|].
  destruct (cache_set_get_expiry ResponseCache.NoFault empty_cache
              (cps "Solve 2x + 5 = 15") (cps "x = 5") 0
              (cps "cc9070d86677c15fa53c790e5b9cc634") eq_refl Hh)
    as [(rc' & logs & Hs & Hg & _ & Hstale) _].
  exists rc', logs. split; [exact Hs|]. split; [exact Hg|].
  apply Hstale. lia.
Defined.

(** C3 (as stated, refuted): the key is not computed from the normalized
    question.  The questions [x^{2}] and [x^2] normalize to the same text
    but have different keys, so an answer stored for the first is not
    found for the second. *)
Lemma cache_key_not_normalized :
  preprocess_math_text ascii_only (cps "x^{2}")
  = preprocess_math_text ascii_only (cps "x^2")
  /\ ResponseCache._hash_question (cps "x^{2}")
     = Some (cps "c66452631491acdbf8e5ed69dfd19681")
  /\ ResponseCache._hash_question (cps "x^2")
     = Some (cps "32f5240d0dbf2ccbe75ef7f8ef2015e0")
  /\ match ResponseCache.set ResponseCache.NoFault empty_cache
             (cps "x^{2}") (cps "the answer") 0 with
     | Ret (rc', _) =>
         ResponseCache.get rc' (cps "x^{2}") 0 = Ret (Some (cps "the answer"))
         /\ ResponseCache.get rc' (cps "x^2") 0 = Ret None
     | _ => False
     end.
Proof. vm_compute. repeat split; reflexivity. Qed.

(** C3 (amended): cache entries are keyed by the MD5 digest of the UTF-8
    encoding of the question string as it is passed in, without
    normalization: after [set(q1, r)], a [get(q2)] addresses the entry
    just written exactly when [q2] has the digest of [q1] (as every
    question equal to [q1] does), and sees the cache as it was before
    otherwise. *)
Theorem cache_keyed_by_raw_question fault rc (q1 q2 r : str) (now : Z)
    rc' logs :
  ResponseCache.set fault rc q1 r now = Ret (rc', logs) ->
  ResponseCache.get rc' q1 now = Ret (Some r)
  /\ (ResponseCache._hash_question q2 = ResponseCache._hash_question q1 ->
      ResponseCache.get rc' q2 now = Ret (Some r))
  /\ (ResponseCache._hash_question q2 <> ResponseCache._hash_question q1 ->
      ResponseCache.get rc' q2 now = ResponseCache.get rc q2 now).
Proof.
  intros Hs. destruct (set_inv _ _ _ _ _ _ _ Hs) as (h & Hh & Hc).
  assert (Hsame : forall q, ResponseCache._hash_question q = Some h ->
            ResponseCache.get rc' q now = Ret (Some r)).
  { intros q Hq. unfold ResponseCache.get. rewrite Hq, Hc, lookup_insert_eq.
    assert (F : ResponseCache.fresh now
                  {| ResponseCache.response := r;
                     ResponseCache.timestamp := now |} = true)
      by (apply fresh_within; cbn; unfold CACHE_EXPIRY_DAYS, DAY, SECOND; lia).
    rewrite F. reflexivity. }
  split; [now apply Hsame|]. split.
  - intros E. apply Hsame. congruence.
  - intros NE. unfold ResponseCache.get.
    destruct (ResponseCache._hash_question q2) as [h2|]; [|reflexivity].
    rewrite Hc, lookup_insert_ne by congruence. reflexivity.
Qed.

Lemma cache_keyed_by_raw_question_witness :
  ResponseCache.set ResponseCache.NoFault empty_cache
    (cps "x^{2}") (cps "the answer") 0 = Ret (cache_with_answer, [])
  /\ ResponseCache.get cache_with_answer (cps "x^{2}") 0
     = Ret (Some (cps "the answer")).
Proof.
  assert (H : ResponseCache.set ResponseCache.NoFault empty_cache
                (cps "x^{2}") (cps "the answer") 0
              = Ret (cache_with_answer, []))
    by (vm_compute; reflexivity).
  split; [exact H|].
  exact (proj1 (cache_keyed_by_raw_question ResponseCache.NoFault empty_cache
                  (cps "x^{2}") (cps "x^2") (cps "the answer") 0
                  cache_with_answer [] H)).
Defined.

(** ** Persistence of the cache *)



(** ** The rate limiter *)

Module RateLimiterFacts.

Import RateLimiter RateWindow.

(** [check_rate_limit] in one equation: the first call of an identity
    is the case of an empty window. *)
Lemma check_rate_limit_spec rl user_id now :
  check_rate_limit rl user_id now
  = let kept := match rl !! user_id with
                | Some requests => prune now requests
                | None => []
                end in
    if RATE_LIMIT_PER_USER <=? Z.of_nat (List.length kept)
    then (<[user_id := kept]> rl, false)
    else (<[user_id := kept ++ [now]]> rl, true).
Proof.
  unfold check_rate_limit. destruct (rl !! user_id) as [l|]; cbn zeta.
  - destruct (_ <=? _); [reflexivity|]. now rewrite insert_insert_eq.
  - reflexivity.
Qed.

Lemma prune_prune now T0 l :
  T0 <= now -> prune now (prune T0 l) = prune now l.
Proof.
  intros Hle. unfold prune. induction l as [|t l IH]; [reflexivity|].
  cbn [List.filter].
  destruct (T0 - t <? 60 * SECOND) eqn:E0;
    destruct (now - t <? 60 * SECOND) eqn:E1; cbn [List.filter];
    rewrite ?E1, ?IH; try reflexivity.
  apply Z.ltb_lt in E1. apply Z.ltb_ge in E0. lia.
Qed.

Lemma prune_snoc now l : prune now (l ++ [now]) = prune now l ++ [now].
Proof.
  unfold prune. rewrite List.filter_app. cbn [List.filter].
  replace (now - now <? 60 * SECOND) with true; [reflexivity|].
  symmetry. apply Z.ltb_lt. unfold SECOND. lia.
Qed.

Lemma count_in_prune now l :
  Forall (fun t => t <= now) l ->
  count_in now l = Z.of_nat (List.length (prune now l)).
Proof.
  intros H. unfold count_in, prune. do 2 f_equal.
  induction H as [|t l Ht _ IH]; [reflexivity|]. cbn [List.filter].
  rewrite IH. unfold in_window, WINDOW.
  replace (t <=? now) with true by (symmetry; now apply Z.leb_le).
  rewrite andb_true_r.
  destruct (now - 60 * SECOND <? t) eqn:A;
    destruct (now - t <? 60 * SECOND) eqn:B; try reflexivity;
    rewrite ?Z.ltb_lt, ?Z.ltb_ge in *; lia.
Qed.

Lemma count_in_le_prune w now l :
  now <= w -> Forall (fun t => t <= now) l ->
  count_in w l <= Z.of_nat (List.length (prune now l)).
Proof.
  intros Hw H. unfold count_in, prune. apply inj_le.
  induction H as [|t l Ht _ IH]; [reflexivity|]. cbn [List.filter].
  destruct (in_window w t) eqn:A.
  - unfold in_window, WINDOW in A. apply andb_prop in A as [A _].
    apply Z.ltb_lt in A.
    replace (now - t <? 60 * SECOND) with true
      by (symmetry; apply Z.ltb_lt; lia).
    cbn [List.length]. lia.
  - destruct (now - t <? 60 * SECOND); cbn [List.length]; lia.
Qed.

Lemma count_in_snoc w l t :
  count_in w (l ++ [t]) = count_in w l + (if in_window w t then 1 else 0).
Proof.
  unfold count_in. rewrite List.filter_app, List.length_app. cbn [List.filter].
  destruct (in_window w t); cbn [List.length]; lia.
Qed.

Section OneIdentity.

Variable u : Z.

Lemma inv_kept rl H T now :
  inv u rl H T -> T <= now ->
  match rl !! u with
  | Some requests => prune now requests
  | None => []
  end = prune now H.
Proof.
  intros [_ Hl] Hle. destruct (rl !! u) as [l|].
  - destruct Hl as (T0 & H0 & ->). apply prune_prune. lia.
  - now subst H.
Qed.

Lemma inv_answer rl H T now :
  inv u rl H T -> T <= now ->
  snd (check_rate_limit rl u now)
  = (count_in now H <? RATE_LIMIT_PER_USER).
Proof.
  intros Hi Hle. rewrite check_rate_limit_spec. cbn zeta.
  rewrite (inv_kept rl H T now Hi Hle).
  rewrite count_in_prune
    by (eapply List.Forall_impl; [|exact (proj1 Hi)]; cbn; intros; lia).
  destruct (_ <=? _) eqn:E; cbn [snd]; symmetry.
  - apply Z.ltb_ge. now apply Z.leb_le.
  - apply Z.ltb_lt. now apply Z.leb_gt.
Qed.

Lemma inv_step rl H T v now :
  inv u rl H T -> bounded H -> T <= now ->
  let res := check_rate_limit rl v now in
  let H' := H ++ (if (v =? u) && snd res then [now] else []) in
  inv u (fst res) H' now /\ bounded H'.
Proof.
  intros Hi Hb Hle res H'.
  assert (HF : Forall (fun t => t <= now) H)
    by (eapply List.Forall_impl; [|exact (proj1 Hi)]; cbn; intros; lia).
  destruct (Z.eqb_spec v u) as [->|Hne].
  - subst res H'. rewrite check_rate_limit_spec. cbn zeta.
    rewrite (inv_kept rl H T now Hi Hle).
    destruct (_ <=? _) eqn:E; cbn [fst snd andb].
    + rewrite app_nil_r. split; [|exact Hb].
      split; [exact HF|]. rewrite lookup_insert_eq.
      exists now. split; [lia | reflexivity].
    + apply Z.leb_gt in E. split.
      * split; [apply Forall_app; split; [exact HF|]; repeat constructor;
                lia|].
        rewrite lookup_insert_eq. exists now. split; [lia|].
        symmetry. apply prune_snoc.
      * intros w. rewrite count_in_snoc.
        destruct (in_window w now) eqn:W.
        -- unfold in_window in W. apply andb_prop in W as [_ W].
           apply Z.leb_le in W.
           pose proof (count_in_le_prune w now H W HF). lia.
        -- specialize (Hb w). lia.
  - subst res H'. cbn [andb]. rewrite app_nil_r. split; [|exact Hb].
    split; [exact HF|].
    assert (Hsame : fst (check_rate_limit rl v now) !! u = rl !! u).
    { rewrite check_rate_limit_spec. cbn zeta.
      destruct (_ <=? _); cbn [fst]; now rewrite lookup_insert_ne. }
    rewrite Hsame. destruct Hi as [_ Hl].
    destruct (rl !! u) as [l|]; [|exact Hl].
    destruct Hl as (T0 & H0 & ->). exists T0. split; [lia | reflexivity].
Qed.

Lemma run_cons rl v now rest :
  run rl ((v, now) :: rest)
  = (fst (run (fst (check_rate_limit rl v now)) rest),
     snd (check_rate_limit rl v now)
     :: snd (run (fst (check_rate_limit rl v now)) rest)).
Proof.
  cbn [run]. destruct (check_rate_limit rl v now) as [rl1 ok].
  cbn [fst snd]. now destruct (run rl1 rest).
Qed.

Lemma inv_run calls : forall rl H T,
  inv u rl H T -> bounded H -> chronological T calls ->
  let H' := H ++ admissions u calls (snd (run rl calls)) in
  inv u (fst (run rl calls)) H' (end_time T calls) /\ bounded H'.
Proof.
  induction calls as [|[v now] rest IH]; intros rl H T Hi Hb Hc.
  - cbn. rewrite app_nil_r. now split.
  - destruct Hc as [Hle Hc]. rewrite run_cons. cbn [fst snd admissions].
    destruct (inv_step rl H T v now Hi Hb Hle) as [Hi1 Hb1].
    cbn zeta in Hi1, Hb1.
    specialize (IH _ _ _ Hi1 Hb1 Hc). cbn zeta in IH. cbn [end_time].
    destruct ((v =? u) && snd (check_rate_limit rl v now));
      [rewrite <- app_assoc in IH; exact IH|].
    rewrite app_nil_r in IH. exact IH.
Qed.

Lemma inv_init T : inv u init [] T /\ bounded [].
Proof.
  split; [split; [constructor | reflexivity]|].
  intros w. unfold count_in, RATE_LIMIT_PER_USER. cbn. lia.
Qed.

End OneIdentity.

End RateLimiterFacts.

(** C4: [check_rate_limit] prunes the instants that are 60 seconds old or
    older, rejects without recording when the pruned window holds the
    quota of 5 or more, and otherwise records the instant and admits.  In
    every run from the start of the process whose clock does not run
    backwards, no identity has more than 5 admissions in any rolling
    60-second window; a call is admitted exactly when fewer than 5
    admissions of its identity lie in the window that ends with it, so
    the sixth in a window is rejected and admissions resume once the
    window has elapsed. *)
Theorem rate_limiter_sliding_window (from : Z) (calls : list (Z * Z))
    (u now : Z) :
  RateWindow.chronological from calls ->
  RateWindow.end_time from calls <= now ->
  let rl := fst (RateLimiter.run RateLimiter.init calls) in
  let H := RateWindow.admissions u calls
             (snd (RateLimiter.run RateLimiter.init calls)) in
  (forall w, RateWindow.count_in w H <= RATE_LIMIT_PER_USER)
  /\ (snd (RateLimiter.check_rate_limit rl u now) = true
      <-> RateWindow.count_in now H < RATE_LIMIT_PER_USER)
  /\ ((forall t, In t H -> 60 * SECOND <= now - t) ->
      snd (RateLimiter.check_rate_limit rl u now) = true)
  /\ (forall rl0 v t,
        RateLimiter.check_rate_limit rl0 v t
        = let kept := match rl0 !! v with
                      | Some requests =>
                          List.filter (fun t0 => t - t0 <? 60 * SECOND) requests
                      | None => []
                      end in
          if RATE_LIMIT_PER_USER <=? Z.of_nat (List.length kept)
          then (<[v := kept]> rl0, false)
          else (<[v := kept ++ [t]]> rl0, true)).
Proof.
  intros Hc Hend rl H.
  destruct (RateLimiterFacts.inv_init u from) as [Hi0 Hb0].
  destruct (RateLimiterFacts.inv_run u calls _ _ _ Hi0 Hb0 Hc) as [Hi Hb].
  cbn zeta in Hi, Hb. rewrite app_nil_l in Hi, Hb. fold rl H in Hi, Hb.
  pose proof (RateLimiterFacts.inv_answer u rl H _ now Hi Hend) as Ha.
  split; [exact Hb|]. split; [|split].
  - rewrite Ha. apply Z.ltb_lt.
  - intros Hold. rewrite Ha. apply Z.ltb_lt.
    replace (RateWindow.count_in now H) with 0;
      [unfold RATE_LIMIT_PER_USER; lia|].
    unfold RateWindow.count_in.
    replace (List.filter (RateWindow.in_window now) H) with (@nil Z);
      [reflexivity|].
    symmetry. clear -Hold. induction H as [|t H IH]; [reflexivity|].
    cbn [List.filter].
    assert (Ht : 60 * SECOND <= now - t) by (apply Hold; now left).
    replace (RateWindow.in_window now t) with false.
    + apply IH. intros t' Hin. apply Hold. now right.
    + symmetry. unfold RateWindow.in_window, RateWindow.WINDOW.
      apply andb_false_iff. left. apply Z.ltb_ge. lia.
  - intros rl0 v t. apply RateLimiterFacts.check_rate_limit_spec.
Qed.

Lemma rate_limiter_sliding_window_witness :
  RateWindow.chronological 0 burst
  /\ RateWindow.end_time 0 burst <= 61 * SECOND
  /\ snd (RateLimiter.run RateLimiter.init burst)
     = [true; true; true; true; true; true; false]
  /\ (forall w,
        RateWindow.count_in w
          (RateWindow.admissions 42 burst
             (snd (RateLimiter.run RateLimiter.init burst)))
        <= RATE_LIMIT_PER_USER)
  /\ snd (RateLimiter.check_rate_limit
            (fst (RateLimiter.run RateLimiter.init burst)) 42 (61 * SECOND))
     = true.
Proof.
  assert (Hc : RateWindow.chronological 0 burst)
    by (cbn; unfold SECOND; lia).
  assert (He : RateWindow.end_time 0 burst <= 61 * SECOND)
    by (cbn; unfold SECOND; lia).
  split; [exact Hc|]. split; [exact He|]. split; [vm_compute; reflexivity|].
  destruct (rate_limiter_sliding_window 0 burst 42 (61 * SECOND) Hc He)
    as (Hb & Hiff & _).
  split; [exact Hb|]. apply Hiff. vm_compute. reflexivity.
Defined.

(** ** The renderers *)

Lemma slice_length s i j : (List.length (slice s i j) <= j - i)%nat.
Proof. unfold slice. rewrite List.length_firstn. lia. Qed.

Lemma wrap_line_width line :
  Forall (fun l => (List.length l <= WRAP_WIDTH)%nat) (wrap_line line).
Proof.
  unfold wrap_line. destruct (WRAP_WIDTH <? List.length line)%nat eqn:E.
  - apply List.Forall_forall. intros l Hin. apply List.in_map_iff in Hin.
    destruct Hin as (i & <- & _).
    pose proof (slice_length line i (i + WRAP_WIDTH)). lia.
  - apply Nat.ltb_ge in E. constructor; [exact E | constructor].
Qed.

(** Every line the image renderer lays out has at most 80 characters. *)
Lemma image_lines_wrapped text :
  Forall (fun l => (List.length l <= WRAP_WIDTH)%nat) (wrapped_lines text).
Proof.
  unfold wrapped_lines. induction (split_lines text) as [|l ls IH];
    cbn [flat_map]; [constructor|].
  apply List.Forall_app. split; [apply wrap_line_width | exact IH].
Qed.

(** C7, at a line of 81 characters: both renderers normalize their input,
    and the image renderer cuts the line after 80 characters, but the
    document renderer lays the line out whole: its text has a line longer
    than the column width. *)
Theorem render_pdf_leaves_long_line alnum :
  image_text alnum (List.repeat 97 81) = List.repeat 97 80 ++ [10; 97]
  /\ pdf_text alnum (List.repeat 97 81) = List.repeat 97 81
  /\ split_lines (pdf_text alnum (List.repeat 97 81)) = [List.repeat 97 81].
Proof. repeat split; vm_compute; reflexivity. Qed.

(** ** The model client *)

Lemma events_emit_logs logs w :
  events (emit_logs logs w) = events w ++ List.map EvLog logs.
Proof.
  revert w. induction logs as [|l logs IH]; intros w; cbn.
  - now rewrite app_nil_r.
  - unfold emit_logs in IH. rewrite IH. cbn. now rewrite <- app_assoc.
Qed.

Lemma emit_logs_fields logs w :
  response_cache (emit_logs logs w) = response_cache w
  /\ rate_limiter (emit_logs logs w) = rate_limiter w
  /\ question_log (emit_logs logs w) = question_log w
  /\ clock (emit_logs logs w) = clock w.
Proof.
  revert w. induction logs as [|l logs IH]; intros w; cbn; [tauto|].
  unfold emit_logs in IH. destruct (IH (emit (EvLog l) w)) as (A & B & C & D).
  rewrite A, B, C, D. cbn. tauto.
Qed.

Lemma get_gemini_response_miss alnum env w q :
  cache_miss w q ->
  get_gemini_response alnum env w q = attempt_loop alnum env q attempts w.
Proof.
  unfold get_gemini_response. intros [-> | ->]; reflexivity.
Qed.

Lemma get_gemini_response_all_raise alnum env w q :
  cache_miss w q ->
  (forall attempt, 0 <= attempt < MAX_RETRIES ->
     backend env attempt = BackendRaises) ->
  exists w',
    get_gemini_response alnum env w q = (w', Ret None)
    /\ response_cache w' = response_cache w.
Proof.
  intros Hmiss Hfail. rewrite get_gemini_response_miss by exact Hmiss.
  change attempts with [0; 1; 2]. cbn [attempt_loop].
  rewrite !Hfail by (unfold MAX_RETRIES; lia).
  eexists. split; reflexivity.
Qed.

(** C5: when every call of the backend fails, the model client calls it
    3 times, waits 2 seconds after the first failure and 4 seconds after
    the second (the delay of 2 seconds times the number of the attempt),
    does not wait after the third, and returns [None] without raising;
    the cache is left as it was. *)
Theorem gemini_retries_with_linear_backoff alnum env w (q : str) :
  cache_miss w q ->
  (forall attempt, 0 <= attempt < MAX_RETRIES ->
     backend env attempt = BackendRaises) ->
  exists w',
    get_gemini_response alnum env w q = (w', Ret None)
    /\ events w'
       = events w
         ++ [ EvGenerate (prompt_of q);
              EvLog (LogGeminiRetry 1 (RETRY_DELAY * 1));
              EvSleep (RETRY_DELAY * 1);
              EvGenerate (prompt_of q);
              EvLog (LogGeminiRetry 2 (RETRY_DELAY * 2));
              EvSleep (RETRY_DELAY * 2);
              EvGenerate (prompt_of q);
              EvLog LogGeminiGaveUp ]
    /\ clock w' = clock w + (2 + 4) * SECOND
    /\ response_cache w' = response_cache w.
Proof.
  intros Hmiss Hfail. rewrite get_gemini_response_miss by exact Hmiss.
  change attempts with [0; 1; 2]. cbn [attempt_loop].
  rewrite !Hfail by (unfold MAX_RETRIES; lia).
  eexists. split; [reflexivity|]. cbn.
  split; [|split; [unfold RETRY_DELAY, SECOND; lia | reflexivity]].
  rewrite <- !app_assoc. reflexivity.
Qed.

Lemma gemini_retries_with_linear_backoff_witness :
  exists w',
    get_gemini_response ascii_only always_failing fresh_world (cps "1+1")
    = (w', Ret None)
    /\ events w'
       = events fresh_world
         ++ [ EvGenerate (prompt_of (cps "1+1"));
              EvLog (LogGeminiRetry 1 (RETRY_DELAY * 1));
              EvSleep (RETRY_DELAY * 1);
              EvGenerate (prompt_of (cps "1+1"));
              EvLog (LogGeminiRetry 2 (RETRY_DELAY * 2));
              EvSleep (RETRY_DELAY * 2);
              EvGenerate (prompt_of (cps "1+1"));
              EvLog LogGeminiGaveUp ]
    /\ clock w' = clock fresh_world + (2 + 4) * SECOND
    /\ response_cache w' = response_cache fresh_world.
Proof.
  apply (gemini_retries_with_linear_backoff ascii_only always_failing
           fresh_world (cps "1+1")).
  - left. vm_compute. reflexivity.
  - intros attempt _. reflexivity.
Defined.

Lemma get_gemini_response_all_empty alnum env w q :
  cache_miss w q ->
  (forall attempt, 0 <= attempt < MAX_RETRIES ->
     backend env attempt = BackendText []) ->
  exists w',
    get_gemini_response alnum env w q = (w', Ret None)
    /\ events w' = events w ++ List.repeat (EvGenerate (prompt_of q)) 3
    /\ response_cache w' = response_cache w.
Proof.
  intros Hmiss Hempty. rewrite get_gemini_response_miss by exact Hmiss.
  change attempts with [0; 1; 2]. cbn [attempt_loop].
  rewrite !Hempty by (unfold MAX_RETRIES; lia). cbn [truthy].
  eexists. split; [reflexivity|]. cbn. split; [|reflexivity].
  rewrite <- !app_assoc. reflexivity.
Qed.

Lemma cache_miss_encodable w q :
  cache_miss w q -> exists h, ResponseCache._hash_question q = Some h.
Proof.
  unfold cache_miss, ResponseCache.get.
  destruct (ResponseCache._hash_question q) as [h|]; [eauto|].
  intros [?|?]; discriminate.
Qed.

(** The first call of the backend answers with a text: the normalized text
    is stored under the key of the question and returned. *)
Lemma get_gemini_response_first_text alnum env w q text h :
  cache_miss w q ->
  ResponseCache.lock (response_cache w) = false ->
  ResponseCache._hash_question q = Some h ->
  backend env 0 = BackendText text -> truthy text = true ->
  exists w',
    get_gemini_response alnum env w q
    = (w', Ret (Some (preprocess_math_text alnum text)))
    /\ ResponseCache.cache (response_cache w')
       = <[h := {| ResponseCache.response := preprocess_math_text alnum text;
                   ResponseCache.timestamp := clock w |}]>
           (ResponseCache.cache (response_cache w))
    /\ ResponseCache.lock (response_cache w') = false
    /\ (cache_fault env = ResponseCache.NoFault ->
        ResponseCache.cache_file (response_cache w')
        = Some (ResponseCache.Dump (ResponseCache.cache (response_cache w'))))
    /\ clock w' = clock w
    /\ rate_limiter w' = rate_limiter w
    /\ question_log w' = question_log w.
Proof.
  intros Hmiss Hl Hh Hb Ht. rewrite get_gemini_response_miss by exact Hmiss.
  change attempts with [0; 1; 2]. cbn [attempt_loop]. rewrite Hb, Ht.
  unfold cache_set. cbn [response_cache emit clock].
  unfold ResponseCache.set. rewrite Hh.
  rewrite save_cache_returns by exact Hl.
  rewrite preprocess_is_stripped.
  eexists. split; [reflexivity|].
  match goal with
  | |- context [ResponseCache.save_cache_steps ?f ?rc] =>
      pose proof (save_cache_steps_last f rc) as (Hc & Hlk & Hok & _)
  end.
  destruct (emit_logs_fields
    (snd (ResponseCache.save_cache_steps (cache_fault env)
      (ResponseCache.with_cache
        (<[h := {| ResponseCache.response := preprocess_math_text alnum text;
                   ResponseCache.timestamp := clock w |}]>
           (ResponseCache.cache (response_cache w))) (response_cache w))))
    (with_response_cache
      (List.last (fst (ResponseCache.save_cache_steps (cache_fault env)
        (ResponseCache.with_cache
          (<[h := {| ResponseCache.response := preprocess_math_text alnum text;
                     ResponseCache.timestamp := clock w |}]>
             (ResponseCache.cache (response_cache w))) (response_cache w))))
        (ResponseCache.with_cache
          (<[h := {| ResponseCache.response := preprocess_math_text alnum text;
                     ResponseCache.timestamp := clock w |}]>
             (ResponseCache.cache (response_cache w))) (response_cache w)))
      (emit (EvGenerate (prompt_of q)) w))) as (A & B & C & D).
  rewrite A, B, C, D. cbn [response_cache with_response_cache emit clock
                           rate_limiter question_log].
  split; [exact Hc|]. split; [exact Hlk|].
  split; [|repeat split].
  intros Hf. rewrite Hc. apply Hok in Hf as [Hf _]. exact Hf.
Qed.

(** ** The request pipeline *)

Lemma cache_miss_started w chat_id user q :
  cache_miss w q -> cache_miss (started w chat_id user) q.
Proof. intros H. exact H. Qed.

Section PipelineFacts.

Variable alnum : Z -> bool.
Variable env : Env.
Variables (w : World) (chat_id : Z) (user : user_info) (q : str).
Hypothesis Hallowed : allowed w user.
Hypothesis Hin_time : answered_in_time env = true.

Lemma process_unusable w2 response :
  get_gemini_response alnum env (started w chat_id user) q
  = (w2, Ret response) ->
  unusable response = true ->
  process_math_question alnum env w chat_id user q
  = (w2, Ret (false, CouldNotGenerate)).
Proof.
  intros Hget Hun. unfold process_math_question.
  unfold allowed in Hallowed. unfold started in Hget.
  destruct (RateLimiter.check_rate_limit _ _ _) as [rl ok].
  cbn [fst snd] in *. subst ok. cbn [negb]. rewrite Hget, Hin_time.
  cbn [negb]. rewrite Hun. reflexivity.
Qed.

Lemma process_usable w2 r :
  get_gemini_response alnum env (started w chat_id user) q
  = (w2, Ret (Some r)) ->
  unusable (Some r) = false ->
  process_math_question alnum env w chat_id user q
  = match deliver alnum env w2 (clock w) chat_id user q r with
    | (w3, Raise _) =>
        (emit (EvLog LogErrorProcessing) w3, Ret (false, ErrorOccurred))
    | res => res
    end.
Proof.
  intros Hget Hun. unfold process_math_question.
  unfold allowed in Hallowed. unfold started in Hget.
  destruct (RateLimiter.check_rate_limit _ _ _) as [rl ok].
  cbn [fst snd] in *. subst ok. cbn [negb]. rewrite Hget, Hin_time.
  cbn [negb]. rewrite Hun. reflexivity.
Qed.

End PipelineFacts.

Lemma unusable_short r :
  len (strip r) < 10 -> unusable (Some r) = true.
Proof.
  intros H. cbn. apply orb_true_iff. right. now apply Z.ltb_lt.
Qed.

Lemma save_question_appends now chat_id user q r file l :
  file = None /\ l = [] \/ file = Some (LogEntries l) ->
  save_question_to_json LogNoFault file now chat_id user q (Some r)
  = (Some (LogEntries (l ++ [entry_of now chat_id user q r])), []).
Proof. intros [[-> ->] | ->]; reflexivity. Qed.

(** C9: after a usable response, once both renderings exist, the photo
    and the document are both sent, whether or not the first delivery
    succeeds; the call reports success only if both deliveries succeed,
    and the status line "Some outputs may not have sent" otherwise; the
    interaction is handed to [save_question_to_json] in either case, with
    the same arguments, and is appended to the log when the log file can
    be read and written. *)
Theorem delivery_partial_success_is_logged alnum env w (chat_id : Z)
    (user : user_info) (q : str) w2 (r : str) :
  allowed w user -> answered_in_time env = true ->
  get_gemini_response alnum env (started w chat_id user) q
  = (w2, Ret (Some r)) ->
  unusable (Some r) = false ->
  draw_image_ok env = true -> draw_pdf_ok env = true ->
  let success := send_photo_ok env && send_document_ok env in
  let saved :=
    save_question_to_json (question_log_fault env) (question_log w2)
      (clock w2) chat_id user q (Some r) in
  exists w3,
    process_math_question alnum env w chat_id user q
    = (w3, Ret (success,
                if success then Generated (clock w2 - clock w)
                else SomeOutputsMayNotHaveSent))
    /\ events w3
       = events w2
         ++ [ EvSendPhoto chat_id (Png (image_text alnum r));
              EvSendDocument chat_id (Pdf (pdf_text alnum r)) ]
         ++ List.map EvLog (snd saved)
    /\ question_log w3 = fst saved
    /\ (question_log_fault env = LogNoFault ->
        forall l,
          question_log w2 = None /\ l = []
          \/ question_log w2 = Some (LogEntries l) ->
          question_log w3
          = Some (LogEntries (l ++ [entry_of (clock w2) chat_id user q r]))).
Proof.
  intros Hadm Htime Hget Hun Himg Hpdf success saved.
  rewrite (process_usable alnum env w chat_id user q Hadm Htime w2 r Hget Hun).
  unfold deliver, render_math_to_image, render_math_to_pdf.
  rewrite Himg, Hpdf. cbn [emit clock question_log].
  fold success. fold saved. destruct saved as [file logs] eqn:Es.
  eexists. split; [reflexivity|].
  destruct (emit_logs_fields logs
    (with_question_log file
       (emit (EvSendDocument chat_id (Pdf (pdf_text alnum r)))
          (emit (EvSendPhoto chat_id (Png (image_text alnum r))) w2))))
    as (_ & _ & Hq & _).
  rewrite events_emit_logs, Hq. cbn [events with_question_log emit
                                     question_log fst snd].
  split; [now rewrite <- !app_assoc|]. split; [reflexivity|].
  intros Hfault l Hfile. subst saved. rewrite Hfault in Es.
  rewrite (save_question_appends _ _ _ _ _ _ l Hfile) in Es.
  now injection Es as <- _.
Qed.

Lemma delivery_partial_success_is_logged_witness :
  allowed fresh_world alice
  /\ get_gemini_response ascii_only photo_undelivered
       (started fresh_world 1 alice) (cps "Solve 2x + 5 = 15")
     = (answered_world, Ret (Some good_answer))
  /\ unusable (Some good_answer) = false
  /\ exists w3,
       process_math_question ascii_only photo_undelivered fresh_world 1 alice
         (cps "Solve 2x + 5 = 15")
       = (w3, Ret (false, SomeOutputsMayNotHaveSent))
       /\ question_log w3
          = Some (LogEntries
                    [entry_of 0 1 alice (cps "Solve 2x + 5 = 15") good_answer]).
Proof.
  assert (Ha : allowed fresh_world alice) by (vm_compute; reflexivity).
  assert (Hg : get_gemini_response ascii_only photo_undelivered
                 (started fresh_world 1 alice) (cps "Solve 2x + 5 = 15")
               = (answered_world, Ret (Some good_answer)))
    by (vm_compute; reflexivity).
  assert (Hu : unusable (Some good_answer) = false) by (vm_compute; reflexivity).
  split; [exact Ha|]. split; [exact Hg|]. split; [exact Hu|].
  destruct (delivery_partial_success_is_logged ascii_only photo_undelivered
              fresh_world 1 alice (cps "Solve 2x + 5 = 15") answered_world
              good_answer Ha eq_refl Hg Hu eq_refl eq_refl)
    as (w3 & Hp & _ & _ & Hlog).
  exists w3. split; [exact Hp|].
  apply (Hlog eq_refl []). left. split; reflexivity.
Defined.

(** ** Degenerate answers and the cache *)

Lemma served_from_cache alnum env w chat_id user q h e :
  allowed w user -> answered_in_time env = true ->
  ResponseCache._hash_question q = Some h ->
  ResponseCache.cache (response_cache w) !! h = Some e ->
  ResponseCache.fresh (clock w) e = true ->
  truthy (ResponseCache.response e) = true ->
  get_gemini_response alnum env (started w chat_id user) q
  = (emit (EvLog LogServingFromCache) (started w chat_id user),
     Ret (Some (ResponseCache.response e))).
Proof.
  intros _ _ Hh He Hf Ht. unfold get_gemini_response.
  change (response_cache (started w chat_id user)) with (response_cache w).
  change (clock (started w chat_id user)) with (clock w).
  rewrite (get_entry _ q _ h e Hh He), Hf, Ht. reflexivity.
Qed.

(** C10 (as stated, refuted): a response that is not empty but normalizes
    to the empty text, such as [\begin{a}], is stored, yet the stored
    empty answer does not count as a hit: when the question comes again
    the backend is called again (here it then answers well, and the user
    gets the solution, not the "couldn't generate" status). *)
Lemma empty_normal_form_is_not_served_from_cache :
  truthy (cps "\begin{a}") = true
  /\ len (strip (cps "\begin{a}")) = 9
  /\ preprocess_math_text ascii_only (cps "\begin{a}") = []
  /\ snd first_submission = Ret (false, CouldNotGenerate)
  /\ ResponseCache.get (response_cache (fst first_submission))
       (cps "Solve 2x + 5 = 15") 0 = Ret (Some [])
  /\ List.length (List.filter is_generate (events (fst first_submission)))
     = 1%nat
  /\ List.length (List.filter is_generate (events (fst second_submission)))
     = 2%nat
  /\ snd second_submission = Ret (true, Generated 0).
Proof. vm_compute. repeat split; reflexivity. Qed.

(** C10 (amended): a backend response whose normalized text is not empty
    but shorter than 10 characters after trimming is normalized, stored in
    the cache and persisted by the model client, which returns it in the
    world where all that is done, before the length check runs; the user
    then gets the "couldn't generate" status; when the same
    question comes again while the entry is younger than 7 days, it is
    served from the cache, without a call of the backend, and the user
    gets the same status again. *)
Theorem short_answer_is_cached_and_served_again alnum env w (chat_id : Z)
    (user : user_info) (q text h : str) :
  allowed w user -> answered_in_time env = true ->
  cache_miss w q ->
  ResponseCache.lock (response_cache w) = false ->
  ResponseCache._hash_question q = Some h ->
  backend env 0 = BackendText text -> truthy text = true ->
  truthy (preprocess_math_text alnum text) = true ->
  len (strip (preprocess_math_text alnum text)) < 10 ->
  exists w1,
    get_gemini_response alnum env (started w chat_id user) q
    = (w1, Ret (Some (preprocess_math_text alnum text)))
    /\ process_math_question alnum env w chat_id user q
       = (w1, Ret (false, CouldNotGenerate))
    /\ ResponseCache.cache (response_cache w1)
       = <[h := {| ResponseCache.response := preprocess_math_text alnum text;
                   ResponseCache.timestamp := clock w |}]>
           (ResponseCache.cache (response_cache w))
    /\ (cache_fault env = ResponseCache.NoFault ->
        ResponseCache.cache_file (response_cache w1)
        = Some (ResponseCache.Dump (ResponseCache.cache (response_cache w1))))
    /\ (forall env2 w2 chat_id2 user2,
          response_cache w2 = response_cache w1 ->
          clock w2 - clock w < CACHE_EXPIRY_DAYS * DAY ->
          allowed w2 user2 -> answered_in_time env2 = true ->
          exists w3,
            process_math_question alnum env2 w2 chat_id2 user2 q
            = (w3, Ret (false, CouldNotGenerate))
            /\ events w3
               = events w2
                 ++ [EvSendChatAction chat_id2; EvLog LogServingFromCache]).
Proof.
  intros Hadm Htime Hmiss Hl Hh Hb Ht Hp Hshort.
  destruct (get_gemini_response_first_text alnum env
              (started w chat_id user) q text h
              (cache_miss_started w chat_id user q Hmiss) Hl Hh Hb Ht)
    as (w1 & Hget & Hc & _ & Hfile & _).
  change (clock (started w chat_id user)) with (clock w) in Hc.
  change (response_cache (started w chat_id user)) with (response_cache w)
    in Hc.
  exists w1. split; [exact Hget|].
  split; [|split; [exact Hc|split; [exact Hfile|]]].
  - apply (process_unusable alnum env w chat_id user q Hadm Htime w1 _ Hget).
    now apply unusable_short.
  - intros env2 w2 chat_id2 user2 Hrc Hage Hadm2 Htime2.
    set (e := {| ResponseCache.response := preprocess_math_text alnum text;
                 ResponseCache.timestamp := clock w |}).
    assert (He : ResponseCache.cache (response_cache w2) !! h = Some e)
      by (rewrite Hrc, Hc; apply lookup_insert_eq).
    assert (Hf : ResponseCache.fresh (clock w2) e = true)
      by (apply fresh_within; exact Hage).
    pose proof (served_from_cache alnum env2 w2 chat_id2 user2 q h e
                  Hadm2 Htime2 Hh He Hf Hp) as Hget2.
    eexists. split.
    + apply (process_unusable alnum env2 w2 chat_id2 user2 q Hadm2 Htime2
               _ _ Hget2).
      now apply unusable_short.
    + cbn. now rewrite <- app_assoc.
Qed.

Lemma short_answer_is_cached_and_served_again_witness :
  allowed fresh_world alice
  /\ cache_miss fresh_world (cps "Solve 2x + 5 = 15")
  /\ process_math_question ascii_only terse fresh_world 1 alice
       (cps "Solve 2x + 5 = 15")
     = (terse_world, Ret (false, CouldNotGenerate))
  /\ allowed terse_world alice
  /\ exists w3,
       process_math_question ascii_only answers_well terse_world 1 alice
         (cps "Solve 2x + 5 = 15")
       = (w3, Ret (false, CouldNotGenerate))
       /\ events w3
          = events terse_world
            ++ [EvSendChatAction 1; EvLog LogServingFromCache].
Proof.
  assert (Ha : allowed fresh_world alice) by (vm_compute; reflexivity).
  assert (Hm : cache_miss fresh_world (cps "Solve 2x + 5 = 15"))
    by (left; vm_compute; reflexivity).
  assert (Hh : ResponseCache._hash_question (cps "Solve 2x + 5 = 15")
               = Some (cps "cc9070d86677c15fa53c790e5b9cc634"))
    by (vm_compute; reflexivity).
  assert (Hp : truthy (preprocess_math_text ascii_only (cps "ok")) = true)
    by (vm_compute; reflexivity).
  assert (Hs : len (strip (preprocess_math_text ascii_only (cps "ok"))) < 10)
    by (vm_compute; reflexivity).
  assert (Ha1 : allowed terse_world alice) by (vm_compute; reflexivity).
  assert (Hage : clock terse_world - clock fresh_world
                 < CACHE_EXPIRY_DAYS * DAY) by (vm_compute; reflexivity).
  split; [exact Ha|]. split; [exact Hm|].
  destruct (short_answer_is_cached_and_served_again ascii_only terse
              fresh_world 1 alice (cps "Solve 2x + 5 = 15") (cps "ok")
              (cps "cc9070d86677c15fa53c790e5b9cc634")
              Ha eq_refl Hm eq_refl Hh eq_refl eq_refl Hp Hs)
    as (w1 & _ & Hrun & _ & _ & Hagain).
  assert (E : w1 = terse_world) by (unfold terse_world; now rewrite Hrun).
  subst w1. split; [exact Hrun|]. split; [exact Ha1|].
  exact (Hagain answers_well terse_world 1 alice eq_refl Hage Ha1 eq_refl).
Defined.

(** * Further properties of the code *)

(** ** The normalizer's output *)

Lemma rstrip_spec s :
  match rev (rstrip s) with x :: _ => is_space x = false | [] => True end.
Proof. unfold rstrip. rewrite rev_involutive. apply lstrip_spec. Qed.

Lemma rstrip_head_of_stripped s :
  match rstrip (lstrip s) with x :: _ => is_space x = false | [] => True end.
Proof. apply rstrip_keeps_head, lstrip_spec. Qed.

(** X1: whatever the input, the text [preprocess_math_text] returns
    neither begins nor ends with a whitespace character, and trimming it
    again changes nothing. *)
Theorem preprocess_output_is_trimmed alnum (s : str) :
  let out := preprocess_math_text alnum s in
  match out with x :: _ => is_space x = false | [] => True end
  /\ match rev out with x :: _ => is_space x = false | [] => True end
  /\ strip out = out.
Proof.
  cbn zeta. split; [|split].
  - unfold preprocess_math_text, strip. apply rstrip_head_of_stripped.
  - unfold preprocess_math_text, strip. apply rstrip_spec.
  - apply preprocess_is_stripped.
Qed.

(** X2: a text without markup tokens (no backslash, no caret or underscore
    directly followed by an opening brace) goes through the whole table
    unchanged: the normalizer only trims it. *)
Theorem preprocess_only_trims_plain_text alnum (s : str) :
  markup_free s = true -> preprocess_math_text alnum s = strip s.
Proof. apply preprocess_markup_free. Qed.

Lemma preprocess_only_trims_plain_text_witness :
  markup_free (cps "  2x + 5 = 15 ") = true
  /\ preprocess_math_text ascii_only (cps "  2x + 5 = 15 ")
     = cps "2x + 5 = 15".
Proof.
  split; [reflexivity|].
  exact (preprocess_only_trims_plain_text ascii_only (cps "  2x + 5 = 15 ")
           eq_refl).
Defined.

(** ** [escape_markdown_v2] *)

Lemma replace_one_char c new s :
  str_replace [c] new s = flat_map (fun x => if x =? c then new else [x]) s.
Proof.
  unfold str_replace. induction s as [|x s IH]; [reflexivity|].
  cbn [replace_from startswith flat_map List.length Nat.sub].
  rewrite andb_true_r, (Z.eqb_sym c x).
  destruct (x =? c); cbn [app]; now rewrite IH.
Qed.

Lemma flat_map_flat_map (f g : Z -> str) s :
  flat_map g (flat_map f s) = flat_map (fun x => flat_map g (f x)) s.
Proof.
  induction s as [|x s IH]; [reflexivity|].
  cbn [flat_map]. now rewrite List.flat_map_app, IH.
Qed.

Lemma fold_escape_pass chars : forall (f : Z -> str) s,
  fold_left escape_pass chars (flat_map f s)
  = flat_map (fun x => fold_left escape_pass chars (f x)) s.
Proof.
  induction chars as [|c chars IH]; intros f s; [reflexivity|].
  cbn [fold_left]. unfold escape_pass at 2 4.
  rewrite flat_map_flat_map. apply (IH (fun x => flat_map _ (f x))).
Qed.

Lemma fold_escape_pass_other chars x :
  existsb (Z.eqb x) chars = false -> fold_left escape_pass chars [x] = [x].
Proof.
  induction chars as [|c chars IH]; [reflexivity|]. cbn [existsb fold_left].
  intros H. apply orb_false_iff in H as [Hc H].
  unfold escape_pass at 2. cbn [flat_map]. rewrite Hc. cbn [app].
  now apply IH.
Qed.

Lemma escape_one_char x :
  fold_left escape_pass escape_chars (if x =? 92 then [92; 92] else [x])
  = escape_char x.
Proof.
  unfold escape_char.
  destruct (existsb (Z.eqb x) (92 :: escape_chars)) eqn:E.
  - apply List.existsb_exists in E as (y & Hin & Hy).
    apply Z.eqb_eq in Hy. subst y. vm_compute in Hin.
    repeat (destruct Hin as [<- | Hin]; [vm_compute; reflexivity|]).
    destruct Hin.
  - cbn [existsb] in E. apply orb_false_iff in E as [E1 E2].
    rewrite E1, E2. rewrite fold_escape_pass_other by exact E2.
    destruct (x =? 62) eqn:E3; [|reflexivity].
    apply Z.eqb_eq in E3. subst x. discriminate E2.
Qed.

Lemma escape_as_flat_map s :
  escape_markdown_v2 s = flat_map escape_char s.
Proof.
  unfold escape_markdown_v2. rewrite replace_one_char.
  transitivity (fold_left escape_pass escape_chars
                  (flat_map (fun x => if x =? 92 then [92; 92] else [x]) s)).
  - generalize (flat_map (fun x => if x =? 92 then [92; 92] else [x]) s).
    induction escape_chars as [|c chars IH]; intros t; [reflexivity|].
    cbn [fold_left]. rewrite replace_one_char. apply IH.
  - rewrite fold_escape_pass. apply List.flat_map_ext. intros x.
    apply escape_one_char.
Qed.

(** X3: [escape_markdown_v2] makes 21 passes of [str.replace] over the
    text, one for the backslash and one for each of the 20 characters of
    [escape_chars], two of which are [>].  Together the passes amount to
    one character-wise substitution: a backslash becomes two, [>] comes
    out behind two backslashes, every other listed character behind one,
    all other characters are kept; hence escaping distributes over
    concatenation. *)
Theorem escape_markdown_v2_per_character (s t : str) :
  escape_markdown_v2 s
  = fold_left (fun text pass => str_replace (fst pass) (snd pass) text)
      escape_passes s
  /\ List.length escape_passes = 21%nat
  /\ List.length (List.filter (fun pass => str_eqb (fst pass) [62])
                    escape_passes) = 2%nat
  /\ escape_markdown_v2 s = flat_map escape_char s
  /\ escape_markdown_v2 (s ++ t) = escape_markdown_v2 s ++ escape_markdown_v2 t.
Proof.
  split; [reflexivity|]. split; [reflexivity|]. split; [reflexivity|].
  split; [apply escape_as_flat_map|].
  rewrite !escape_as_flat_map. apply List.flat_map_app.
Qed.

Lemma escape_char_length x :
  (1 <= List.length (escape_char x) <= 3)%nat.
Proof.
  unfold escape_char.
  destruct (x =? 92); [cbn; lia|]. destruct (x =? 62); [cbn; lia|].
  destruct (existsb _ _); cbn; lia.
Qed.

Lemma escape_length s :
  (List.length s <= List.length (escape_markdown_v2 s) <= 3 * List.length s)%nat.
Proof.
  rewrite escape_as_flat_map. induction s as [|x s IH]; [cbn; lia|].
  cbn [flat_map]. rewrite List.length_app. cbn [List.length].
  pose proof (escape_char_length x). lia.
Qed.

Lemma escaped_head s :
  match flat_map escape_char s with
  | c :: _ => c <> 62
  | [] => s = []
  end.
Proof.
  destruct s as [|x s]; [reflexivity|]. cbn [flat_map]. unfold escape_char.
  destruct (x =? 92); [cbn; lia|].
  destruct (x =? 62) eqn:E; [cbn; lia|].
  apply Z.eqb_neq in E. destruct (existsb _ _); cbn; lia.
Qed.

Lemma unescape_escape s : unescape (flat_map escape_char s) = s.
Proof.
  induction s as [|x s IH]; [reflexivity|]. cbn [flat_map].
  pose proof (escaped_head s) as Hh. unfold escape_char at 1.
  destruct (x =? 92) eqn:E92.
  - apply Z.eqb_eq in E92. subst x. cbn [app unescape Z.eqb Pos.eqb].
    destruct (flat_map escape_char s) as [|c r] eqn:Er.
    + now subst s.
    + apply Z.eqb_neq in Hh. rewrite Hh, IH. reflexivity.
  - destruct (x =? 62) eqn:E62.
    + apply Z.eqb_eq in E62. subst x. cbn [app unescape Z.eqb Pos.eqb].
      now rewrite IH.
    + destruct (existsb (Z.eqb x) escape_chars).
      * cbn [app]. cbn [unescape]. rewrite E92.
        change (92 =? 92) with true. cbv iota. now rewrite IH.
      * cbn [app unescape]. rewrite E92. now rewrite IH.
Qed.

(** X4: escaping loses nothing: the text can be read back from its
    escaped form, so two different texts never have the same escaped
    form. *)
Theorem escape_markdown_v2_is_injective (s : str) :
  unescape (escape_markdown_v2 s) = s
  /\ forall t, escape_markdown_v2 s = escape_markdown_v2 t -> s = t.
Proof.
  assert (R : forall u, unescape (escape_markdown_v2 u) = u)
    by (intros u; rewrite escape_as_flat_map; apply unescape_escape).
  split; [apply R|]. intros t E.
  rewrite <- (R s), E. apply R.
Qed.

(** ** [send_message] *)

(** X5: [send_message] issues no request and returns [False] for a text
    that is blank; otherwise it issues exactly one request, whose text is
    the escaped form of the first 4000 characters (so it can hold up to
    12000 characters), and returns the [ok] field of the answer, [False]
    when there is no answer or no such field. *)
Theorem send_message_truncates_then_escapes (r : reply) (chat_id : Z)
    (text : str) (reply_markup : option markup) :
  let res := send_message r chat_id text reply_markup None (cps "MarkdownV2") in
  (truthy (strip text) = false -> res = ([], false))
  /\ (truthy (strip text) = true ->
      exists m,
        res = ([m], reply_ok r)
        /\ sent_chat_id m = chat_id
        /\ sent_text m = escape_markdown_v2 (firstn MAX_MESSAGE_LENGTH text)
        /\ (List.length (sent_text m) <= 3 * MAX_MESSAGE_LENGTH)%nat
        /\ sent_reply_markup m = reply_markup)
  /\ (r = NoReply \/ r = Reply None -> snd res = false).
Proof.
  cbn zeta. unfold send_message. split; [|split].
  - intros ->. reflexivity.
  - intros ->. cbn [negb]. eexists. split; [reflexivity|].
    cbn [sent_chat_id sent_text sent_reply_markup].
    change (str_eqb (cps "MarkdownV2") (cps "MarkdownV2")) with true.
    cbv iota. repeat split.
    pose proof (escape_length (firstn MAX_MESSAGE_LENGTH text)) as [_ H].
    pose proof (List.firstn_le_length MAX_MESSAGE_LENGTH text). lia.
  - intros [-> | ->]; destruct (negb _); reflexivity.
Qed.

(** ** The cache across restarts *)

Lemma set_files fault rc q r now h :
  ResponseCache.lock rc = false ->
  ResponseCache._hash_question q = Some h ->
  exists rc' logs,
    ResponseCache.set fault rc q r now = Ret (rc', logs)
    /\ ResponseCache.cache rc'
       = <[h := {| ResponseCache.response := r;
                   ResponseCache.timestamp := now |}]> (ResponseCache.cache rc)
    /\ ResponseCache.lock rc' = false
    /\ (fault = ResponseCache.NoFault ->
        ResponseCache.cache_file rc'
        = Some (ResponseCache.Dump (ResponseCache.cache rc')))
    /\ (fault <> ResponseCache.NoFault ->
        ResponseCache.cache_file rc' = ResponseCache.cache_file rc).
Proof.
  intros Hl Hh. unfold ResponseCache.set. rewrite Hh.
  rewrite save_cache_returns by exact Hl.
  eexists _, _. split; [reflexivity|].
  match goal with
  | |- context [ResponseCache.save_cache_steps ?f ?x] =>
      pose proof (save_cache_steps_last f x) as (Hc & Hlk & Hok & Hko)
  end.
  split; [exact Hc|]. split; [exact Hlk|]. split.
  - intros Hf. rewrite Hc. now apply Hok.
  - intros Hf. now apply Hko.
Qed.

(** X6: an answer stored with [set] survives a restart of the process:
    when the file system raised no fault, a cache built again from the
    file answers [get(q)] with [r] as long as the entry is younger than 7
    days; when the save failed, the restarted cache holds exactly what
    the file held before the [set], so the new answer is lost. *)
Theorem cache_survives_restart fault rc (q r : str) (now later : Z) (h : str) :
  ResponseCache.lock rc = false ->
  ResponseCache._hash_question q = Some h ->
  later - now < CACHE_EXPIRY_DAYS * DAY ->
  exists rc' logs,
    ResponseCache.set fault rc q r now = Ret (rc', logs)
    /\ (fault = ResponseCache.NoFault ->
        ResponseCache.get
          (ResponseCache.init (ResponseCache.cache_file rc')
             (ResponseCache.temp_file rc') later) q later
        = Ret (Some r))
    /\ (fault <> ResponseCache.NoFault ->
        ResponseCache.cache
          (ResponseCache.init (ResponseCache.cache_file rc')
             (ResponseCache.temp_file rc') later)
        = ResponseCache._load_cache (ResponseCache.cache_file rc) later).
Proof.
  intros Hl Hh Hage.
  destruct (set_files fault rc q r now h Hl Hh)
    as (rc' & logs & Hs & Hc & _ & Hok & Hko).
  exists rc', logs. split; [exact Hs|]. split.
  - intros Hf. set (e := {| ResponseCache.response := r;
                            ResponseCache.timestamp := now |}).
    assert (F : ResponseCache.fresh later e = true)
      by (apply fresh_within; exact Hage).
    rewrite (get_entry _ q later h e Hh).
    + now rewrite F.
    + cbn [ResponseCache.init ResponseCache.cache]. rewrite (Hok Hf).
      rewrite load_cache_lookup, Hc, lookup_insert_eq. fold e. now rewrite F.
  - intros Hf. cbn [ResponseCache.init ResponseCache.cache].
    now rewrite (Hko Hf).
Qed.

Lemma cache_survives_restart_witness :
  exists rc' logs,
    ResponseCache.set ResponseCache.NoFault empty_cache
      (cps "Solve 2x + 5 = 15") (cps "x = 5") 0 = Ret (rc', logs)
    /\ ResponseCache.get
         (ResponseCache.init (ResponseCache.cache_file rc')
            (ResponseCache.temp_file rc') DAY) (cps "Solve 2x + 5 = 15") DAY
       = Ret (Some (cps "x = 5")).
Proof.
  assert (Hh : ResponseCache._hash_question (cps "Solve 2x + 5 = 15")
               = Some (cps "cc9070d86677c15fa53c790e5b9cc634"))
    by (vm_compute; reflexivity).
  assert (Hage : DAY - 0 < CACHE_EXPIRY_DAYS * DAY)
    by (vm_compute; reflexivity).
  destruct (cache_survives_restart ResponseCache.NoFault empty_cache
              (cps "Solve 2x + 5 = 15") (cps "x = 5") 0 DAY
              (cps "cc9070d86677c15fa53c790e5b9cc634") eq_refl Hh Hage)
    as (rc' & logs & Hs & Hok & _).
  exists rc', logs. split; [exact Hs|]. now apply Hok.
Defined.

(** X7: [_load_cache] keeps of a well-formed file exactly the entries
    younger than 7 days, and gives the empty dictionary for a missing
    file and for a file that holds only part of a dump; in a cache that
    was just loaded, [get] at the instant of loading answers every
    question whose key is present. *)
Theorem load_cache_keeps_fresh_entries (now : Z) :
  (forall c h e,
     ResponseCache._load_cache (Some (ResponseCache.Dump c)) now !! h = Some e
     <-> c !! h = Some e
         /\ now - ResponseCache.timestamp e < CACHE_EXPIRY_DAYS * DAY)
  /\ (forall c n,
        ResponseCache._load_cache (Some (ResponseCache.PartialDump c n)) now
        = ∅)
  /\ ResponseCache._load_cache None now = ∅
  /\ (forall file temp q h e,
        ResponseCache._hash_question q = Some h ->
        ResponseCache.cache (ResponseCache.init file temp now) !! h = Some e ->
        ResponseCache.get (ResponseCache.init file temp now) q now
        = Ret (Some (ResponseCache.response e))).
Proof.
  assert (L : forall c h e,
     ResponseCache._load_cache (Some (ResponseCache.Dump c)) now !! h = Some e
     <-> c !! h = Some e
         /\ now - ResponseCache.timestamp e < CACHE_EXPIRY_DAYS * DAY).
  { intros c h e. rewrite load_cache_lookup, <- fresh_within.
    destruct (c !! h) as [e'|]; [|intuition discriminate].
    destruct (ResponseCache.fresh now e') eqn:F; split.
    - intros [= <-]. tauto.
    - intros [[= <-] _]. reflexivity.
    - discriminate.
    - intros [[= <-] F']. congruence. }
  split; [exact L|]. split; [reflexivity|]. split; [reflexivity|].
  intros file temp q h e Hh He. rewrite (get_entry _ q now h e Hh He).
  cbn [ResponseCache.init ResponseCache.cache] in He.
  destruct file as [[c|c n]|]; cbn in He; try (rewrite lookup_empty in He; discriminate).
  apply L in He as [_ Hf]. apply fresh_within in Hf. now rewrite Hf.
Qed.

(** X8: storing a second answer for the same question replaces the
    first: after [set(q, r1)] and [set(q, r2)] the dictionary is the
    original one with the single entry of [r2] under the key of [q], and
    [get(q)] returns [r2]. *)
Theorem set_overwrites_previous_answer f1 f2 rc (q r1 r2 : str)
    (t1 t2 : Z) (h : str) :
  ResponseCache.lock rc = false ->
  ResponseCache._hash_question q = Some h ->
  exists rc1 logs1 rc2 logs2,
    ResponseCache.set f1 rc q r1 t1 = Ret (rc1, logs1)
    /\ ResponseCache.set f2 rc1 q r2 t2 = Ret (rc2, logs2)
    /\ ResponseCache.cache rc2
       = <[h := {| ResponseCache.response := r2;
                   ResponseCache.timestamp := t2 |}]> (ResponseCache.cache rc)
    /\ ResponseCache.get rc2 q t2 = Ret (Some r2).
Proof.
  intros Hl Hh.
  destruct (set_files f1 rc q r1 t1 h Hl Hh) as (rc1 & l1 & Hs1 & Hc1 & Hl1 & _).
  destruct (set_files f2 rc1 q r2 t2 h Hl1 Hh) as (rc2 & l2 & Hs2 & Hc2 & _).
  exists rc1, l1, rc2, l2. split; [exact Hs1|]. split; [exact Hs2|].
  assert (Hc : ResponseCache.cache rc2
       = <[h := {| ResponseCache.response := r2;
                   ResponseCache.timestamp := t2 |}]> (ResponseCache.cache rc))
    by (rewrite Hc2, Hc1; apply insert_insert_eq).
  split; [exact Hc|].
  rewrite (get_entry rc2 q t2 h _ Hh ltac:(rewrite Hc; apply lookup_insert_eq)).
  assert (F : ResponseCache.fresh t2
                {| ResponseCache.response := r2;
                   ResponseCache.timestamp := t2 |} = true)
    by (apply fresh_within; cbn; unfold CACHE_EXPIRY_DAYS, DAY, SECOND; lia).
  now rewrite F.
Qed.

Lemma set_overwrites_previous_answer_witness :
  exists rc1 logs1 rc2 logs2,
    ResponseCache.set ResponseCache.NoFault empty_cache
      (cps "Solve 2x + 5 = 15") (cps "x = 4") 0 = Ret (rc1, logs1)
    /\ ResponseCache.set ResponseCache.ReplaceFails rc1
         (cps "Solve 2x + 5 = 15") (cps "x = 5") SECOND = Ret (rc2, logs2)
    /\ ResponseCache.get rc2 (cps "Solve 2x + 5 = 15") SECOND
       = Ret (Some (cps "x = 5")).
Proof.
  assert (Hh : ResponseCache._hash_question (cps "Solve 2x + 5 = 15")
               = Some (cps "cc9070d86677c15fa53c790e5b9cc634"))
    by (vm_compute; reflexivity).
  destruct (set_overwrites_previous_answer ResponseCache.NoFault
              ResponseCache.ReplaceFails empty_cache
              (cps "Solve 2x + 5 = 15") (cps "x = 4") (cps "x = 5") 0 SECOND
              (cps "cc9070d86677c15fa53c790e5b9cc634") eq_refl Hh)
    as (rc1 & l1 & rc2 & l2 & H1 & H2 & _ & Hg).
  exists rc1, l1, rc2, l2. split; [exact H1|]. split; [exact H2 | exact Hg].
Defined.

(** ** The windows of the rate limiter *)

Lemma prune_length now l :
  (List.length (RateLimiter.prune now l) <= List.length l)%nat.
Proof.
  unfold RateLimiter.prune. induction l as [|t l IH]; [reflexivity|].
  cbn [List.filter]. destruct (_ <? _); cbn [List.length]; lia.
Qed.

Lemma check_keeps_windows_bounded rl v now :
  windows_bounded rl ->
  windows_bounded (fst (RateLimiter.check_rate_limit rl v now)).
Proof.
  intros Hb u l. rewrite RateLimiterFacts.check_rate_limit_spec. cbn zeta.
  destruct (RATE_LIMIT_PER_USER <=? _) eqn:E; cbn [fst];
    (destruct (decide (v = u)) as [->|Hne];
     [rewrite lookup_insert_eq; intros [= <-]
     |rewrite lookup_insert_ne by exact Hne; apply Hb]).
  - apply Z.leb_le in E. destruct (rl !! u) as [l0|] eqn:El.
    + destruct (Hb u l0 El) as [_ H5]. pose proof (prune_length now l0).
      unfold RATE_LIMIT_PER_USER in *. lia.
    + cbn in E. unfold RATE_LIMIT_PER_USER in E. lia.
  - apply Z.leb_gt in E. rewrite List.length_app. cbn [List.length].
    unfold RATE_LIMIT_PER_USER in *. lia.
Qed.

(** X9: in every run from the start of the process, in whatever order the
    clock readings come, each window the limiter holds has at least one
    and at most 5 instants: the memory used per identity is bounded. *)
Theorem rate_windows_stay_bounded (calls : list (Z * Z)) (u : Z) (l : list Z) :
  fst (RateLimiter.run RateLimiter.init calls) !! u = Some l ->
  (1 <= List.length l)%nat /\ Z.of_nat (List.length l) <= RATE_LIMIT_PER_USER.
Proof.
  assert (G : forall cs rl, windows_bounded rl ->
                windows_bounded (fst (RateLimiter.run rl cs))).
  { induction cs as [|[v t] cs IH]; intros rl Hb; [exact Hb|].
    rewrite RateLimiterFacts.run_cons. cbn [fst].
    apply IH, check_keeps_windows_bounded, Hb. }
  apply (G calls RateLimiter.init).
  intros v l0 H. unfold RateLimiter.init in H. rewrite lookup_empty in H.
  discriminate.
Qed.

Lemma rate_windows_stay_bounded_witness :
  fst (RateLimiter.run RateLimiter.init burst) !! 42
  = Some [0; 1 * SECOND; 2 * SECOND; 3 * SECOND; 4 * SECOND]
  /\ (1 <= 5)%nat /\ Z.of_nat 5 <= RATE_LIMIT_PER_USER.
Proof.
  assert (H : fst (RateLimiter.run RateLimiter.init burst) !! 42
              = Some [0; 1 * SECOND; 2 * SECOND; 3 * SECOND; 4 * SECOND])
    by (vm_compute; reflexivity).
  split; [exact H|].
  exact (rate_windows_stay_bounded burst 42 _ H).
Defined.

Lemma check_depends_on_own_window rl1 rl2 u now :
  rl1 !! u = rl2 !! u ->
  snd (RateLimiter.check_rate_limit rl1 u now)
  = snd (RateLimiter.check_rate_limit rl2 u now)
  /\ fst (RateLimiter.check_rate_limit rl1 u now) !! u
     = fst (RateLimiter.check_rate_limit rl2 u now) !! u.
Proof.
  intros E. rewrite !RateLimiterFacts.check_rate_limit_spec. cbn zeta.
  rewrite E. destruct (_ <=? _); cbn [fst snd];
    now rewrite !lookup_insert_eq.
Qed.

Lemma check_leaves_others rl v u now :
  v <> u -> fst (RateLimiter.check_rate_limit rl v now) !! u = rl !! u.
Proof.
  intros Hne. rewrite RateLimiterFacts.check_rate_limit_spec. cbn zeta.
  destruct (_ <=? _); cbn [fst]; now rewrite lookup_insert_ne.
Qed.

(** X10: the answers an identity gets do not depend on the calls of the
    others: in any run, the answers to the calls of [u] are the answers
    [u] would get if its calls were the only ones. *)
Theorem rate_limiter_identities_independent (calls : list (Z * Z)) (u : Z) :
  answers_to u calls (snd (RateLimiter.run RateLimiter.init calls))
  = snd (RateLimiter.run RateLimiter.init (calls_of u calls)).
Proof.
  assert (G : forall cs rl1 rl2, rl1 !! u = rl2 !! u ->
            answers_to u cs (snd (RateLimiter.run rl1 cs))
            = snd (RateLimiter.run rl2 (calls_of u cs))).
  { induction cs as [|[v t] cs IH]; intros rl1 rl2 E; [reflexivity|].
    rewrite RateLimiterFacts.run_cons. cbn [snd answers_to calls_of
                                            List.filter fst].
    destruct (Z.eqb_spec v u) as [->|Hne].
    - fold (calls_of u cs). rewrite RateLimiterFacts.run_cons. cbn [snd].
      destruct (check_depends_on_own_window rl1 rl2 u t E) as [Ha Hw].
      rewrite Ha. f_equal. now apply IH.
    - fold (calls_of u cs). apply IH.
      now rewrite check_leaves_others. }
  now apply G.
Qed.

(** ** The cost of one call of the model client *)

Lemma generate_calls_app a b :
  generate_calls (a ++ b) = (generate_calls a + generate_calls b)%nat.
Proof. unfold generate_calls. now rewrite List.filter_app, List.length_app. Qed.

Lemma slept_app a b : slept (a ++ b) = slept a + slept b.
Proof.
  unfold slept. induction a as [|e a IH]; [reflexivity|]. cbn [app fold_right].
  rewrite IH. destruct e; lia.
Qed.

Lemma logs_cost_nothing logs :
  generate_calls (List.map EvLog logs) = 0%nat
  /\ slept (List.map EvLog logs) = 0
  /\ List.filter is_delivery (List.map EvLog logs) = [].
Proof. induction logs as [|l logs (A & B & C)]; cbn; auto. Qed.

Lemma cache_set_trace env w q p w' :
  cache_set env w q p = Ret w' ->
  exists logs, events w' = events w ++ List.map EvLog logs
               /\ clock w' = clock w.
Proof.
  unfold cache_set. destruct (ResponseCache.set _ _ _ _ _) as [[rc logs]| |];
    [|discriminate..].
  intros [= <-]. exists logs. rewrite events_emit_logs.
  destruct (emit_logs_fields logs (with_response_cache rc w)) as (_ & _ & _ & C).
  now rewrite C.
Qed.

Lemma backoff_budget_nonneg l :
  Forall (fun a => 0 <= a) l -> 0 <= backoff_budget l.
Proof.
  induction 1 as [|a l Ha _ IH]; cbn; [lia|].
  fold (backoff_budget l). unfold RETRY_DELAY. destruct (_ <? _); lia.
Qed.

Lemma attempt_loop_budget alnum env q : forall attempts_left w,
  Forall (fun a => 0 <= a) attempts_left ->
  exists new,
    events (fst (attempt_loop alnum env q attempts_left w)) = events w ++ new
    /\ (generate_calls new <= List.length attempts_left)%nat
    /\ 0 <= slept new <= backoff_budget attempts_left
    /\ clock (fst (attempt_loop alnum env q attempts_left w))
       = clock w + slept new * SECOND.
Proof.
  induction attempts_left as [|a rest IH]; intros w Hpos.
  - exists []. cbn. rewrite app_nil_r. repeat split; lia.
  - apply List.Forall_cons_iff in Hpos as [Ha Hrest].
    pose proof (backoff_budget_nonneg rest Hrest) as Hbud.
    assert (Hhandled : forall w1,
      events w1 = events w ++ [EvGenerate (prompt_of q)] ->
      clock w1 = clock w ->
      exists new,
        events (fst (match on_backend_error a w1 with
                     | (w2, None) => attempt_loop alnum env q rest w2
                     | (w2, Some r) => (w2, r)
                     end)) = events w ++ new
        /\ (generate_calls new <= S (List.length rest))%nat
        /\ 0 <= slept new <= backoff_budget (a :: rest)
        /\ clock (fst (match on_backend_error a w1 with
                       | (w2, None) => attempt_loop alnum env q rest w2
                       | (w2, Some r) => (w2, r)
                       end)) = clock w + slept new * SECOND).
    { intros w1 He Hc. unfold on_backend_error. cbn [backoff_budget fold_right].
      fold (backoff_budget rest).
      destruct (a <? MAX_RETRIES - 1).
      - match goal with
        | |- context [attempt_loop alnum env q rest ?w2] =>
            destruct (IH w2 Hrest) as (new & E & G & S & C)
        end.
        cbn [sleep emit events clock] in E, C.
        exists ([EvGenerate (prompt_of q);
                 EvLog (LogGeminiRetry (a + 1) (RETRY_DELAY * (a + 1)));
                 EvSleep (RETRY_DELAY * (a + 1))] ++ new).
        rewrite E, C, He, Hc, generate_calls_app, slept_app.
        rewrite <- !app_assoc. cbn [app]. split; [reflexivity|].
        cbn. unfold RETRY_DELAY in *. repeat split; lia.
      - exists [EvGenerate (prompt_of q); EvLog LogGeminiGaveUp].
        cbn [fst emit events clock]. rewrite He, Hc, <- app_assoc.
        cbn. repeat split; lia. }
    cbn [attempt_loop List.length].
    destruct (backend env a) as [|text].
    + apply Hhandled; reflexivity.
    + destruct (truthy text).
      * destruct (cache_set env _ q _) as [w'| |] eqn:Es.
        -- destruct (cache_set_trace _ _ _ _ _ Es) as (logs & E & C).
           destruct (logs_cost_nothing logs) as (G0 & S0 & _).
           exists ([EvGenerate (prompt_of q)] ++ List.map EvLog logs).
           cbn [fst]. rewrite E, C, generate_calls_app, slept_app, G0, S0.
           cbn [emit events clock]. rewrite <- app_assoc.
           split; [reflexivity|]. cbn [backoff_budget fold_right].
           fold (backoff_budget rest). unfold RETRY_DELAY.
           cbn. destruct (_ <? _); repeat split; lia.
        -- apply Hhandled; reflexivity.
        -- exists [EvGenerate (prompt_of q)]. cbn [fst emit events clock].
           split; [reflexivity|]. cbn [backoff_budget fold_right].
           fold (backoff_budget rest). unfold RETRY_DELAY.
           cbn. destruct (_ <? _); repeat split; lia.
      * match goal with
        | |- context [attempt_loop alnum env q rest ?w2] =>
            destruct (IH w2 Hrest) as (new & E & G & S & C)
        end.
        cbn [emit events clock] in E, C.
        exists ([EvGenerate (prompt_of q)] ++ new).
        rewrite E, C, generate_calls_app, slept_app, <- app_assoc.
        split; [reflexivity|]. cbn [backoff_budget fold_right].
        fold (backoff_budget rest). unfold RETRY_DELAY.
        cbn. destruct (_ <? _); repeat split; lia.
Qed.

(** X11: whatever the backend and the file system do, one call of
    [get_gemini_response] only adds to the trace and calls the backend at
    most 3 times; when the lock of the cache is free at the call, so that
    saving the cache does not wait for it, the waits of the call add up
    to at most 6 seconds. *)
Theorem model_client_call_budget alnum env w (q : str) :
  exists new,
    events (fst (get_gemini_response alnum env w q)) = events w ++ new
    /\ (generate_calls new <= 3)%nat
    /\ (ResponseCache.lock (response_cache w) = false ->
        0 <= slept new <= 6).
Proof.
  assert (Hloop : exists new,
    events (fst (attempt_loop alnum env q attempts w)) = events w ++ new
    /\ (generate_calls new <= 3)%nat
    /\ (ResponseCache.lock (response_cache w) = false ->
        0 <= slept new <= 6)).
  { destruct (attempt_loop_budget alnum env q attempts w)
      as (new & E & G & S & _).
    - repeat constructor; discriminate.
    - exists new. split; [exact E|]. split; [exact G|]. intros _. exact S. }
  assert (Hnone : exists new,
    events w = events w ++ new /\ (generate_calls new <= 3)%nat
    /\ (ResponseCache.lock (response_cache w) = false ->
        0 <= slept new <= 6)).
  { exists []. rewrite app_nil_r. cbn. repeat split; lia. }
  unfold get_gemini_response.
  destruct (ResponseCache.get _ _ _) as [[r|]| |]; cbn [fst];
    try exact Hloop; try exact Hnone.
  destruct (truthy r); [|exact Hloop].
  exists [EvLog LogServingFromCache]. cbn. repeat split; lia.
Qed.

Lemma model_client_call_budget_witness :
  exists new,
    events (fst (get_gemini_response ascii_only always_failing fresh_world
                   (cps "1+1")))
    = events fresh_world ++ new
    /\ (generate_calls new <= 3)%nat
    /\ 0 <= slept new <= 6.
Proof.
  destruct (model_client_call_budget ascii_only always_failing fresh_world
              (cps "1+1")) as (new & E & G & S).
  exists new. split; [exact E|]. split; [exact G|]. apply S. reflexivity.
Defined.

(** X12: when every call of the backend returns an empty text, the model
    client calls it 3 times in a row, without waiting in between (the
    clock does not move), returns [None] and leaves the cache as it
    was. *)
Theorem empty_replies_are_retried_without_backoff alnum env w (q : str) :
  cache_miss w q ->
  (forall attempt, 0 <= attempt < MAX_RETRIES ->
     backend env attempt = BackendText []) ->
  exists w',
    get_gemini_response alnum env w q = (w', Ret None)
    /\ events w' = events w ++ List.repeat (EvGenerate (prompt_of q)) 3
    /\ clock w' = clock w
    /\ response_cache w' = response_cache w.
Proof.
  intros Hmiss Hempty. rewrite get_gemini_response_miss by exact Hmiss.
  change attempts with [0; 1; 2]. cbn [attempt_loop].
  rewrite !Hempty by (unfold MAX_RETRIES; lia). cbn [truthy].
  eexists. split; [reflexivity|]. cbn.
  split; [now rewrite <- !app_assoc|]. split; reflexivity.
Qed.

Lemma empty_replies_are_retried_without_backoff_witness :
  exists w',
    get_gemini_response ascii_only always_empty fresh_world (cps "1+1")
    = (w', Ret None)
    /\ events w'
       = events fresh_world
         ++ List.repeat (EvGenerate (prompt_of (cps "1+1"))) 3
    /\ clock w' = clock fresh_world
    /\ response_cache w' = response_cache fresh_world.
Proof.
  apply (empty_replies_are_retried_without_backoff ascii_only always_empty
           fresh_world (cps "1+1")).
  - left. vm_compute. reflexivity.
  - intros attempt _. reflexivity.
Defined.

(** ** Requests that end early *)

(** X13: a request the rate limiter rejects costs nothing: the status is
    "Too many requests", no event is added to the trace (no typing
    action, no call of the backend, no delivery), the cache, the question
    log and the clock are as before, and the rejected attempt is not
    recorded in the window, which is only pruned. *)
Theorem throttled_request_has_no_effect alnum env w (chat_id : Z)
    (user : user_info) (q : str) (window : list Z) :
  rate_limiter w !! user_id user = Some window ->
  RATE_LIMIT_PER_USER
  <= Z.of_nat (List.length (RateLimiter.prune (clock w) window)) ->
  exists w',
    process_math_question alnum env w chat_id user q
    = (w', Ret (false, TooManyRequests))
    /\ events w' = events w
    /\ response_cache w' = response_cache w
    /\ question_log w' = question_log w
    /\ clock w' = clock w
    /\ rate_limiter w'
       = <[user_id user := RateLimiter.prune (clock w) window]> (rate_limiter w).
Proof.
  intros Hw Hfull. unfold process_math_question.
  rewrite RateLimiterFacts.check_rate_limit_spec. cbn zeta. rewrite Hw.
  apply Z.leb_le in Hfull. rewrite Hfull. cbn [negb].
  eexists. split; [reflexivity|]. cbn. repeat split.
Qed.

Lemma throttled_request_has_no_effect_witness :
  rate_limiter busy_world !! user_id alice
  = Some [0; 1 * SECOND; 2 * SECOND; 3 * SECOND; 4 * SECOND]
  /\ exists w',
       process_math_question ascii_only answers_well busy_world 1 alice
         (cps "Solve 2x + 5 = 15")
       = (w', Ret (false, TooManyRequests))
       /\ events w' = events busy_world
       /\ response_cache w' = response_cache busy_world.
Proof.
  assert (H : rate_limiter busy_world !! user_id alice
              = Some [0; 1 * SECOND; 2 * SECOND; 3 * SECOND; 4 * SECOND])
    by (vm_compute; reflexivity).
  split; [exact H|].
  destruct (throttled_request_has_no_effect ascii_only answers_well busy_world
              1 alice (cps "Solve 2x + 5 = 15") _ H)
    as (w' & Hp & He & Hc & _).
  - vm_compute. discriminate.
  - exists w'. split; [exact Hp|]. split; [exact He | exact Hc].
Defined.

Lemma cache_set_keeps_lock env w q p :
  ResponseCache.lock (response_cache w) = false ->
  match cache_set env w q p with
  | Ret w' => ResponseCache.lock (response_cache w') = false
  | Raise _ => True
  | Diverge => False
  end.
Proof.
  intros Hl. unfold cache_set, ResponseCache.set.
  destruct (ResponseCache._hash_question q) as [h|]; [|exact I].
  rewrite save_cache_returns by exact Hl.
  match goal with
  | |- context [ResponseCache.save_cache_steps ?f ?x] =>
      pose proof (save_cache_steps_last f x) as (_ & Hlk & _)
  end.
  match goal with
  | |- context [emit_logs ?l ?x] =>
      destruct (emit_logs_fields l x) as (A & _)
  end.
  rewrite A. exact Hlk.
Qed.

Lemma attempt_loop_returns alnum env q : forall attempts_left w,
  ResponseCache.lock (response_cache w) = false ->
  exists w' r,
    attempt_loop alnum env q attempts_left w = (w', Ret r)
    /\ ResponseCache.lock (response_cache w') = false.
Proof.
  induction attempts_left as [|a rest IH]; intros w Hl.
  - exists w, None. now split.
  - assert (Hhandled : forall w1,
      ResponseCache.lock (response_cache w1) = false ->
      exists w' r,
        match on_backend_error a w1 with
        | (w2, None) => attempt_loop alnum env q rest w2
        | (w2, Some r) => (w2, r)
        end = (w', Ret r)
        /\ ResponseCache.lock (response_cache w') = false).
    { intros w1 Hl1. unfold on_backend_error. destruct (a <? _).
      - apply IH. exact Hl1.
      - eexists _, _. split; [reflexivity | exact Hl1]. }
    cbn [attempt_loop]. destruct (backend env a) as [|text].
    + apply Hhandled. exact Hl.
    + destruct (truthy text).
      * pose proof (cache_set_keeps_lock env
                      (emit (EvGenerate (prompt_of q)) w) q
                      (preprocess_math_text alnum text) Hl) as Hs.
        destruct (cache_set env _ q _) as [w'| |].
        -- eexists _, _. split; [reflexivity | exact Hs].
        -- apply Hhandled. exact Hl.
        -- destruct Hs.
      * apply IH. exact Hl.
Qed.

Lemma get_gemini_response_returns alnum env w q :
  ResponseCache.lock (response_cache w) = false ->
  exists w',
    ResponseCache.lock (response_cache w') = false
    /\ ((exists r, get_gemini_response alnum env w q = (w', Ret r))
        \/ get_gemini_response alnum env w q = (w', Raise UnicodeEncodeError)).
Proof.
  intros Hl. unfold get_gemini_response, ResponseCache.get.
  destruct (attempt_loop_returns alnum env q attempts w Hl) as (w' & r & E & Hl').
  destruct (ResponseCache._hash_question q) as [h|].
  - destruct (ResponseCache.cache (response_cache w) !! h) as [e|].
    + destruct (ResponseCache.fresh (clock w) e).
      * destruct (truthy (ResponseCache.response e)).
        -- eexists. split; [|left; eexists; reflexivity]. exact Hl.
        -- exists w'. split; [exact Hl'|]. left. now exists r.
      * exists w'. split; [exact Hl'|]. left. now exists r.
    + exists w'. split; [exact Hl'|]. left. now exists r.
  - exists w. split; [exact Hl|]. now right.
Qed.

Lemma deliver_returns alnum env w start chat_id user q r :
  exists w' res,
    deliver alnum env w start chat_id user q r = (w', res)
    /\ response_cache w' = response_cache w
    /\ match res with
       | Ret (success, status) =>
           success = true <-> exists elapsed, status = Generated elapsed
       | Raise _ => True
       | Diverge => False
       end.
Proof.
  unfold deliver, render_math_to_image, render_math_to_pdf.
  destruct (draw_image_ok env), (draw_pdf_ok env);
    try (eexists _, _; split; [reflexivity|]; split; [reflexivity | exact I]).
  destruct (save_question_to_json _ _ _ _ _ _ _) as [file logs].
  eexists _, _. split; [reflexivity|].
  match goal with
  | |- context [emit_logs ?l ?x] =>
      destruct (emit_logs_fields l x) as (A & _)
  end.
  split; [rewrite A; reflexivity|].
  destruct (send_photo_ok env && send_document_ok env); split;
    try discriminate; eauto.
  intros [e He]. discriminate.
Qed.

(** X14: no exception escapes [process_math_question]: an error of the
    backend, a fault of the cache file or of the question log, a drawing
    that raises, an upload that fails and a wait for the model client
    that runs out all end in a returned pair.  In a run in which every
    call of a collaborator returns, and from a world in which the lock of
    the cache is free, the request returns a status line, leaves the lock
    free, and reports success exactly with the status "Generated in
    ...".  The wait of 60 seconds does not bound the request: when the
    model client does not come back (here, because the lock of the cache
    is held), the request does not come back either, since leaving the
    [with] block waits for the worker. *)
Theorem no_exception_escapes_the_request alnum env w (chat_id : Z)
    (user : user_info) (q : str) :
  (forall e, snd (process_math_question alnum env w chat_id user q) <> Raise e)
  /\ (ResponseCache.lock (response_cache w) = false ->
      exists w' success status,
        process_math_question alnum env w chat_id user q
        = (w', Ret (success, status))
        /\ ResponseCache.lock (response_cache w') = false
        /\ (success = true <-> exists elapsed, status = Generated elapsed))
  /\ (allowed w user ->
      forall w2,
        get_gemini_response alnum env (started w chat_id user) q
        = (w2, Diverge) ->
        process_math_question alnum env w chat_id user q = (w2, Diverge)).
Proof.
  split; [|split].
  - intros e. unfold process_math_question.
    destruct (RateLimiter.check_rate_limit _ _ _) as [rl ok].
    destruct ok; cbn [negb snd]; [|discriminate].
    destruct (get_gemini_response _ _ _ _) as [w1 [r|e1|]]; cbn [snd];
      try discriminate.
    destruct (answered_in_time env); cbn [negb snd]; [|discriminate].
    destruct (unusable r); cbn [snd]; [discriminate|].
    destruct r as [r|]; cbn [snd]; [|discriminate].
    destruct (deliver _ _ _ _ _ _ _ _) as [w2 [x|e2|]]; cbn [snd];
      discriminate.
  - intros Hl. unfold process_math_question.
    destruct (RateLimiter.check_rate_limit _ _ _) as [rl ok].
    assert (Hno : forall st, (forall e, st <> Generated e) ->
              (false = true <-> exists elapsed, st = Generated elapsed)).
    { intros st H. split; [discriminate|]. intros [e He]. now apply H in He. }
    destruct ok; cbn [negb].
    2:{ eexists _, _, _. split; [reflexivity|]. split; [exact Hl|].
        apply Hno; discriminate. }
    destruct (get_gemini_response_returns alnum env
                (emit (EvSendChatAction chat_id) (with_rate_limiter rl w)) q Hl)
      as (w1 & Hl1 & [[r Hg] | Hg]); rewrite Hg.
    2:{ eexists _, _, _. split; [reflexivity|]. split; [exact Hl1|].
        apply Hno; discriminate. }
    destruct (answered_in_time env); cbn [negb].
    2:{ eexists _, _, _. split; [reflexivity|]. split; [exact Hl1|].
        apply Hno; discriminate. }
    destruct (unusable r) eqn:Hu.
    { eexists _, _, _. split; [reflexivity|]. split; [exact Hl1|].
      apply Hno; discriminate. }
    destruct r as [r|]; [|discriminate Hu].
    destruct (deliver_returns alnum env w1
                (clock (emit (EvSendChatAction chat_id)
                          (with_rate_limiter rl w)))
                chat_id user q r) as (w2 & res & Hd & Hc & Hres).
    rewrite Hd. destruct res as [[success status]|e|]; [| |destruct Hres].
    + eexists _, _, _. split; [reflexivity|].
      split; [now rewrite Hc | exact Hres].
    + eexists _, _, _. split; [reflexivity|]. split; [cbn; now rewrite Hc|].
      apply Hno; discriminate.
  - intros Hadm w2 Hget. unfold process_math_question.
    unfold allowed in Hadm. unfold started in Hget.
    destruct (RateLimiter.check_rate_limit _ _ _) as [rl ok].
    cbn [fst snd] in *. subst ok. cbn [negb]. rewrite Hget. reflexivity.
Qed.

Lemma no_exception_escapes_the_request_witness :
  (exists w' success status,
     process_math_question ascii_only always_failing fresh_world 1 alice
       (cps "1+1")
     = (w', Ret (success, status))
     /\ ResponseCache.lock (response_cache w') = false
     /\ (success = true <-> exists elapsed, status = Generated elapsed))
  /\ allowed locked_world alice
  /\ exists w2,
       process_math_question ascii_only answers_well locked_world 1 alice
         (cps "1+1") = (w2, Diverge).
Proof.
  assert (Ha : allowed locked_world alice) by (vm_compute; reflexivity).
  split; [|split; [exact Ha|]].
  - destruct (no_exception_escapes_the_request ascii_only always_failing
                fresh_world 1 alice (cps "1+1")) as (_ & Hret & _).
    exact (Hret eq_refl).
  - destruct (no_exception_escapes_the_request ascii_only answers_well
                locked_world 1 alice (cps "1+1")) as (_ & _ & Hwait).
    exists (fst (get_gemini_response ascii_only answers_well
                   (started locked_world 1 alice) (cps "1+1"))).
    apply (Hwait Ha). vm_compute. reflexivity.
Defined.

(** X15: when one of the two drawings raises, the request ends with the
    error status: nothing is delivered and nothing is written to the
    question log, although the answer is already in the cache the model
    client left. *)
Theorem render_failure_ends_the_request alnum env w (chat_id : Z)
    (user : user_info) (q : str) w2 (r : str) :
  allowed w user -> answered_in_time env = true ->
  get_gemini_response alnum env (started w chat_id user) q
  = (w2, Ret (Some r)) ->
  unusable (Some r) = false ->
  draw_image_ok env = false \/ draw_pdf_ok env = false ->
  exists w3,
    process_math_question alnum env w chat_id user q
    = (w3, Ret (false, ErrorOccurred))
    /\ events w3 = events w2 ++ [EvLog LogErrorProcessing]
    /\ question_log w3 = question_log w2
    /\ response_cache w3 = response_cache w2.
Proof.
  intros Hadm Htime Hget Hun Hdraw.
  rewrite (process_usable alnum env w chat_id user q Hadm Htime w2 r Hget Hun).
  unfold deliver, render_math_to_image, render_math_to_pdf.
  destruct Hdraw as [-> | ->]; [|destruct (draw_image_ok env)];
    (eexists; split; [reflexivity|]; cbn; repeat split).
Qed.

Lemma render_failure_ends_the_request_witness :
  allowed fresh_world alice
  /\ exists w3,
       process_math_question ascii_only page_not_drawn fresh_world 1 alice
         (cps "Solve 2x + 5 = 15")
       = (w3, Ret (false, ErrorOccurred))
       /\ question_log w3 = None
       /\ ResponseCache.get (response_cache w3) (cps "Solve 2x + 5 = 15") 0
          = Ret (Some good_answer).
Proof.
  assert (Ha : allowed fresh_world alice) by (vm_compute; reflexivity).
  assert (Hg : get_gemini_response ascii_only page_not_drawn
                 (started fresh_world 1 alice) (cps "Solve 2x + 5 = 15")
               = (answered_world, Ret (Some good_answer)))
    by (vm_compute; reflexivity).
  assert (Hu : unusable (Some good_answer) = false) by (vm_compute; reflexivity).
  split; [exact Ha|].
  destruct (render_failure_ends_the_request ascii_only page_not_drawn
              fresh_world 1 alice (cps "Solve 2x + 5 = 15") answered_world
              good_answer Ha eq_refl Hg Hu (or_intror eq_refl))
    as (w3 & Hp & _ & Hq & Hc).
  exists w3. split; [exact Hp|]. split.
  - rewrite Hq. vm_compute. reflexivity.
  - rewrite Hc. vm_compute. reflexivity.
Defined.

(** ** The same question again *)

Lemma deliver_sends_both alnum env w start chat_id user q r :
  draw_image_ok env = true -> draw_pdf_ok env = true ->
  exists w' success status logs,
    deliver alnum env w start chat_id user q r = (w', Ret (success, status))
    /\ events w'
       = events w
         ++ [ EvSendPhoto chat_id (Png (image_text alnum r));
              EvSendDocument chat_id (Pdf (pdf_text alnum r)) ]
         ++ List.map EvLog logs.
Proof.
  intros Hi Hp. unfold deliver, render_math_to_image, render_math_to_pdf.
  rewrite Hi, Hp.
  destruct (save_question_to_json _ _ _ _ _ _ _) as [file logs].
  eexists _, _, _, logs. split; [reflexivity|].
  rewrite events_emit_logs. cbn. now rewrite <- !app_assoc.
Qed.

Lemma unusable_false_truthy r : unusable (Some r) = false -> truthy r = true.
Proof.
  cbn. intros H. apply orb_false_iff in H as [H _].
  now apply negb_false_iff in H.
Qed.

(** X16: once a question got a usable answer from the backend, the same
    question submitted again while the entry is younger than 7 days is
    answered from the cache: the backend is not called, and the photo and
    the document that are sent show the answer stored the first time. *)
Theorem second_submission_is_served_from_cache alnum env w (chat_id : Z)
    (user : user_info) (q text h : str) :
  allowed w user -> answered_in_time env = true ->
  cache_miss w q ->
  ResponseCache.lock (response_cache w) = false ->
  ResponseCache._hash_question q = Some h ->
  backend env 0 = BackendText text -> truthy text = true ->
  unusable (Some (preprocess_math_text alnum text)) = false ->
  exists w1 res1,
    process_math_question alnum env w chat_id user q = (w1, res1)
    /\ (forall env2 w2 chat_id2 user2,
          response_cache w2 = response_cache w1 ->
          clock w2 - clock w < CACHE_EXPIRY_DAYS * DAY ->
          allowed w2 user2 -> answered_in_time env2 = true ->
          draw_image_ok env2 = true -> draw_pdf_ok env2 = true ->
          exists w3 success status,
            process_math_question alnum env2 w2 chat_id2 user2 q
            = (w3, Ret (success, status))
            /\ generate_calls (events w3) = generate_calls (events w2)
            /\ List.filter is_delivery (events w3)
               = List.filter is_delivery (events w2)
                 ++ [ EvSendPhoto chat_id2
                        (Png (image_text alnum
                                (preprocess_math_text alnum text)));
                      EvSendDocument chat_id2
                        (Pdf (pdf_text alnum
                                (preprocess_math_text alnum text))) ]).
Proof.
  intros Hadm Htime Hmiss Hl Hh Hb Ht Hun.
  set (p := preprocess_math_text alnum text) in *.
  destruct (get_gemini_response_first_text alnum env
              (started w chat_id user) q text h
              (cache_miss_started w chat_id user q Hmiss) Hl Hh Hb Ht)
    as (w1 & Hget & Hc & _).
  fold p in Hget, Hc.
  change (clock (started w chat_id user)) with (clock w) in Hc.
  change (response_cache (started w chat_id user)) with (response_cache w)
    in Hc.
  destruct (deliver_returns alnum env w1 (clock w) chat_id user q p)
    as (wd & resd & Hd & Hcd & _).
  assert (Hfirst : exists wf resf,
            process_math_question alnum env w chat_id user q = (wf, resf)
            /\ response_cache wf = response_cache w1).
  { rewrite (process_usable alnum env w chat_id user q Hadm Htime w1 p Hget Hun).
    rewrite Hd. destruct resd as [x|e|].
    - exists wd, (Ret x). split; [reflexivity | exact Hcd].
    - eexists _, _. split; [reflexivity|]. exact Hcd.
    - exists wd, Diverge. split; [reflexivity | exact Hcd]. }
  destruct Hfirst as (wf & resf & Hpf & Hcf).
  exists wf, resf. split; [exact Hpf|].
  intros env2 w2 chat_id2 user2 Hrc Hage Hadm2 Htime2 Hi2 Hp2.
  set (e := {| ResponseCache.response := p;
               ResponseCache.timestamp := clock w |}).
  assert (He : ResponseCache.cache (response_cache w2) !! h = Some e)
    by (rewrite Hrc, Hcf, Hc; apply lookup_insert_eq).
  assert (Hf : ResponseCache.fresh (clock w2) e = true)
    by (apply fresh_within; exact Hage).
  pose proof (served_from_cache alnum env2 w2 chat_id2 user2 q h e
                Hadm2 Htime2 Hh He Hf (unusable_false_truthy p Hun)) as Hget2.
  cbn [ResponseCache.response e] in Hget2.
  rewrite (process_usable alnum env2 w2 chat_id2 user2 q Hadm2 Htime2 _ p
             Hget2 Hun).
  destruct (deliver_sends_both alnum env2
              (emit (EvLog LogServingFromCache) (started w2 chat_id2 user2))
              (clock w2) chat_id2 user2 q p Hi2 Hp2)
    as (w3 & success & status & logs & Hd2 & Hev).
  rewrite Hd2. exists w3, success, status. split; [reflexivity|].
  destruct (logs_cost_nothing logs) as (G0 & _ & D0).
  rewrite Hev. cbn [emit started events with_rate_limiter].
  rewrite !generate_calls_app, G0, !List.filter_app, D0. cbn.
  split; [lia|]. now rewrite !app_nil_r.
Qed.

Lemma second_submission_is_served_from_cache_witness :
  allowed fresh_world alice
  /\ cache_miss fresh_world (cps "Solve 2x + 5 = 15")
  /\ allowed answered_once alice
  /\ exists w3 success status,
       process_math_question ascii_only answers_well answered_once 1 alice
         (cps "Solve 2x + 5 = 15")
       = (w3, Ret (success, status))
       /\ generate_calls (events w3) = 1%nat.
Proof.
  assert (Ha : allowed fresh_world alice) by (vm_compute; reflexivity).
  assert (Hm : cache_miss fresh_world (cps "Solve 2x + 5 = 15"))
    by (left; vm_compute; reflexivity).
  assert (Hh : ResponseCache._hash_question (cps "Solve 2x + 5 = 15")
               = Some (cps "cc9070d86677c15fa53c790e5b9cc634"))
    by (vm_compute; reflexivity).
  assert (Hu : unusable (Some (preprocess_math_text ascii_only good_answer))
               = false) by (vm_compute; reflexivity).
  assert (Ha1 : allowed answered_once alice) by (vm_compute; reflexivity).
  assert (Hage : clock answered_once - clock fresh_world
                 < CACHE_EXPIRY_DAYS * DAY) by (vm_compute; reflexivity).
  assert (Hg1 : generate_calls (events answered_once) = 1%nat)
    by (vm_compute; reflexivity).
  split; [exact Ha|]. split; [exact Hm|]. split; [exact Ha1|].
  destruct (second_submission_is_served_from_cache ascii_only answers_well
              fresh_world 1 alice (cps "Solve 2x + 5 = 15") good_answer
              (cps "cc9070d86677c15fa53c790e5b9cc634")
              Ha eq_refl Hm eq_refl Hh eq_refl eq_refl Hu)
    as (w1 & res1 & Hrun & Hagain).
  assert (E : w1 = answered_once) by (unfold answered_once; now rewrite Hrun).
  subst w1.
  destruct (Hagain answers_well answered_once 1 alice eq_refl Hage Ha1
              eq_refl eq_refl eq_refl)
    as (w3 & success & status & Hp & Hg & _).
  exists w3, success, status. split; [exact Hp|]. now rewrite Hg.
Defined.

(** ** The question log *)

(** X17: the response written to the question log is the response itself
    when it has at most 1000 characters, and otherwise its first 1000
    characters followed by three dots, 1003 characters in all; the
    recorded length is always that of the whole response. *)
Theorem logged_response_is_capped (now chat_id : Z) (user : user_info)
    (q r : str) :
  let e := entry_of now chat_id user q r in
  log_response_length e = len r
  /\ (len r <= 1000 -> log_response e = Some r)
  /\ (1000 < len r ->
      log_response e = Some (firstn 1000 r ++ cps "...")
      /\ exists t, log_response e = Some t /\ len t = 1003).
Proof.
  cbn zeta. cbn [entry_of log_response_length log_response
                 logged_response logged_length].
  split; [destruct r; reflexivity|]. split.
  - intros H. apply Z.ltb_ge in H. rewrite H, andb_false_r. reflexivity.
  - intros H. assert (Ht : truthy r = true)
      by (destruct r; [unfold len in H; cbn in H; lia | reflexivity]).
    pose proof H as H'. apply Z.ltb_lt in H'. rewrite Ht, H'. cbn [andb].
    split; [reflexivity|]. eexists. split; [reflexivity|].
    unfold len in *. rewrite List.length_app, List.length_firstn.
    cbn [cps List.map list_ascii_of_string List.length]. lia.
Qed.

(** X18: [save_question_to_json] rewrites the log in place.  If the log
    parses after the call, it is the log as it was, either with the one
    new entry at the end or unchanged with an error logged.  A file
    that cannot be read or cannot be opened for writing is left exactly
    as it was, an error is logged and the entry is lost; in particular a
    log that does not parse is never repaired.  A dump that fails after
    the file was opened for writing leaves a text that does not parse.
    Without a fault, a log that is absent or parses gets the entry
    appended. *)
Theorem question_log_is_append_only (fault : log_fault)
    (file : option log_file) (now chat_id : Z) (user : user_info)
    (q r : str) :
  let res := save_question_to_json fault file now chat_id user q (Some r) in
  (forall l', fst res = Some (LogEntries l') ->
     exists l, (file = None /\ l = [] \/ file = Some (LogEntries l))
               /\ (l' = l ++ [entry_of now chat_id user q r] /\ snd res = []
                   \/ l' = l /\ snd res = [LogErrorSavingQuestion]))
  /\ (file = Some LogTorn ->
      fst res = Some LogTorn /\ snd res = [LogErrorSavingQuestion])
  /\ (fault = LogReadFails -> file <> None ->
      fst res = file /\ snd res = [LogErrorSavingQuestion])
  /\ (fault = LogOpenFails ->
      fst res = file /\ snd res = [LogErrorSavingQuestion])
  /\ (fault = LogWriteFails ->
      fst res = Some LogTorn /\ snd res = [LogErrorSavingQuestion])
  /\ (fault = LogNoFault -> file <> Some LogTorn ->
      exists l, (file = None /\ l = [] \/ file = Some (LogEntries l))
                /\ res = (Some (LogEntries (l ++ [entry_of now chat_id user q r])),
                          [])).
Proof.
  cbn zeta. unfold save_question_to_json. fold (entry_of now chat_id user q r).
  split; [|split; [|split; [|split; [|split]]]].
  - intros l'. destruct file as [[l|]|]; destruct fault; cbn;
      intros [= <-];
      solve [ exists l; split; [right; reflexivity|]; left; split; reflexivity
            | exists l; split; [right; reflexivity|]; right; split; reflexivity
            | exists []; split; [left; split; reflexivity|]; left; split;
              reflexivity ].
  - intros ->. split; reflexivity.
  - intros -> Hn. destruct file as [[l|]|]; [| |congruence]; split; reflexivity.
  - intros ->. destruct file as [[l|]|]; split; reflexivity.
  - intros ->. destruct file as [[l|]|]; split; reflexivity.
  - intros -> Hn. destruct file as [[l|]|]; [| congruence |].
    + exists l. split; [right; reflexivity | reflexivity].
    + exists []. split; [left; split; reflexivity | reflexivity].
Qed.

Lemma question_log_is_append_only_witness :
  (fst (save_question_to_json LogOpenFails (Some (LogEntries [])) 0 1 alice
          (cps "1+1") (Some good_answer)) = Some (LogEntries [])
   /\ snd (save_question_to_json LogOpenFails (Some (LogEntries [])) 0 1 alice
             (cps "1+1") (Some good_answer)) = [LogErrorSavingQuestion])
  /\ fst (save_question_to_json LogWriteFails (Some (LogEntries [])) 0 1 alice
            (cps "1+1") (Some good_answer)) = Some LogTorn.
Proof.
  split.
  - destruct (question_log_is_append_only LogOpenFails (Some (LogEntries []))
                0 1 alice (cps "1+1") good_answer)
      as (_ & _ & _ & Hopen & _).
    exact (Hopen eq_refl).
  - destruct (question_log_is_append_only LogWriteFails
                (Some (LogEntries [])) 0 1 alice (cps "1+1") good_answer)
      as (_ & _ & _ & _ & Hdump & _).
    exact (proj1 (Hdump eq_refl)).
Defined.

(** ** The lines of the image *)

Lemma firstn_add (a b : nat) (l : str) :
  firstn (a + b) l = firstn a l ++ firstn b (skipn a l).
Proof.
  revert l. induction a as [|a IH]; intros l; [reflexivity|].
  destruct l as [|x l]; cbn; [now rewrite List.firstn_nil|].
  now rewrite IH.
Qed.

Lemma chunks_concat (w : nat) (l : str) (n : nat) :
  concat (List.map (fun i => slice l i (i + w))
            (List.map (fun k => (k * w)%nat) (seq 0 n)))
  = firstn (n * w) l.
Proof.
  induction n as [|n IH]; [reflexivity|].
  rewrite List.seq_S, !List.map_app, List.concat_app, IH. cbn [List.map concat].
  rewrite app_nil_r. unfold slice.
  cbn [Nat.add]. replace (n * w + w - n * w)%nat with w by lia.
  replace (S n * w)%nat with (n * w + w)%nat by lia.
  symmetry. apply firstn_add.
Qed.

Lemma wrap_line_concat line : concat (wrap_line line) = line.
Proof.
  unfold wrap_line. destruct (WRAP_WIDTH <? List.length line)%nat;
    [|cbn; apply app_nil_r].
  unfold range_step. rewrite chunks_concat. apply List.firstn_all2.
  unfold WRAP_WIDTH.
  pose proof (Nat.div_mod_eq (List.length line + 80 - 1) 80).
  pose proof (Nat.mod_upper_bound (List.length line + 80 - 1) 80). lia.
Qed.

Lemma split_lines_concat s :
  concat (split_lines s) = List.filter not_newline s.
Proof.
  induction s as [|c s IH]; [reflexivity|]. cbn [split_lines List.filter].
  unfold not_newline at 1. destruct (c =? 10); cbn [negb].
  - exact IH.
  - destruct (split_lines s) as [|l ls]; cbn in *; now rewrite <- IH.
Qed.

Lemma join_lines_filter ls :
  List.filter not_newline (join_lines ls)
  = List.filter not_newline (concat ls).
Proof.
  destruct ls as [|l ls]; [reflexivity|]. cbn [join_lines concat].
  rewrite !List.filter_app. f_equal.
  induction ls as [|l' ls IH]; [reflexivity|]. cbn [flat_map concat].
  rewrite !List.filter_app, IH. reflexivity.
Qed.

Lemma wrapped_lines_concat text :
  concat (wrapped_lines text) = concat (split_lines text).
Proof.
  unfold wrapped_lines. induction (split_lines text) as [|l ls IH];
    [reflexivity|].
  cbn [flat_map concat]. now rewrite List.concat_app, wrap_line_concat, IH.
Qed.

(** X19: the wrapping of the image renderer loses nothing: the pieces of
    a line put together give the line back, and the text laid out on the
    image is the normalized text with line breaks added, the same
    characters in the same order. *)
Theorem image_wrapping_keeps_the_text alnum (math_text line : str) :
  concat (wrap_line line) = line
  /\ List.filter not_newline (image_text alnum math_text)
     = List.filter not_newline (preprocess_math_text alnum math_text).
Proof.
  split; [apply wrap_line_concat|].
  unfold image_text.
  rewrite join_lines_filter, wrapped_lines_concat, split_lines_concat.
  induction (preprocess_math_text alnum math_text) as [|c s IH];
    [reflexivity|].
  cbn [List.filter]. destruct (not_newline c) eqn:E; [|exact IH].
  cbn [List.filter]. now rewrite E, IH.
Qed.

Lemma split_lines_plain l : no_newline l -> split_lines l = [l].
Proof.
  induction 1 as [|c l Hc _ IH]; [reflexivity|]. cbn [split_lines].
  apply Z.eqb_neq in Hc. now rewrite Hc, IH.
Qed.

Lemma split_lines_break l rest :
  no_newline l -> split_lines (l ++ 10 :: rest) = l :: split_lines rest.
Proof.
  induction 1 as [|c l Hc _ IH]; [reflexivity|]. cbn [app split_lines].
  apply Z.eqb_neq in Hc. now rewrite Hc, IH.
Qed.

Lemma split_join ls :
  ls <> [] -> Forall no_newline ls -> split_lines (join_lines ls) = ls.
Proof.
  intros Hne H. induction H as [|l ls Hl Hls IH]; [congruence|].
  destruct ls as [|l2 ls2].
  - cbn. rewrite app_nil_r. now apply split_lines_plain.
  - change (join_lines (l :: l2 :: ls2))
      with (l ++ 10 :: join_lines (l2 :: ls2)).
    rewrite split_lines_break by exact Hl. f_equal. now apply IH.
Qed.

Lemma split_lines_no_newline s :
  split_lines s <> [] /\ Forall no_newline (split_lines s).
Proof.
  induction s as [|c s [Hne IH]]; cbn [split_lines].
  - split; [discriminate | repeat constructor].
  - destruct (Z.eqb_spec c 10) as [->|Hc].
    + split; [discriminate|]. constructor; [constructor | exact IH].
    + destruct (split_lines s) as [|l ls]; [congruence|].
      split; [discriminate|].
      apply List.Forall_cons_iff in IH as [Hl Hls].
      constructor; [constructor; assumption | exact Hls].
Qed.

Lemma wrap_line_no_newline line :
  no_newline line -> wrap_line line <> [] /\ Forall no_newline (wrap_line line).
Proof.
  intros Hl. unfold wrap_line.
  destruct (WRAP_WIDTH <? List.length line)%nat eqn:E.
  - split.
    + unfold range_step. apply Nat.ltb_lt in E. unfold WRAP_WIDTH in *.
      assert (1 <= (List.length line + 80 - 1) / 80)%nat
        by (apply Nat.div_le_lower_bound; lia).
      destruct ((List.length line + 80 - 1) / 80)%nat; [lia | discriminate].
    + apply List.Forall_forall. intros c Hin. apply List.in_map_iff in Hin.
      destruct Hin as (i & <- & _). unfold slice, no_newline.
      apply Forall_take, Forall_drop. exact Hl.
  - split; [discriminate | repeat constructor; exact Hl].
Qed.

Lemma wrapped_lines_no_newline text :
  wrapped_lines text <> [] /\ Forall no_newline (wrapped_lines text).
Proof.
  unfold wrapped_lines.
  destruct (split_lines_no_newline text) as [Hne H].
  induction H as [|l ls Hl Hls IH]; [congruence|]. cbn [flat_map].
  destruct (wrap_line_no_newline l Hl) as [Hw HwF]. split.
  - destruct (wrap_line l); [congruence | discriminate].
  - apply List.Forall_app. split; [exact HwF|].
    destruct ls as [|l2 ls2]; [constructor|]. apply IH. discriminate.
Qed.

(** X20: the text the image renderer lays out, read line by line, is the
    list of wrapped lines, and none of its lines has more than 80
    characters. *)
Theorem image_lines_fit_the_width alnum (math_text : str) :
  split_lines (image_text alnum math_text)
  = wrapped_lines (preprocess_math_text alnum math_text)
  /\ Forall (fun l => (List.length l <= WRAP_WIDTH)%nat)
       (split_lines (image_text alnum math_text)).
Proof.
  assert (E : split_lines (image_text alnum math_text)
              = wrapped_lines (preprocess_math_text alnum math_text)).
  { unfold image_text.
    destruct (wrapped_lines_no_newline
                (preprocess_math_text alnum math_text)) as [Hne H].
    now apply split_join. }
  split; [exact E|]. rewrite E. apply image_lines_wrapped.
Qed.

(** ** The dispatch loop *)

Lemma strip_keeps_head x s :
  is_space x = false -> exists t, strip (x :: s) = x :: t.
Proof.
  intros Hx. unfold strip. cbn [lstrip]. rewrite Hx. unfold rstrip.
  cbn [rev]. rewrite lstrip_snoc by exact Hx. rewrite rev_app_distr.
  cbn. eauto.
Qed.

Lemma send_message_nonblank r chat_id text reply_markup :
  truthy (strip text) = true ->
  send_message r chat_id text reply_markup None (cps "MarkdownV2")
  = ([ {| sent_chat_id := chat_id;
          sent_text := escape_markdown_v2 (firstn MAX_MESSAGE_LENGTH text);
          sent_parse_mode := cps "MarkdownV2";
          sent_reply_markup := reply_markup;
          sent_reply_to := None |} ], reply_ok r).
Proof. unfold send_message. intros ->. reflexivity. Qed.

Lemma command_answer_not_blank text :
  truthy (strip (fst (command_answer text))) = true.
Proof.
  unfold command_answer.
  repeat (destruct (str_eqb text _); [vm_compute; reflexivity|]).
  vm_compute. reflexivity.
Qed.

Lemma startswith_slash_truthy text :
  startswith (cps "/") text = true -> truthy text = true.
Proof. destruct text; [discriminate | reflexivity]. Qed.

(** X21: a message whose trimmed text begins with a slash is answered
    with exactly one message (the keyboard goes with the answer to
    [/start] only) and never reaches the rate limiter, the cache, the
    backend or the question log: the world is left as it was, and the
    cursor moves past the update. *)
Theorem commands_bypass_the_model alnum fmt ue d (u : update) (m : message)
    (user : user_info) :
  upd_message u = Some m -> sender m = Some user ->
  startswith (cps "/") (text_of m) = true ->
  exists msg d',
    process_update alnum fmt ue d u = (d', Ret tt)
    /\ world d' = world d
    /\ offset d' = Some (update_id u + 1)
    /\ outbox d' = outbox d ++ [msg]
    /\ sent_chat_id msg = msg_chat_id m
    /\ sent_text msg
       = escape_markdown_v2
           (firstn MAX_MESSAGE_LENGTH (fst (command_answer (text_of m))))
    /\ sent_reply_markup msg
       = (if str_eqb (text_of m) (cps "/start")
          then Some create_keyboard_markup else None).
Proof.
  intros Hm Hs Hc. unfold process_update. rewrite Hm, Hs.
  fold (text_of m). rewrite (startswith_slash_truthy _ Hc), Hc. cbn [negb].
  pose proof (command_answer_not_blank (text_of m)) as Hnb.
  destruct (command_answer (text_of m)) as [body mk] eqn:Ec. cbn [fst] in Hnb.
  rewrite (send_message_nonblank _ _ _ _ Hnb). cbn [fst].
  eexists _, _. split; [reflexivity|].
  cbn [world offset outbox post with_offset sent_chat_id sent_text
       sent_reply_markup].
  do 5 (split; [reflexivity|]).
  unfold command_answer in Ec.
  destruct (str_eqb (text_of m) (cps "/start"));
    [injection Ec as _ <-; reflexivity|].
  repeat (destruct (str_eqb (text_of m) _);
          [injection Ec as _ <-; reflexivity|]).
  injection Ec as _ <-. reflexivity.
Qed.

Lemma commands_bypass_the_model_witness :
  exists msg d',
    process_update ascii_only plain_elapsed quiet fresh_dispatcher help_update
    = (d', Ret tt)
    /\ world d' = fresh_world
    /\ offset d' = Some 101
    /\ outbox d' = [msg]
    /\ sent_reply_markup msg = None.
Proof.
  destruct (commands_bypass_the_model ascii_only plain_elapsed quiet
              fresh_dispatcher help_update
              {| msg_chat_id := 1; msg_text := Some (cps " /help ");
                 msg_from := Some alice |} alice eq_refl eq_refl eq_refl)
    as (msg & d' & Hp & Hw & Ho & Hb & _ & _ & Hk).
  exists msg, d'. split; [exact Hp|]. split; [exact Hw|].
  split; [exact Ho|]. split; [exact Hb|]. exact Hk.
Defined.

(** X22: an update without a message, without a sender with a non-zero
    identifier, or whose text is missing or blank has no effect but on
    the cursor, which moves past it: no message is sent and the world is
    not touched. *)
Theorem malformed_updates_only_move_the_cursor alnum fmt ue d (u : update) :
  upd_message u = None
  \/ (exists m, upd_message u = Some m
                /\ (sender m = None \/ truthy (text_of m) = false)) ->
  process_update alnum fmt ue d u
  = (with_offset (Some (update_id u + 1)) d, Ret tt).
Proof.
  unfold process_update.
  intros [-> | (m & -> & [Hs | Ht])]; [reflexivity | now rewrite Hs |].
  destruct (sender m); [|reflexivity]. fold (text_of m). now rewrite Ht.
Qed.

Lemma malformed_updates_only_move_the_cursor_witness :
  process_update ascii_only plain_elapsed quiet fresh_dispatcher
    anonymous_update
  = (with_offset (Some 103) fresh_dispatcher, Ret tt).
Proof.
  apply (malformed_updates_only_move_the_cursor ascii_only plain_elapsed quiet
           fresh_dispatcher anonymous_update).
  right. eexists. split; [reflexivity|]. left. reflexivity.
Defined.

Lemma process_math_question_total alnum env w chat_id user q :
  ResponseCache.lock (response_cache w) = false ->
  exists w' res,
    process_math_question alnum env w chat_id user q = (w', Ret res)
    /\ ResponseCache.lock (response_cache w') = false.
Proof.
  intros Hl. unfold process_math_question.
  destruct (RateLimiter.check_rate_limit _ _ _) as [rl ok].
  destruct ok; cbn [negb];
    [|eexists _, _; split; [reflexivity | exact Hl]].
  destruct (get_gemini_response_returns alnum env
              (emit (EvSendChatAction chat_id) (with_rate_limiter rl w)) q Hl)
    as (w1 & Hl1 & [[r Hg] | Hg]); rewrite Hg;
    [|eexists _, _; split; [reflexivity | exact Hl1]].
  destruct (answered_in_time env); cbn [negb];
    [|eexists _, _; split; [reflexivity | exact Hl1]].
  destruct (unusable r) eqn:Hu;
    [eexists _, _; split; [reflexivity | exact Hl1]|].
  destruct r as [r|]; [|discriminate Hu].
  destruct (deliver_returns alnum env w1
              (clock (emit (EvSendChatAction chat_id) (with_rate_limiter rl w)))
              chat_id user q r) as (w2 & res & Hd & Hc & Hres).
  rewrite Hd. destruct res as [x|e|]; [| |destruct Hres].
  - eexists _, _. split; [reflexivity|]. now rewrite Hc.
  - eexists _, _. split; [reflexivity|]. cbn. now rewrite Hc.
Qed.

Lemma escaped_check_mark_not_blank rest :
  truthy (strip (escape_markdown_v2 (9989 :: rest))) = true.
Proof.
  rewrite escape_as_flat_map. cbn [flat_map].
  change (escape_char 9989) with [9989]. cbn [app].
  destruct (strip_keeps_head 9989 (flat_map escape_char rest) eq_refl)
    as [t Ht].
  now rewrite Ht.
Qed.

Lemma status_text_not_blank fmt status :
  truthy (strip (escape_markdown_v2 (status_text fmt status))) = true.
Proof.
  destruct status; try (vm_compute; reflexivity).
  exact (escaped_check_mark_not_blank
           (cps " Generated in " ++ fmt elapsed ++ cps "s" ++ [10]
            ++ cps "_Ask another question!_")).
Qed.

(** X23: a text that is not a command is handed to
    [process_math_question] and, when the lock of the cache is free,
    answered with exactly one message: the status line, escaped once by
    the loop and once more by [send_message], which also cuts it to 4000
    characters in between. *)
Theorem question_gets_one_status_message alnum fmt ue d (u : update)
    (m : message) (user : user_info) :
  upd_message u = Some m -> sender m = Some user ->
  truthy (text_of m) = true ->
  startswith (cps "/") (text_of m) = false ->
  ResponseCache.lock (response_cache (world d)) = false ->
  exists w' success status msg d',
    process_math_question alnum (request_env ue) (world d) (msg_chat_id m)
      user (text_of m) = (w', Ret (success, status))
    /\ process_update alnum fmt ue d u = (d', Ret tt)
    /\ world d' = w'
    /\ offset d' = Some (update_id u + 1)
    /\ outbox d' = outbox d ++ [msg]
    /\ sent_chat_id msg = msg_chat_id m
    /\ sent_text msg
       = escape_markdown_v2
           (firstn MAX_MESSAGE_LENGTH
              (escape_markdown_v2 (status_text fmt status))).
Proof.
  intros Hm Hs Ht Hc Hl. unfold process_update. rewrite Hm, Hs.
  fold (text_of m). rewrite Ht, Hc. cbn [negb with_offset world].
  destruct (process_math_question_total alnum (request_env ue) (world d)
              (msg_chat_id m) user (text_of m) Hl)
    as (w' & [success status] & Hp & _).
  rewrite Hp.
  rewrite (send_message_nonblank _ _ _ _ (status_text_not_blank fmt status)).
  eexists w', success, status, _, _. split; [reflexivity|].
  split; [reflexivity|]. cbn. repeat split.
Qed.

Lemma question_gets_one_status_message_witness :
  exists w' success status msg d',
    process_math_question ascii_only always_failing fresh_world 1 alice
      (cps "1+1") = (w', Ret (success, status))
    /\ process_update ascii_only plain_elapsed quiet fresh_dispatcher
         question_update = (d', Ret tt)
    /\ outbox d' = [msg]
    /\ sent_text msg
       = escape_markdown_v2
           (firstn MAX_MESSAGE_LENGTH
              (escape_markdown_v2 (status_text plain_elapsed status))).
Proof.
  destruct (question_gets_one_status_message ascii_only plain_elapsed quiet
              fresh_dispatcher question_update
              {| msg_chat_id := 1; msg_text := Some (cps "1+1");
                 msg_from := Some alice |} alice
              eq_refl eq_refl eq_refl eq_refl eq_refl)
    as (w' & success & status & msg & d' & Hp & Hu & _ & _ & Hb & _ & Ht).
  exists w', success, status, msg, d'.
  split; [exact Hp|]. split; [exact Hu|]. split; [exact Hb | exact Ht].
Defined.

(** ** Requests without a usable answer *)

Lemma deliveries_emit e w :
  is_delivery e = false -> deliveries (emit e w) = deliveries w.
Proof.
  intros H. unfold deliveries. cbn [emit events].
  rewrite List.filter_app. cbn [List.filter]. rewrite H. apply app_nil_r.
Qed.

Lemma cache_set_sends_nothing env w q p w' :
  cache_set env w q p = Ret w' ->
  deliveries w' = deliveries w /\ question_log w' = question_log w.
Proof.
  unfold cache_set. destruct (ResponseCache.set _ _ _ _ _) as [[rc logs]| |];
    [|discriminate..].
  intros [= <-]. unfold deliveries.
  rewrite events_emit_logs, List.filter_app.
  destruct (logs_cost_nothing logs) as (_ & _ & ->). rewrite app_nil_r.
  destruct (emit_logs_fields logs (with_response_cache rc w))
    as (_ & _ & -> & _).
  split; reflexivity.
Qed.

Lemma attempt_loop_sends_nothing alnum env q : forall attempts_left w,
  deliveries (fst (attempt_loop alnum env q attempts_left w)) = deliveries w
  /\ question_log (fst (attempt_loop alnum env q attempts_left w))
     = question_log w.
Proof.
  induction attempts_left as [|a rest IH]; intros w; [split; reflexivity|].
  assert (Hhandled : forall w1,
    deliveries w1 = deliveries w -> question_log w1 = question_log w ->
    deliveries (fst (match on_backend_error a w1 with
                     | (w2, None) => attempt_loop alnum env q rest w2
                     | (w2, Some r) => (w2, r)
                     end)) = deliveries w
    /\ question_log (fst (match on_backend_error a w1 with
                          | (w2, None) => attempt_loop alnum env q rest w2
                          | (w2, Some r) => (w2, r)
                          end)) = question_log w).
  { intros w1 Hd Hq. unfold on_backend_error. destruct (a <? _).
    - match goal with
      | |- context [attempt_loop alnum env q rest ?w2] =>
          destruct (IH w2) as [A B]
      end.
      rewrite A, B. split; [|exact Hq].
      rewrite <- Hd. unfold deliveries. cbn [sleep emit events].
      rewrite !List.filter_app. cbn [List.filter is_delivery].
      now rewrite !app_nil_r.
    - cbn [fst]. rewrite deliveries_emit by reflexivity.
      split; [exact Hd | exact Hq]. }
  cbn [attempt_loop]. destruct (backend env a) as [|text].
  - apply Hhandled; [apply deliveries_emit; reflexivity | reflexivity].
  - destruct (truthy text).
    + destruct (cache_set env _ q _) as [w'| |] eqn:Es.
      * apply cache_set_sends_nothing in Es as [A B]. cbn [fst].
        rewrite A, B.
        split; [apply deliveries_emit; reflexivity | reflexivity].
      * apply Hhandled; [apply deliveries_emit; reflexivity | reflexivity].
      * cbn [fst].
        split; [apply deliveries_emit; reflexivity | reflexivity].
    + match goal with
      | |- context [attempt_loop alnum env q rest ?w2] =>
          destruct (IH w2) as [A B]
      end.
      rewrite A, B.
      split; [apply deliveries_emit; reflexivity | reflexivity].
Qed.

Lemma get_gemini_response_sends_nothing alnum env w q :
  deliveries (fst (get_gemini_response alnum env w q)) = deliveries w
  /\ question_log (fst (get_gemini_response alnum env w q)) = question_log w.
Proof.
  unfold get_gemini_response.
  destruct (ResponseCache.get _ _ _) as [[r|]| |]; cbn [fst];
    try (split; reflexivity); try apply attempt_loop_sends_nothing.
  destruct (truthy r); [|apply attempt_loop_sends_nothing].
  cbn [fst]. split; [apply deliveries_emit; reflexivity | reflexivity].
Qed.

Lemma fixed_status_sent fmt :
  escape_markdown_v2
    (firstn MAX_MESSAGE_LENGTH
       (escape_markdown_v2 (status_text fmt CouldNotGenerate)))
  = could_not_generate_sent
  /\ escape_markdown_v2
       (firstn MAX_MESSAGE_LENGTH
          (escape_markdown_v2 (status_text fmt ErrorOccurred)))
     = error_occurred_sent.
Proof. split; vm_compute; reflexivity. Qed.

Lemma status_is_sent alnum fmt ue d u m user w2 success status :
  upd_message u = Some m -> sender m = Some user ->
  truthy (text_of m) = true -> startswith (cps "/") (text_of m) = false ->
  process_math_question alnum (request_env ue) (world d) (msg_chat_id m)
    user (text_of m) = (w2, Ret (success, status)) ->
  process_update alnum fmt ue d u
  = (post [status_request (msg_chat_id m)
             (escape_markdown_v2
                (firstn MAX_MESSAGE_LENGTH
                   (escape_markdown_v2 (status_text fmt status))))]
       (with_world w2 (with_offset (Some (update_id u + 1)) d)), Ret tt).
Proof.
  intros Hm Hs Ht Hc Hp. unfold process_update. rewrite Hm, Hs.
  fold (text_of m). rewrite Ht, Hc. cbn [negb with_offset world].
  rewrite Hp.
  rewrite (send_message_nonblank _ _ _ _ (status_text_not_blank fmt status)).
  reflexivity.
Qed.

Section NoUsableAnswer.

Variables (alnum : Z -> bool) (fmt : Z -> str).
Variables (ue : UpdateEnv) (d : Dispatcher) (u : update) (m : message).
Variable user : user_info.
Hypothesis Hm : upd_message u = Some m.
Hypothesis Hs : sender m = Some user.
Hypothesis Ht : truthy (text_of m) = true.
Hypothesis Hc : startswith (cps "/") (text_of m) = false.
Hypothesis Hallowed : allowed (world d) user.
Hypothesis Hin_time : answered_in_time (request_env ue) = true.

Lemma unusable_answer_is_told w2 response :
  get_gemini_response alnum (request_env ue)
    (started (world d) (msg_chat_id m) user) (text_of m)
  = (w2, Ret response) ->
  unusable response = true ->
  process_math_question alnum (request_env ue) (world d) (msg_chat_id m)
    user (text_of m) = (w2, Ret (false, CouldNotGenerate))
  /\ process_update alnum fmt ue d u
     = (post [status_request (msg_chat_id m) could_not_generate_sent]
          (with_world w2 (with_offset (Some (update_id u + 1)) d)), Ret tt)
  /\ deliveries w2 = deliveries (world d)
  /\ question_log w2 = question_log (world d).
Proof.
  intros Hget Hun.
  pose proof (process_unusable alnum (request_env ue) (world d)
                (msg_chat_id m) user (text_of m) Hallowed Hin_time
                w2 response Hget Hun) as Hp.
  split; [exact Hp|]. split.
  - rewrite (status_is_sent alnum fmt ue d u m user w2 false CouldNotGenerate
               Hm Hs Ht Hc Hp).
    destruct (fixed_status_sent fmt) as [-> _]. reflexivity.
  - destruct (get_gemini_response_sends_nothing alnum (request_env ue)
                (started (world d) (msg_chat_id m) user) (text_of m))
      as [A B].
    rewrite Hget in A, B. cbn [fst] in A, B. rewrite A, B.
    split; [|reflexivity].
    unfold started. rewrite deliveries_emit by reflexivity. reflexivity.
Qed.

End NoUsableAnswer.

Lemma late_answer_is_an_error alnum fmt ue d u m user w2 response :
  upd_message u = Some m -> sender m = Some user ->
  truthy (text_of m) = true -> startswith (cps "/") (text_of m) = false ->
  allowed (world d) user -> answered_in_time (request_env ue) = false ->
  get_gemini_response alnum (request_env ue)
    (started (world d) (msg_chat_id m) user) (text_of m)
  = (w2, Ret response) ->
  process_math_question alnum (request_env ue) (world d) (msg_chat_id m)
    user (text_of m)
  = (emit (EvLog LogErrorProcessing) w2, Ret (false, ErrorOccurred))
  /\ process_update alnum fmt ue d u
     = (post [status_request (msg_chat_id m) error_occurred_sent]
          (with_world (emit (EvLog LogErrorProcessing) w2)
             (with_offset (Some (update_id u + 1)) d)), Ret tt).
Proof.
  intros Hm Hs Ht Hc Hadm Hlate Hget.
  assert (Hp : process_math_question alnum (request_env ue) (world d)
                 (msg_chat_id m) user (text_of m)
               = (emit (EvLog LogErrorProcessing) w2,
                  Ret (false, ErrorOccurred))).
  { unfold process_math_question. unfold allowed in Hadm.
    unfold started in Hget.
    destruct (RateLimiter.check_rate_limit _ _ _) as [rl ok].
    cbn [fst snd] in *. subst ok. cbn [negb]. rewrite Hget, Hlate.
    reflexivity. }
  split; [exact Hp|].
  rewrite (status_is_sent alnum fmt ue d u m user _ false ErrorOccurred
             Hm Hs Ht Hc Hp).
  destruct (fixed_status_sent fmt) as [_ ->]. reflexivity.
Qed.

(** C6 (as stated, refuted): a backend without a usable answer does not
    always end in the message "I couldn't generate a solution".  The
    dispatcher waits 60 seconds for the model client; when the three
    failing calls and the 6 seconds of waiting between them take longer,
    the wait raises, and the sender of the question is sent the message
    "An error occurred while processing your question" instead. *)
Lemma slow_failing_backend_gives_error_message :
  allowed fresh_world alice
  /\ cache_miss fresh_world (cps "1+1")
  /\ (forall attempt, backend slow_and_failing attempt = BackendRaises)
  /\ exists w2,
       process_math_question ascii_only slow_and_failing fresh_world 1 alice
         (cps "1+1") = (w2, Ret (false, ErrorOccurred))
       /\ process_update ascii_only plain_elapsed too_late fresh_dispatcher
            question_update
          = (post [status_request 1 error_occurred_sent]
               (with_world w2 (with_offset (Some 102) fresh_dispatcher)),
             Ret tt)
       /\ error_occurred_sent <> could_not_generate_sent.
Proof.
  split; [vm_compute; reflexivity|].
  split; [left; vm_compute; reflexivity|].
  split; [reflexivity|].
  exists (fst (process_math_question ascii_only slow_and_failing fresh_world
                 1 alice (cps "1+1"))).
  split; [vm_compute; reflexivity|].
  split; [vm_compute; reflexivity|].
  discriminate.
Qed.

(** C6 (amended): for a request the rate limiter admits and whose model
    client is done within the 60 seconds the dispatcher waits for it, a
    backend without a usable answer ends in the fixed message: whenever
    the model client returns [None], an empty text or a text shorter
    than 10 characters after trimming, the request returns the status "I
    couldn't generate a solution", the loop sends the sender of the
    question exactly one message, that status line (escaped twice),
    nothing is delivered and nothing is written to the question log.
    That is the outcome when every call of the backend fails, when every
    call returns an empty text (in both cases the cache is left as it
    was: no entry is created), and when the backend returns a text whose
    normalized form is shorter than 10 characters.  When the model
    client is done only after the 60 seconds, whatever it returns, the
    one message sent is "An error occurred while processing your
    question" instead. *)
Theorem no_usable_answer_gives_fixed_message alnum fmt ue d (u : update)
    (m : message) (user : user_info) :
  let env := request_env ue in
  let w := world d in
  let chat_id := msg_chat_id m in
  let q := text_of m in
  let told (w2 : World) :=
    process_math_question alnum env w chat_id user q
    = (w2, Ret (false, CouldNotGenerate))
    /\ process_update alnum fmt ue d u
       = (post [status_request chat_id could_not_generate_sent]
            (with_world w2 (with_offset (Some (update_id u + 1)) d)), Ret tt)
    /\ deliveries w2 = deliveries w
    /\ question_log w2 = question_log w in
  upd_message u = Some m -> sender m = Some user ->
  truthy q = true -> startswith (cps "/") q = false ->
  allowed w user ->
  (answered_in_time env = true ->
   (forall w2 response,
      get_gemini_response alnum env (started w chat_id user) q
      = (w2, Ret response) ->
      unusable response = true ->
      told w2)
   /\ (cache_miss w q ->
       (forall attempt, 0 <= attempt < MAX_RETRIES ->
          backend env attempt = BackendRaises) ->
       exists w2, told w2 /\ response_cache w2 = response_cache w)
   /\ (cache_miss w q ->
       (forall attempt, 0 <= attempt < MAX_RETRIES ->
          backend env attempt = BackendText []) ->
       exists w2, told w2 /\ response_cache w2 = response_cache w)
   /\ (forall text,
       cache_miss w q ->
       ResponseCache.lock (response_cache w) = false ->
       backend env 0 = BackendText text -> truthy text = true ->
       len (strip (preprocess_math_text alnum text)) < 10 ->
       exists w2, told w2))
  /\ (answered_in_time env = false ->
      forall w2 response,
        get_gemini_response alnum env (started w chat_id user) q
        = (w2, Ret response) ->
        process_math_question alnum env w chat_id user q
        = (emit (EvLog LogErrorProcessing) w2, Ret (false, ErrorOccurred))
        /\ process_update alnum fmt ue d u
           = (post [status_request chat_id error_occurred_sent]
                (with_world (emit (EvLog LogErrorProcessing) w2)
                   (with_offset (Some (update_id u + 1)) d)), Ret tt))
  /\ could_not_generate_sent
     = escape_markdown_v2
         (firstn MAX_MESSAGE_LENGTH
            (escape_markdown_v2
               ([129300] ++ cps " I couldn't generate a solution. Please try rephrasing your question.")))
  /\ error_occurred_sent
     = escape_markdown_v2
         (firstn MAX_MESSAGE_LENGTH
            (escape_markdown_v2
               ([9888; 65039] ++ cps " An error occurred while processing your question. Please try again.")))
  /\ error_occurred_sent <> could_not_generate_sent.
Proof.
  cbn zeta. intros Hm Hs Ht Hc Hadm.
  split; [|split; [|split; [|split; [vm_compute; reflexivity|discriminate]]]].
  - intros Htime.
    pose proof (unusable_answer_is_told alnum fmt ue d u m user
                  Hm Hs Ht Hc Hadm Htime) as Htold.
    split; [exact Htold|]. split; [|split].
    + intros Hmiss Hfail.
      destruct (get_gemini_response_all_raise alnum (request_env ue)
                  (started (world d) (msg_chat_id m) user) (text_of m)
                  (cache_miss_started _ _ _ _ Hmiss) Hfail)
        as (w2 & Hget & Hcache).
      exists w2. split; [|exact Hcache].
      exact (Htold w2 None Hget eq_refl).
    + intros Hmiss Hempty.
      destruct (get_gemini_response_all_empty alnum (request_env ue)
                  (started (world d) (msg_chat_id m) user) (text_of m)
                  (cache_miss_started _ _ _ _ Hmiss) Hempty)
        as (w2 & Hget & _ & Hcache).
      exists w2. split; [|exact Hcache].
      exact (Htold w2 None Hget eq_refl).
    + intros text Hmiss Hl Hb Htext Hshort.
      destruct (cache_miss_encodable _ _ Hmiss) as [h Hh].
      destruct (get_gemini_response_first_text alnum (request_env ue)
                  (started (world d) (msg_chat_id m) user) (text_of m) text h
                  (cache_miss_started _ _ _ _ Hmiss) Hl Hh Hb Htext)
        as (w2 & Hget & _).
      exists w2. apply (Htold w2 _ Hget). now apply unusable_short.
  - intros Hlate w2 response Hget.
    exact (late_answer_is_an_error alnum fmt ue d u m user w2 response
             Hm Hs Ht Hc Hadm Hlate Hget).
  - vm_compute. reflexivity.
Qed.

Lemma no_usable_answer_gives_fixed_message_witness :
  allowed fresh_world alice
  /\ cache_miss fresh_world (cps "1+1")
  /\ exists w2,
       process_math_question ascii_only always_empty fresh_world 1 alice
         (cps "1+1") = (w2, Ret (false, CouldNotGenerate))
       /\ process_update ascii_only plain_elapsed no_text fresh_dispatcher
            question_update
          = (post [status_request 1 could_not_generate_sent]
               (with_world w2 (with_offset (Some 102) fresh_dispatcher)),
             Ret tt)
       /\ deliveries w2 = []
       /\ question_log w2 = None
       /\ response_cache w2 = response_cache fresh_world.
Proof.
  assert (Ha : allowed fresh_world alice) by (vm_compute; reflexivity).
  assert (Hmiss : cache_miss fresh_world (cps "1+1"))
    by (left; vm_compute; reflexivity).
  split; [exact Ha|]. split; [exact Hmiss|].
  destruct (no_usable_answer_gives_fixed_message ascii_only plain_elapsed
              no_text fresh_dispatcher question_update
              {| msg_chat_id := 1; msg_text := Some (cps "1+1");
                 msg_from := Some alice |} alice
              eq_refl eq_refl eq_refl eq_refl Ha)
    as (Hin_time & _).
  destruct (Hin_time eq_refl) as (_ & _ & Hempty & _).
  destruct (Hempty Hmiss (fun _ _ => eq_refl))
    as (w2 & (Hp & Hu & Hd & Hq) & Hcache).
  exists w2. split; [exact Hp|]. split; [exact Hu|].
  split; [exact Hd|]. split; [exact Hq | exact Hcache].
Defined.

Lemma process_update_step alnum fmt ue d u :
  ResponseCache.lock (response_cache (world d)) = false ->
  exists d' new,
    process_update alnum fmt ue d u = (d', Ret tt)
    /\ ResponseCache.lock (response_cache (world d')) = false
    /\ offset d' = Some (update_id u + 1)
    /\ outbox d' = outbox d ++ new
    /\ (List.length new <= 1)%nat
    /\ polls d' = polls d.
Proof.
  intros Hl. unfold process_update.
  assert (Hskip : exists d' new,
    (with_offset (Some (update_id u + 1)) d, Ret tt) = (d', Ret tt)
    /\ ResponseCache.lock (response_cache (world d')) = false
    /\ offset d' = Some (update_id u + 1)
    /\ outbox d' = outbox d ++ new
    /\ (List.length new <= 1)%nat /\ polls d' = polls d).
  { eexists _, []. split; [reflexivity|]. cbn. rewrite app_nil_r.
    repeat split; [exact Hl | lia]. }
  assert (Hlen : forall r c t mk,
            (List.length (fst (send_message r c t mk None (cps "MarkdownV2")))
             <= 1)%nat).
  { intros r c t mk. unfold send_message. destruct (negb _); cbn; lia. }
  destruct (upd_message u) as [m|]; [|exact Hskip].
  destruct (sender m) as [user|]; [|exact Hskip].
  destruct (truthy _); cbn [negb]; [|exact Hskip].
  destruct (startswith _ _).
  - destruct (command_answer _) as [body mk].
    eexists _, _. split; [reflexivity|]. cbn.
    repeat split; [exact Hl | apply Hlen].
  - cbn [with_offset world].
    match goal with
    | |- context [process_math_question alnum ?e ?w ?c ?us ?q] =>
        destruct (process_math_question_total alnum e w c us q Hl)
          as (w' & [success status] & Hp & Hl')
    end.
    rewrite Hp. eexists _, _. split; [reflexivity|]. cbn.
    repeat split; [exact Hl' | apply Hlen].
Qed.

Lemma process_updates_run alnum fmt (batch : list (UpdateEnv * update)) :
  forall d,
  ResponseCache.lock (response_cache (world d)) = false ->
  exists d' new,
    process_updates alnum fmt d batch = (d', Ret tt)
    /\ ResponseCache.lock (response_cache (world d')) = false
    /\ outbox d' = outbox d ++ new
    /\ (List.length new <= List.length batch)%nat
    /\ polls d' = polls d
    /\ (batch = [] -> d' = d)
    /\ (forall front ue u, batch = front ++ [(ue, u)] ->
        offset d' = Some (update_id u + 1)).
Proof.
  induction batch as [|[ue u] rest IH]; intros d Hl.
  - exists d, []. split; [reflexivity|]. split; [exact Hl|].
    rewrite app_nil_r. split; [reflexivity|]. split; [cbn; lia|].
    split; [reflexivity|]. split; [reflexivity|].
    intros [|? ?] ? ? H; discriminate H.
  - destruct (process_update_step alnum fmt ue d u Hl)
      as (d1 & new1 & Hp & Hl1 & Ho1 & Hb1 & Hn1 & Hq1).
    destruct (IH d1 Hl1)
      as (d2 & new2 & Hps & Hl2 & Hb2 & Hn2 & Hq2 & He & Hlast).
    exists d2, (new1 ++ new2). cbn [process_updates]. rewrite Hp.
    split; [exact Hps|]. split; [exact Hl2|].
    split; [now rewrite Hb2, Hb1, app_assoc|].
    split; [rewrite List.length_app; cbn [List.length]; lia|].
    split; [now rewrite Hq2|].
    split; [discriminate|].
    intros front ue' u' E. destruct rest as [|p rest'].
    + rewrite (He eq_refl), Ho1.
      destruct front as [|? [|? ?]]; cbn in E; try discriminate E.
      now injection E as _ ->.
    + destruct front as [|p0 front']; [discriminate E|].
      injection E as _ E. exact (Hlast front' ue' u' E).
Qed.

(** X24: when the lock of the cache is free, the loop over the updates
    of one answer handles every update and ends normally with the lock
    free; the cursor is then one past the identifier of the last update
    (and is not moved by an empty answer), earlier messages stay in the
    outbox, and at most one message per update is added. *)
Theorem cursor_follows_the_batch alnum fmt d
    (batch : list (UpdateEnv * update)) :
  ResponseCache.lock (response_cache (world d)) = false ->
  exists d' new,
    process_updates alnum fmt d batch = (d', Ret tt)
    /\ ResponseCache.lock (response_cache (world d')) = false
    /\ outbox d' = outbox d ++ new
    /\ (List.length new <= List.length batch)%nat
    /\ (batch = [] -> d' = d)
    /\ (forall front ue u, batch = front ++ [(ue, u)] ->
        offset d' = Some (update_id u + 1)).
Proof.
  intros Hl.
  destruct (process_updates_run alnum fmt batch d Hl)
    as (d' & new & Hp & Hl' & Hb & Hn & _ & He & Hlast).
  exists d', new. split; [exact Hp|]. split; [exact Hl'|].
  split; [exact Hb|]. split; [exact Hn|]. split; [exact He | exact Hlast].
Qed.

Lemma cursor_follows_the_batch_witness :
  exists d' new,
    process_updates ascii_only plain_elapsed fresh_dispatcher
      [(quiet, help_update); (quiet, anonymous_update)] = (d', Ret tt)
    /\ outbox d' = outbox fresh_dispatcher ++ new
    /\ (List.length new <= 2)%nat
    /\ offset d' = Some 103.
Proof.
  destruct (cursor_follows_the_batch ascii_only plain_elapsed fresh_dispatcher
              [(quiet, help_update); (quiet, anonymous_update)] eq_refl)
    as (d' & new & Hp & _ & Hb & Hn & _ & Hlast).
  exists d', new. split; [exact Hp|]. split; [exact Hb|]. split; [exact Hn|].
  exact (Hlast [(quiet, help_update)] quiet anonymous_update eq_refl).
Defined.

Lemma process_update_polls alnum fmt ue d u :
  polls (fst (process_update alnum fmt ue d u)) = polls d.
Proof.
  unfold process_update. destruct (upd_message u) as [m|]; [|reflexivity].
  destruct (sender m); [|reflexivity].
  destruct (truthy _); [|reflexivity]. cbn [negb].
  destruct (startswith _ _).
  - destruct (command_answer _). reflexivity.
  - destruct (process_math_question _ _ _ _ _ _) as [w [[? ?]|?|]];
      reflexivity.
Qed.

Lemma process_updates_polls alnum fmt batch : forall d,
  polls (fst (process_updates alnum fmt d batch)) = polls d.
Proof.
  induction batch as [|[ue u] rest IH]; intros d; [reflexivity|].
  cbn [process_updates].
  pose proof (process_update_polls alnum fmt ue d u) as Hstep.
  destruct (process_update alnum fmt ue d u) as [d1 [[]|e|]];
    cbn [fst] in *; [now rewrite IH | exact Hstep..].
Qed.

Lemma poll_iteration_polls alnum fmt d answer :
  polls (fst (poll_iteration alnum fmt d answer))
  = polls d ++ [offset_param (offset d)].
Proof.
  unfold poll_iteration. destruct answer as [batch|]; [|reflexivity].
  match goal with
  | |- context [process_updates alnum fmt ?d0 batch] =>
      pose proof (process_updates_polls alnum fmt batch d0) as H;
      destruct (process_updates alnum fmt d0 batch) as [d1 [x|e|]]
  end; exact H.
Qed.

(** X25: a turn of the loop whose request for updates fails only waits 5
    seconds; a turn that handles a batch ends normally when the lock of
    the cache is free, and the next request then asks for the updates
    after the last one handled, so that no update is asked for twice
    (the parameter is left out only when the cursor is zero). *)
Theorem next_poll_starts_after_the_batch alnum fmt d
    (front : list (UpdateEnv * update)) (ue : UpdateEnv) (u : update) :
  ResponseCache.lock (response_cache (world d)) = false ->
  update_id u + 1 <> 0 ->
  (exists d0,
     poll_iteration alnum fmt d None = (d0, Ret tt)
     /\ world d0 = sleep 5 (world d) /\ offset d0 = offset d
     /\ outbox d0 = outbox d)
  /\ (exists d1,
        poll_iteration alnum fmt d (Some (front ++ [(ue, u)])) = (d1, Ret tt)
        /\ offset d1 = Some (update_id u + 1)
        /\ forall answer,
             polls (fst (poll_iteration alnum fmt d1 answer))
             = polls d ++ [offset_param (offset d); Some (update_id u + 1)]).
Proof.
  intros Hl Hnz. split.
  - eexists. split; [reflexivity|]. cbn. repeat split.
  - pose proof (poll_iteration_polls alnum fmt d (Some (front ++ [(ue, u)])))
      as Hq.
    unfold poll_iteration in *.
    match goal with
    | |- context [process_updates alnum fmt ?d0 ?b] =>
        destruct (process_updates_run alnum fmt b d0 Hl)
          as (d1 & new & Hp & _ & _ & _ & _ & _ & Hlast)
    end.
    rewrite Hp in *. cbn [fst] in Hq. exists d1. split; [reflexivity|].
    pose proof (Hlast front ue u eq_refl) as Ho. split; [exact Ho|].
    intros answer.
    pose proof (poll_iteration_polls alnum fmt d1 answer) as Hn.
    unfold poll_iteration in Hn. rewrite Hn, Hq, Ho.
    unfold offset_param at 2. cbn [given_id].
    apply Z.eqb_neq in Hnz. rewrite Hnz. now rewrite <- app_assoc.
Qed.

Lemma next_poll_starts_after_the_batch_witness :
  exists d1,
    poll_iteration ascii_only plain_elapsed fresh_dispatcher
      (Some ([(quiet, help_update)] ++ [(quiet, anonymous_update)]))
    = (d1, Ret tt)
    /\ offset d1 = Some 103
    /\ polls (fst (poll_iteration ascii_only plain_elapsed d1 None))
       = [None; Some 103].
Proof.
  destruct (next_poll_starts_after_the_batch ascii_only plain_elapsed
              fresh_dispatcher [(quiet, help_update)] quiet anonymous_update
              eq_refl) as [_ (d1 & Hp & Ho & Hnext)].
  - discriminate.
  - exists d1. split; [exact Hp|]. split; [exact Ho|]. exact (Hnext None).
Defined.
